(** * DialectBuilder: the MLIR construction helpers of onnx-mlir

    A shallow embedding of [src/Dialect/Mlir/DialectBuilder.cpp]: the
    [MathBuilder], [MemRefBuilder] and [VectorBuilder] methods are functions
    in a builder monad whose state is the list of operations created so far
    and whose failure is a fatal stop ([assert], [llvm_unreachable]).  A
    [Value] is the operation that defines it, so a handle can be evaluated
    lane by lane on bit patterns. *)

From Stdlib Require Import ZArith Lia Bool List.
From stdpp Require Import base decidable option list numbers.

Local Open Scope Z_scope.

(** ** Types ([mlir::Type]) *)

(** [IntegerType::SignednessSemantics]. *)
Inductive SignednessSemantics : Set :=
| Signless
| Signed
| Unsigned.

(** The float types the file names or can meet as element types. *)
Inductive FloatKind : Set :=
| Float16Type
| BFloat16Type
| Float32Type
| Float64Type.

(** A memref records whether its layout is the identity
    ([hasNonIdentityLayout] is the negation of the last field). *)
Inductive Ty : Set :=
| IntegerType (width : Z) (signedness : SignednessSemantics)
| FloatType (kind : FloatKind)
| IndexType
| VectorType (shape : list Z) (elementType : Ty)
| MemRefType (shape : list Z) (elementType : Ty) (identityLayout : bool).

#[global] Instance SignednessSemantics_eq_dec : EqDecision SignednessSemantics.
Proof. solve_decision. Defined.

#[global] Instance FloatKind_eq_dec : EqDecision FloatKind.
Proof. solve_decision. Defined.

#[global] Instance Ty_eq_dec : EqDecision Ty.
Proof. solve_decision. Defined.

(** [b().getIntegerType(width)] and [b().getIntegerType(width, false)]. *)
Definition getIntegerType (width : Z) : Ty := IntegerType width Signless.

Definition getUnsignedIntegerType (width : Z) : Ty := IntegerType width Unsigned.

Definition getI8Type : Ty := IntegerType 8 Signless.

Definition isa_IntegerType (t : Ty) : bool :=
  match t with IntegerType _ _ => true | _ => false end.

Definition isa_FloatType (t : Ty) : bool :=
  match t with FloatType _ => true | _ => false end.

Definition isa_IndexType (t : Ty) : bool :=
  match t with IndexType => true | _ => false end.

Definition isa_VectorType (t : Ty) : bool :=
  match t with VectorType _ _ => true | _ => false end.

(** [Type::isUnsignedInteger()], [isSignlessInteger()], [isSignedInteger()]:
    false on anything that is not an [IntegerType], vectors included. *)
Definition isUnsignedInteger (t : Ty) : bool :=
  match t with IntegerType _ Unsigned => true | _ => false end.

Definition isSignlessInteger (t : Ty) : bool :=
  match t with IntegerType _ Signless => true | _ => false end.

Definition isSignedInteger (t : Ty) : bool :=
  match t with IntegerType _ Signed => true | _ => false end.

(** [Type::isInteger(width)]: an integer of that width, of any signedness. *)
Definition isInteger (t : Ty) (width : Z) : bool :=
  match t with IntegerType w _ => bool_decide (w = width) | _ => false end.

(** [IntegerType::getWidth()]. *)
Definition getWidth (t : Ty) : Z :=
  match t with IntegerType w _ => w | _ => 0 end.

Definition floatWidth (k : FloatKind) : Z :=
  match k with
  | Float16Type => 16
  | BFloat16Type => 16
  | Float32Type => 32
  | Float64Type => 64
  end.

Definition isIntOrFloat (t : Ty) : bool := isa_IntegerType t || isa_FloatType t.

(** [Type::getIntOrFloatBitWidth()]; MLIR asserts [isIntOrFloat] first, the
    callers below guard it. *)
Definition getIntOrFloatBitWidth (t : Ty) : Z :=
  match t with
  | IntegerType w _ => w
  | FloatType k => floatWidth k
  | _ => 0
  end.

(** [x.dyn_cast<VectorType>()]: the type itself when it is a vector. *)
Definition dyn_cast_VectorType (t : Ty) : option Ty :=
  match t with VectorType _ _ => Some t | _ => None end.

(** [MathBuilder::elementTypeWithVector]. *)
Definition elementTypeWithVector (elementOrVectorType : Ty) : Ty :=
  match dyn_cast_VectorType elementOrVectorType with
  | Some (VectorType _ elementType) => elementType
  | _ => elementOrVectorType
  end.

(** [MathBuilder::getTypeWithVector]. *)
Definition getTypeWithVector (vectorType : option Ty) (elementType : Ty) : Ty :=
  match vectorType with
  | Some (VectorType shape _) => VectorType shape elementType
  | _ => elementType
  end.

(** [MathBuilder::isIntegerWithVector]. *)
Definition isIntegerWithVector (elementOrVectorType : Ty) : bool :=
  let elementType := elementTypeWithVector elementOrVectorType in
  isa_IntegerType elementType || isa_IndexType elementType.

(** [MathBuilder::isUnsignedIntegerWithVector]. *)
Definition isUnsignedIntegerWithVector (elementOrVectorType : Ty) : bool :=
  let elementType := elementTypeWithVector elementOrVectorType in
  isUnsignedInteger elementType.

(** [MathBuilder::isFloatWithVector]. *)
Definition isFloatWithVector (elementOrVectorType : Ty) : bool :=
  let elementType := elementTypeWithVector elementOrVectorType in
  isa_FloatType elementType.

(** ** Attributes and values *)

(** The literal of a float attribute: an integral number (the file only
    builds float constants from integral doubles) or an IEEE infinity.  It is
    the double the attribute is built from; the bits the attribute stores,
    that double rounded to the format of the attribute's kind, are
    [float_literal] of the float semantics. *)
Inductive FloatLiteral : Set :=
| FloatOfInt (val : Z)
| PositiveInfinity
| NegativeInfinity.

(** An [IntegerAttr] holds an [APInt]: [value] is its bit pattern, read
    unsigned. *)
Inductive Attribute : Set :=
| IntegerAttr (type : Ty) (value : Z)
| FloatAttr (kind : FloatKind) (lit : FloatLiteral)
| BoolAttr (b : bool).

(** [APInt(numBits, val)] with [isSigned = false]: [val] arrives as a
    [uint64_t] and is cut (or zero-extended) to [numBits] bits. *)
Definition APInt (numBits val : Z) : Z := (val mod 2 ^ 64) mod 2 ^ numBits.

Definition attrType (a : Attribute) : Ty :=
  match a with
  | IntegerAttr t _ => t
  | FloatAttr k _ => FloatType k
  | BoolAttr _ => IntegerType 1 Signless
  end.

Inductive CmpIPredicate : Set :=
| eq_pred | ne_pred | slt_pred | sle_pred | sgt_pred | sge_pred
| ult_pred | ule_pred | ugt_pred | uge_pred.

Inductive CmpFPredicate : Set :=
| OEQ | OGT | OGE | OLT | OLE | ONE.

(** One-operand operations of the arith, vector and builtin dialects. *)
Inductive UnaryOpName : Set :=
| UnrealizedConversionCastOp
| IndexCastOp
| ExtUIOp | ExtSIOp | TruncIOp
| ExtFOp | TruncFOp
| UIToFPOp | SIToFPOp | FPToUIOp | FPToSIOp
| SplatOp.

(** Two-operand operations.  [AddUIExtendedOp_Sum] is the [getSum()] result of
    [arith.addui_extended], [MulUIExtendedOp_Low] the [getLow()] result of
    [arith.mului_extended]. *)
Inductive BinaryOpName : Set :=
| AddIOp | AddFOp | AddUIExtendedOp_Sum
| SubIOp | SubFOp
| MulIOp | MulFOp | MulUIExtendedOp_Low
| DivFOp | DivUIOp | DivSIOp
| RemFOp | RemUIOp | RemSIOp
| CeilDivUIOp | CeilDivSIOp
| MinFOp | MinUIOp | MinSIOp
| MaxFOp | MaxUIOp | MaxSIOp
| CmpIOp (pred : CmpIPredicate)
| CmpFOp (pred : CmpFPredicate).

(** A value is the operation that produced it (or a block argument, a value
    that exists before the builder is called); every node carries its result
    type, as the created operation does. *)
#[warnings="-register-all"]
Inductive Value : Type :=
| BlockArgument (argNumber : nat) (type : Ty)
| ConstantOp (attr : Attribute)
| UnaryOp (op : UnaryOpName) (type : Ty) (operand : Value)
| BinaryOp (op : BinaryOpName) (type : Ty) (lhs rhs : Value)
| ShuffleOp (type : Ty) (lhs rhs : Value) (mask : list Z)
| AllocOp (type : Ty) (dynSymbols : list Value) (alignment : option Z)
| ViewOp (type : Ty) (input offset : Value) (dynSymbols : list Value)
| ReshapeOp (type : Ty) (input shape : Value).

Definition getType (v : Value) : Ty :=
  match v with
  | BlockArgument _ t => t
  | ConstantOp a => attrType a
  | UnaryOp _ t _ => t
  | BinaryOp _ t _ _ => t
  | ShuffleOp t _ _ _ => t
  | AllocOp t _ _ => t
  | ViewOp t _ _ _ => t
  | ReshapeOp t _ _ => t
  end.

(** What the builder appends to the program: an operation with a result, or a
    store, which has none. *)
#[warnings="-register-all"]
Inductive Operation : Type :=
| OpWithResult (result : Value)
| AffineStoreOp (val memref : Value) (indices : list Value).

(** ** The builder monad *)

(** [b().create<Op>(...)] appends to the operations built so far; a failed
    [assert] and [llvm_unreachable] stop the compiler, which is [None]. *)
Definition Builder (A : Type) : Type :=
  list Operation -> option (A * list Operation).

Definition ret {A : Type} (a : A) : Builder A :=
  fun ops => Some (a, ops).

Definition bind {A B : Type} (m : Builder A) (k : A -> Builder B) : Builder B :=
  fun ops =>
    match m ops with
    | Some (a, ops') => k a ops'
    | None => None
    end.

Definition fatal {A : Type} : Builder A := fun _ => None.

Definition llvm_unreachable {A : Type} : Builder A := fatal.

Definition assert (cond : bool) : Builder unit :=
  if cond then ret tt else fatal.

Definition create (v : Value) : Builder Value :=
  fun ops => Some (v, ops ++ [OpWithResult v]).

Definition createStore (val memref : Value) (indices : list Value) : Builder unit :=
  fun ops => Some (tt, ops ++ [AffineStoreOp val memref indices]).

Declare Scope builder_scope.
Delimit Scope builder_scope with builder.

Notation "x <- c1 ;; c2" := (bind c1 (fun x => c2))
  (at level 100, c1 at next level, right associativity) : builder_scope.

Notation "c1 ;;; c2" := (bind c1 (fun _ => c2))
  (at level 100, right associativity) : builder_scope.

Local Open Scope builder_scope.

(** A C [for (i = init; cond(i); i = next(i)) body] over a state [S]; [fuel]
    bounds the number of iterations the model follows. *)
Fixpoint for_loop {S : Type} (fuel : nat) (i : Z) (cond : Z -> bool)
    (next : Z -> Z) (body : Z -> S -> Builder S) (s : S) : Builder S :=
  match fuel with
  | O => fatal
  | Datatypes.S fuel' =>
      if cond i then
        s' <- body i s ;;
        for_loop fuel' (next i) cond next body s'
      else ret s
  end.

(** C++ conversion to the unsigned type of [w] bits, and two's complement
    conversion to [int64_t]. *)
Definition to_unsigned (w x : Z) : Z := x mod 2 ^ w.

Definition to_int64 (x : Z) : Z :=
  let u := x mod 2 ^ 64 in if u <? 2 ^ 63 then u else u - 2 ^ 64.

(** The element at index [i] of a C++ container; reading past the end stops
    the model. *)
Definition at_index {A : Type} (l : list A) (i : Z) : Builder A :=
  match l !! Z.to_nat i with
  | Some a => ret a
  | None => fatal
  end.

(** [VectorBuilder::splat], which [MathBuilder::constant] calls. *)
Definition splat (vecType : Ty) (val : Value) : Builder Value :=
  create (UnaryOp SplatOp vecType val).

Definition non_null (vectorType : option Ty) : bool :=
  match vectorType with Some _ => true | None => false end.

(** ** MathBuilder *)

Module MathBuilder.

(** [MathBuilder::castToSignless]. *)
Definition castToSignless (val : Value) (width : Z) : Builder Value :=
  let valType := getType val in
  let vecType := dyn_cast_VectorType valType in
  let valElemType := elementTypeWithVector valType in
  assert (isa_IntegerType valElemType && negb (isSignlessInteger valElemType)) ;;;
  let destType := getTypeWithVector vecType (getIntegerType width) in
  create (UnaryOp UnrealizedConversionCastOp destType val).

(** [MathBuilder::castToUnsigned]. *)
Definition castToUnsigned (val : Value) (width : Z) : Builder Value :=
  let valType := getType val in
  let vecType := dyn_cast_VectorType valType in
  let valElemType := elementTypeWithVector valType in
  assert (isa_IntegerType valElemType) ;;;
  let destType := getTypeWithVector vecType (getUnsignedIntegerType width) in
  create (UnaryOp UnrealizedConversionCastOp destType val).

(** [MathBuilder::add]. *)
Definition add (lhs rhs : Value) : Builder Value :=
  assert (bool_decide (getType lhs = getType rhs)) ;;;
  if isIntegerWithVector (getType lhs) then
    let elemType := elementTypeWithVector (getType lhs) in
    if isUnsignedInteger elemType then
      let elemWidth := getWidth elemType in
      castLhs <- castToSignless lhs elemWidth ;;
      castRhs <- castToSignless rhs elemWidth ;;
      castAdd <- create (BinaryOp AddUIExtendedOp_Sum (getType castLhs) castLhs castRhs) ;;
      castToUnsigned castAdd elemWidth
    else create (BinaryOp AddIOp (getType lhs) lhs rhs)
  else if isFloatWithVector (getType lhs) then
    create (BinaryOp AddFOp (getType lhs) lhs rhs)
  else llvm_unreachable.

(** [MathBuilder::sub]. *)
Definition sub (lhs rhs : Value) : Builder Value :=
  assert (bool_decide (getType lhs = getType rhs)) ;;;
  if isIntegerWithVector (getType lhs) then
    create (BinaryOp SubIOp (getType lhs) lhs rhs)
  else if isFloatWithVector (getType lhs) then
    create (BinaryOp SubFOp (getType lhs) lhs rhs)
  else llvm_unreachable.

(** [MathBuilder::mul]. *)
Definition mul (lhs rhs : Value) : Builder Value :=
  assert (bool_decide (getType lhs = getType rhs)) ;;;
  if isIntegerWithVector (getType lhs) then
    let elemType := elementTypeWithVector (getType lhs) in
    if isUnsignedInteger elemType then
      let elemWidth := getWidth elemType in
      castLhs <- castToSignless lhs elemWidth ;;
      castRhs <- castToSignless rhs elemWidth ;;
      castMul <- create (BinaryOp MulUIExtendedOp_Low (getType castLhs) castLhs castRhs) ;;
      castToUnsigned castMul elemWidth
    else create (BinaryOp MulIOp (getType lhs) lhs rhs)
  else if isFloatWithVector (getType lhs) then
    create (BinaryOp MulFOp (getType lhs) lhs rhs)
  else llvm_unreachable.

(** [MathBuilder::div]. *)
Definition div (lhs rhs : Value) : Builder Value :=
  assert (bool_decide (getType lhs = getType rhs)) ;;;
  if isFloatWithVector (getType lhs) then
    create (BinaryOp DivFOp (getType lhs) lhs rhs)
  else if isUnsignedIntegerWithVector (getType lhs) then
    create (BinaryOp DivUIOp (getType lhs) lhs rhs)
  else if isIntegerWithVector (getType lhs) then
    create (BinaryOp DivSIOp (getType lhs) lhs rhs)
  else llvm_unreachable.

(** [MathBuilder::rem]. *)
Definition rem (lhs rhs : Value) : Builder Value :=
  assert (bool_decide (getType lhs = getType rhs)) ;;;
  if isFloatWithVector (getType lhs) then
    create (BinaryOp RemFOp (getType lhs) lhs rhs)
  else if isUnsignedIntegerWithVector (getType lhs) then
    create (BinaryOp RemUIOp (getType lhs) lhs rhs)
  else if isIntegerWithVector (getType lhs) then
    create (BinaryOp RemSIOp (getType lhs) lhs rhs)
  else llvm_unreachable.

(** [MathBuilder::min]. *)
Definition min (lhs rhs : Value) : Builder Value :=
  assert (bool_decide (getType lhs = getType rhs)) ;;;
  if isFloatWithVector (getType lhs) then
    create (BinaryOp MinFOp (getType lhs) lhs rhs)
  else if isUnsignedIntegerWithVector (getType lhs) then
    create (BinaryOp MinUIOp (getType lhs) lhs rhs)
  else if isIntegerWithVector (getType lhs) then
    create (BinaryOp MinSIOp (getType lhs) lhs rhs)
  else llvm_unreachable.

(** [MathBuilder::max]. *)
Definition max (lhs rhs : Value) : Builder Value :=
  assert (bool_decide (getType lhs = getType rhs)) ;;;
  if isFloatWithVector (getType lhs) then
    create (BinaryOp MaxFOp (getType lhs) lhs rhs)
  else if isUnsignedIntegerWithVector (getType lhs) then
    create (BinaryOp MaxUIOp (getType lhs) lhs rhs)
  else if isIntegerWithVector (getType lhs) then
    create (BinaryOp MaxSIOp (getType lhs) lhs rhs)
  else llvm_unreachable.

(** The result type of a comparison: [i1], or a vector of [i1] of the
    operands' shape. *)
Definition cmpResultType (operandType : Ty) : Ty :=
  getTypeWithVector (dyn_cast_VectorType operandType) (IntegerType 1 Signless).

(** [MathBuilder::createArithCmp], the integer and the float overload. *)
Definition createArithCmpI (lhs rhs : Value) (pred : CmpIPredicate) : Builder Value :=
  let type := getType lhs in
  assert (bool_decide (type = getType rhs)) ;;;
  assert (isIntegerWithVector type) ;;;
  create (BinaryOp (CmpIOp pred) (cmpResultType type) lhs rhs).

Definition createArithCmpF (lhs rhs : Value) (pred : CmpFPredicate) : Builder Value :=
  let type := getType lhs in
  assert (bool_decide (type = getType rhs)) ;;;
  assert (isFloatWithVector type) ;;;
  create (BinaryOp (CmpFOp pred) (cmpResultType type) lhs rhs).

(** [MathBuilder::neq]. *)
Definition neq (lhs rhs : Value) : Builder Value :=
  assert (bool_decide (getType lhs = getType rhs)) ;;;
  if isIntegerWithVector (getType lhs) then createArithCmpI lhs rhs ne_pred
  else if isFloatWithVector (getType lhs) then createArithCmpF lhs rhs ONE
  else llvm_unreachable.

(** [MathBuilder::constant].  The C++ parameter is a [double]; [val] is the
    integer that double holds (the callers in this file pass the literal [0]);
    a double that holds no integer is not in the model.  The integer case
    first asserts [val == (int64_t)val]: the conversion yields an [int64_t],
    so the two are equal exactly when [val] is one, and every other [val]
    stops there.  The index case converts [val] to the [int64_t] parameter of
    [getIntegerAttr] without that assertion; out of the range of [int64_t]
    C++ leaves the conversion undefined and the model wraps.  A float
    attribute records the kind it is built for and the double it is built
    from; its bits in the format of that kind, rounding included, are
    [float_literal] of the float semantics. *)
Definition constant (type : Ty) (val : Z) : Builder Value :=
  let elementType := elementTypeWithVector type in
  constant <-
    match elementType with
    | FloatType Float16Type =>
        create (ConstantOp (FloatAttr Float16Type (FloatOfInt val)))
    | FloatType Float32Type =>
        create (ConstantOp (FloatAttr Float32Type (FloatOfInt val)))
    | FloatType Float64Type =>
        create (ConstantOp (FloatAttr Float64Type (FloatOfInt val)))
    | IntegerType width _ =>
        assert (val =? to_int64 val) ;;;
        if bool_decide (width = 1) then
          create (ConstantOp (BoolAttr (negb (val =? 0))))
        else if isUnsignedInteger elementType then
          let signlessTy := getIntegerType width in
          constant <- create (ConstantOp (IntegerAttr signlessTy (APInt width val))) ;;
          castToUnsigned constant width
        else
          create (ConstantOp (IntegerAttr elementType (APInt width val)))
    | IndexType =>
        create (ConstantOp (IntegerAttr elementType (APInt 64 val)))
    | _ => llvm_unreachable
    end ;;
  if isa_VectorType type then splat type constant else ret constant.

(** [MathBuilder::constantIndex]. *)
Definition constantIndex (val : Z) : Builder Value :=
  create (ConstantOp (IntegerAttr IndexType (APInt 64 val))).

(** [std::numeric_limits<T>::min()] and [max()] of the signed and the
    unsigned integer type of [w] bits. *)
Definition int_min (w : Z) : Z := - 2 ^ (w - 1).

Definition int_max (w : Z) : Z := 2 ^ (w - 1) - 1.

Definition uint_min (w : Z) : Z := 0.

Definition uint_max (w : Z) : Z := 2 ^ w - 1.

(** The [switch (width)] of [negativeInfAttr] and [positiveInfAttr].  The two
    arms of each conditional have the signed and the unsigned type of the
    width: for 8 and 16 bits both promote to [int]; for 32 bits the common
    type is [unsigned int], for 64 bits [uint64_t], and the result is then
    stored in the [int64_t value]. *)
Definition infValue (width : Z) (signedArm unsignedArm : Z -> Z)
    (signlessOrSigned : bool) : Builder Z :=
  if bool_decide (width = 8) then
    ret (if signlessOrSigned then signedArm 8 else unsignedArm 8)
  else if bool_decide (width = 16) then
    ret (if signlessOrSigned then signedArm 16 else unsignedArm 16)
  else if bool_decide (width = 32) then
    ret (if signlessOrSigned then to_unsigned 32 (signedArm 32)
         else to_unsigned 32 (unsignedArm 32))
  else if bool_decide (width = 64) then
    ret (to_int64 (if signlessOrSigned then to_unsigned 64 (signedArm 64)
                   else to_unsigned 64 (unsignedArm 64)))
  else llvm_unreachable.

(** [MathBuilder::negativeInfAttr]. *)
Definition negativeInfAttr (type : Ty) : Builder Attribute :=
  match type with
  | FloatType Float32Type => ret (FloatAttr Float32Type NegativeInfinity)
  | FloatType Float64Type => ret (FloatAttr Float64Type NegativeInfinity)
  | IntegerType width _ =>
      let isSignless := isSignlessInteger type in
      let isSigned := isSignedInteger type in
      value <- infValue width int_min uint_min (isSignless || isSigned) ;;
      ret (IntegerAttr type (APInt width value))
  | _ => llvm_unreachable
  end.

(** [MathBuilder::positiveInfAttr]. *)
Definition positiveInfAttr (type : Ty) : Builder Attribute :=
  match type with
  | FloatType Float32Type => ret (FloatAttr Float32Type PositiveInfinity)
  | FloatType Float64Type => ret (FloatAttr Float64Type PositiveInfinity)
  | IntegerType width _ =>
      let isSignless := isSignlessInteger type in
      let isSigned := isSignedInteger type in
      value <- infValue width int_max uint_max (isSignless || isSigned) ;;
      ret (IntegerAttr type (APInt width value))
  | _ => llvm_unreachable
  end.

(** [MathBuilder::negativeInf]. *)
Definition negativeInf (type : Ty) : Builder Value :=
  attr <- negativeInfAttr type ;;
  create (ConstantOp attr).

(** [MathBuilder::positiveInf]. *)
Definition positiveInf (type : Ty) : Builder Value :=
  attr <- positiveInfAttr type ;;
  create (ConstantOp attr).

(** [MathBuilder::cast].  The C++ locals [src], [srcType], [srcElemType],
    [destType] and [destElemType] are reassigned by the index normalisation;
    the model rebinds them. *)
Definition cast (destType : Ty) (src : Value) : Builder Value :=
  let srcType := getType src in
  let srcVecType := dyn_cast_VectorType srcType in
  let destVecType := dyn_cast_VectorType destType in
  let srcElemType := elementTypeWithVector srcType in
  let destElemType := elementTypeWithVector destType in
  assert ((non_null srcVecType && non_null destVecType)
          || (negb (non_null srcVecType) && negb (non_null destVecType))) ;;;
  if bool_decide (srcType = destType) then ret src else
  st <- (if isa_IndexType srcElemType then
           let srcElemType := getIntegerType 64 in
           let srcType := getTypeWithVector srcVecType srcElemType in
           src <- create (UnaryOp IndexCastOp srcType src) ;;
           ret (srcElemType, srcType, src)
         else ret (srcElemType, srcType, src)) ;;
  let '(srcElemType, srcType, src) := st in
  let destIsIndex := isa_IndexType destElemType in
  let savedDestType := destType in
  let destElemType := if destIsIndex then getIntegerType 64 else destElemType in
  let destType :=
    if destIsIndex then getTypeWithVector destVecType destElemType else destType in
  assert (isa_IntegerType srcElemType || isa_FloatType srcElemType) ;;;
  assert (isa_IntegerType destElemType || isa_FloatType destElemType) ;;;
  let srcElemWidth := getIntOrFloatBitWidth srcElemType in
  let destElemWidth := getIntOrFloatBitWidth destElemType in
  let bitExtend := srcElemWidth <? destElemWidth in
  let bitTrunc := destElemWidth <? srcElemWidth in
  if isInteger srcElemType 1 then
    (* Boolean to int/float conversions. Boolean are unsigned. *)
    if isa_FloatType destElemType then
      create (UnaryOp UIToFPOp destType src)
    else
      dest <- create (UnaryOp ExtUIOp destType src) ;;
      if destIsIndex then create (UnaryOp IndexCastOp savedDestType dest)
      else ret dest
  else if isInteger destElemType 1 then
    (* Int/Float to booleans, just compare value to be unequal zero. *)
    let constantType := srcType in
    st <- (if isa_IntegerType srcElemType && negb (isSignlessInteger srcElemType) then
             let srcElemWidth := getWidth srcElemType in
             let constantType :=
               getTypeWithVector srcVecType (getIntegerType srcElemWidth) in
             src <- castToSignless src srcElemWidth ;;
             ret (constantType, src)
           else ret (constantType, src)) ;;
    let '(constantType, src) := st in
    zero <- constant constantType 0 ;;
    neq src zero
  else if isa_FloatType srcElemType && isa_FloatType destElemType then
    (* Float to float conversions. *)
    assert (bitExtend || bitTrunc) ;;;
    if bitExtend then create (UnaryOp ExtFOp destType src)
    else create (UnaryOp TruncFOp destType src)
  else if isa_FloatType srcElemType && isa_IntegerType destElemType then
    (* Float to int conversions. *)
    if isUnsignedInteger destType then
      let castType := getIntegerType destElemWidth in
      cast <- create (UnaryOp FPToUIOp castType src) ;;
      castToUnsigned cast destElemWidth
    else
      dest <- create (UnaryOp FPToSIOp destType src) ;;
      if destIsIndex then create (UnaryOp IndexCastOp savedDestType dest)
      else ret dest
  else if isa_IntegerType srcElemType && isa_FloatType destElemType then
    (* Int to float conversion. *)
    if isUnsignedInteger srcElemType then
      cast <- castToSignless src srcElemWidth ;;
      create (UnaryOp UIToFPOp destType cast)
    else create (UnaryOp SIToFPOp destType src)
  else if isa_IntegerType srcType && isa_IntegerType destType then
    (* Int to int conversion: the test is on the types, not the element
       types. *)
    if isUnsignedInteger srcType then
      if bool_decide (srcElemWidth = destElemWidth) && isSignlessInteger destType then
        castToSignless src srcElemWidth
      else
        assert (bitExtend || bitTrunc) ;;;
        cast <- castToSignless src srcElemWidth ;;
        let castType := getIntegerType destElemWidth in
        cast <- (if bitExtend then create (UnaryOp ExtUIOp castType cast)
                 else create (UnaryOp TruncIOp castType cast)) ;;
        if isUnsignedInteger destType then castToUnsigned cast destElemWidth
        else ret cast
    else
      if bool_decide (srcElemWidth = destElemWidth) && isUnsignedInteger destType then
        castToUnsigned src srcElemWidth
      else
        let dest := src in
        dest <- (if bitExtend then create (UnaryOp ExtSIOp destType src)
                 else ret dest) ;;
        dest <- (if bitTrunc then create (UnaryOp TruncIOp destType src)
                 else ret dest) ;;
        if destIsIndex then create (UnaryOp IndexCastOp IndexType dest)
        else if isUnsignedInteger destType then castToUnsigned dest destElemWidth
        else ret dest
  else
    (* Handled all the cases supported so far. *)
    llvm_unreachable.

(** [MathBuilder::castToIndex]. *)
Definition castToIndex (src : Value) : Builder Value := cast IndexType src.

End MathBuilder.

(** ** VectorBuilder *)

(** [VectorMachineSupport::getVectorLength], the target's lanes per vector
    register for an element type. *)
Class VectorMachineSupport : Type := {
  getVectorLength : Ty -> Z
}.

Definition getShape (t : Ty) : list Z :=
  match t with
  | VectorType shape _ => shape
  | MemRefType shape _ _ => shape
  | _ => []
  end.

Definition getRank (t : Ty) : Z := Z.of_nat (length (getShape t)).

Definition getElementType (t : Ty) : Ty :=
  match t with
  | VectorType _ e => e
  | MemRefType _ e _ => e
  | _ => t
  end.

Module VectorBuilder.
Section WithMachine.
Context `{VectorMachineSupport}.

(** [VectorBuilder::getMachineVectorLength(const Type &)]. *)
Definition getMachineVectorLength (elementType : Ty) : Z :=
  Z.max 1 (getVectorLength elementType).

(** [VectorBuilder::getMachineVectorLength(Value)]. *)
Definition getMachineVectorLengthOfValue (vecValue : Value) : Builder Z :=
  match dyn_cast_VectorType (getType vecValue) with
  | Some vecType => ret (getMachineVectorLength (getElementType vecType))
  | None => fatal
  end.

(** [VectorBuilder::shuffle]; the created [vector.shuffle] has one lane per
    mask entry and the element type of its first operand. *)
Definition shuffle (lhs rhs : Value) (mask : list Z) : Builder Value :=
  create (ShuffleOp
            (VectorType [Z.of_nat (length mask)] (getElementType (getType lhs)))
            lhs rhs mask).

(** [VectorBuilder::isPowerOf2], on [uint64_t]. *)
Definition isPowerOf2 (num : Z) : bool :=
  Z.land num ((num - 1) mod 2 ^ 64) =? 0.

(** [VectorBuilder::getLengthOf1DVector]. *)
Definition getLengthOf1DVector (vec : Value) : Builder Z :=
  match dyn_cast_VectorType (getType vec) with
  | Some vecType =>
      let vecShape := getShape vecType in
      assert (bool_decide (length vecShape = 1%nat)) ;;;
      at_index vecShape 0
  | None => fatal
  end.

(** The mask loop that [mergeHigh] and [mergeLow] share: they differ in the
    offset [half] ([firstHalf = 0], [secondHalf = VL / 2]).  The mask starts as
    [VL] zeros and is written at [i++].  The counters are bounded by the
    vector length, so the 64-bit arithmetic does not wrap. *)
Definition mergeMask (VL step half : Z) : Builder (list Z) :=
  let mask := replicate (Z.to_nat VL) 0 in
  let i := 0 in
  let pairsOfLhsRhs := VL / (2 * step) in
  st <- for_loop (Datatypes.S (Z.to_nat pairsOfLhsRhs)) 0
          (fun p => p <? pairsOfLhsRhs) Z.succ
          (fun p st =>
             (* One step-sized item from the LHS *)
             st <- for_loop (Datatypes.S (Z.to_nat step)) 0 (fun e => e <? step) Z.succ
                     (fun e '(mask, i) =>
                        ret (<[Z.to_nat i := half + p * step + e]> mask, i + 1)) st ;;
             (* One step-sized item from the RHS *)
             for_loop (Datatypes.S (Z.to_nat step)) 0 (fun e => e <? step) Z.succ
               (fun e '(mask, i) =>
                  ret (<[Z.to_nat i := half + VL + p * step + e]> mask, i + 1)) st)
          (mask, i) ;;
  ret (fst st).

(** [VectorBuilder::mergeHigh]. *)
Definition mergeHigh (lhs rhs : Value) (step : Z) : Builder Value :=
  VL <- getLengthOf1DVector lhs ;;
  VLrhs <- getLengthOf1DVector rhs ;;
  assert (VLrhs =? VL) ;;;
  assert (isPowerOf2 VL) ;;;
  let firstHalf := 0 in
  mask <- mergeMask VL step firstHalf ;;
  shuffle lhs rhs mask.

(** [VectorBuilder::mergeLow]. *)
Definition mergeLow (lhs rhs : Value) (step : Z) : Builder Value :=
  VL <- getLengthOf1DVector lhs ;;
  VLrhs <- getLengthOf1DVector rhs ;;
  assert (VLrhs =? VL) ;;;
  assert (isPowerOf2 VL) ;;;
  let secondHalf := VL / 2 in
  mask <- mergeMask VL step secondHalf ;;
  shuffle lhs rhs mask.

(** [VectorBuilder::multiReduction]; the result is [outputVecArray]. *)
Definition multiReduction (inputVecArray : list Value) : Builder (list Value) :=
  let N := Z.of_nat (length inputVecArray) in
  assert (0 <? N) ;;;
  first <- at_index inputVecArray 0 ;;
  VL <- getLengthOf1DVector first ;;
  machineVL <- getMachineVectorLengthOfValue first ;;
  assert (VL =? machineVL) ;;;
  assert (N mod machineVL =? 0) ;;;
  (* Emplace all input vectors in a temporary array. *)
  tmpArray <- for_loop (Datatypes.S (Z.to_nat N)) 0 (fun i => i <? N) Z.succ
                (fun i tmpArray =>
                   input <- at_index inputVecArray i ;;
                   len <- getLengthOf1DVector input ;;
                   assert (len =? VL) ;;;
                   ret (tmpArray ++ [input])) [] ;;
  (* Reductions of full physical vectors. *)
  st <- for_loop (Datatypes.S (Z.to_nat N)) 0 (fun r => r <? N) (fun r => r + machineVL)
          (fun r '(tmpArray, outputVecArray) =>
             let numPairs := machineVL / 2 in
             st <- for_loop (Datatypes.S (Z.to_nat machineVL)) 1
                     (fun step => step <? machineVL) (fun step => step * 2)
                     (fun step '(tmpArray, numPairs) =>
                        tmpArray <-
                          for_loop (Datatypes.S (Z.to_nat numPairs)) 0
                            (fun p => p <? numPairs) Z.succ
                            (fun p tmpArray =>
                               lhs <- at_index tmpArray (r + 2 * p) ;;
                               rhs <- at_index tmpArray (r + 2 * p + 1) ;;
                               highVal <- mergeHigh lhs rhs step ;;
                               lowVal <- mergeLow lhs rhs step ;;
                               red <- MathBuilder.add highVal lowVal ;;
                               ret (<[Z.to_nat (r + p) := red]> tmpArray))
                            tmpArray ;;
                        ret (tmpArray, numPairs / 2))
                     (tmpArray, numPairs) ;;
             out <- at_index (fst st) r ;;
             ret (fst st, outputVecArray ++ [out]))
          (tmpArray, []) ;;
  ret (snd st).

End WithMachine.
End VectorBuilder.

(** ** Index expressions *)

(** [ShapedType::kDynamic], the extent that marks a dynamic dimension. *)
Definition kDynamic : Z := - 2 ^ 63.

(** Modelled from the spec: the [IndexExpr] class is not among the sources.
    An index expression is a symbolic arithmetic expression over literal
    integers and run-time values, closed under add, multiply and
    ceiling-divide. *)
Inductive IndexExpr : Type :=
| LiteralIndexExpr (value : Z)
| SymbolIndexExpr (value : Value)
| AddIndexExpr (a b : IndexExpr)
| MulIndexExpr (a b : IndexExpr)
| CeilDivIndexExpr (a b : IndexExpr).

(** Modelled from the spec: [IndexExpr::isLiteral] and [getLiteral]; an
    expression is literal iff every sub-term is literal, and literals are
    folded at each construction step, so a literal expression is a
    [LiteralIndexExpr]. *)
Definition isLiteral (ie : IndexExpr) : bool :=
  match ie with LiteralIndexExpr _ => true | _ => false end.

Definition getLiteral (ie : IndexExpr) : Z :=
  match ie with LiteralIndexExpr z => z | _ => 0 end.

(** Modelled from the spec: the operators [+], [*] and [ceilDiv] of
    [IndexExpr], with eager folding of literals. *)
Definition ie_add (a b : IndexExpr) : IndexExpr :=
  match a, b with
  | LiteralIndexExpr x, LiteralIndexExpr y => LiteralIndexExpr (x + y)
  | _, _ => AddIndexExpr a b
  end.

Definition ie_mul (a b : IndexExpr) : IndexExpr :=
  match a, b with
  | LiteralIndexExpr x, LiteralIndexExpr y => LiteralIndexExpr (x * y)
  | _, _ => MulIndexExpr a b
  end.

Definition ceilDivZ (x y : Z) : Z := - ((- x) / y).

Definition ie_ceilDiv (a b : IndexExpr) : IndexExpr :=
  match a, b with
  | LiteralIndexExpr x, LiteralIndexExpr y => LiteralIndexExpr (ceilDivZ x y)
  | _, _ => CeilDivIndexExpr a b
  end.

(** Modelled from the spec: [SymbolIndexExpr(IndexExpr)], which brings an
    index expression into the current scope; it denotes the same extent. *)
Definition asSymbol (ie : IndexExpr) : IndexExpr := ie.

(** Modelled from the spec: [IndexExpr::getShape], the static extent of a
    literal and [kDynamic] otherwise. *)
Definition getShapeOfIndexExpr (ie : IndexExpr) : Z :=
  if isLiteral ie then getLiteral ie else kDynamic.

(** Modelled from the spec: [IndexExpr::getValue], which materialises the
    expression as a value: an index constant for a literal, the run-time
    value of a symbol, and index arithmetic for a compound. *)
Fixpoint getValue (ie : IndexExpr) : Builder Value :=
  match ie with
  | LiteralIndexExpr z => MathBuilder.constantIndex z
  | SymbolIndexExpr v => ret v
  | AddIndexExpr a b =>
      va <- getValue a ;;
      vb <- getValue b ;;
      create (BinaryOp AddIOp IndexType va vb)
  | MulIndexExpr a b =>
      va <- getValue a ;;
      vb <- getValue b ;;
      create (BinaryOp MulIOp IndexType va vb)
  | CeilDivIndexExpr a b =>
      va <- getValue a ;;
      vb <- getValue b ;;
      create (BinaryOp CeilDivSIOp IndexType va vb)
  end.

(** Modelled from the spec: the extent an index expression denotes when the
    run-time values of its symbols are given by [rho]. *)
Fixpoint ie_eval (rho : Value -> Z) (ie : IndexExpr) : Z :=
  match ie with
  | LiteralIndexExpr z => z
  | SymbolIndexExpr v => rho v
  | AddIndexExpr a b => ie_eval rho a + ie_eval rho b
  | MulIndexExpr a b => ie_eval rho a * ie_eval rho b
  | CeilDivIndexExpr a b => ceilDivZ (ie_eval rho a) (ie_eval rho b)
  end.

(** ** MemRefBuilder *)

(** [gDefaultAllocAlign], the default alignment of an allocation, declared
    outside the sources. *)
Class AllocationDefaults : Type := {
  gDefaultAllocAlign : Z
}.

(** Modelled from the spec: [hasNonIdentityLayout] is not among the sources;
    a memory layout has the identity ordering or not. *)
Definition hasNonIdentityLayout (t : Ty) : bool :=
  match t with
  | MemRefType _ _ identityLayout => negb identityLayout
  | _ => false
  end.

Definition isa_MemRefType (t : Ty) : bool :=
  match t with MemRefType _ _ _ => true | _ => false end.

Module MemRefBuilder.
Section WithTarget.
Context `{VectorMachineSupport} `{AllocationDefaults}.

(** [MemRefBuilder::defaultAlign]. *)
Definition defaultAlign : Z := -1.

(** [MemRefBuilder::computeAlignment]. *)
Definition computeAlignment (alignment : Z) : Z :=
  if gDefaultAllocAlign <? alignment then alignment else gDefaultAllocAlign.

(** [MemRefBuilder::alloc(MemRefType, ValueRange)]. *)
Definition alloc (type : Ty) (dynSymbols : list Value) : Builder Value :=
  if bool_decide (length dynSymbols = 0%nat) then create (AllocOp type [] None)
  else create (AllocOp type dynSymbols None).

(** [MemRefBuilder::alignedAlloc(MemRefType, ValueRange, int64_t)]. *)
Definition alignedAlloc (type : Ty) (dynSymbols : list Value) (alignment : Z)
    : Builder Value :=
  if bool_decide (length (getShape type) = 0%nat) then alloc type dynSymbols
  else
    let alignmentAttr := computeAlignment alignment in
    if bool_decide (length dynSymbols = 0%nat) then
      create (AllocOp type [] (Some alignmentAttr))
    else create (AllocOp type dynSymbols (Some alignmentAttr)).

(** [MemRefBuilder::getStaticAndDynamicMemSize(MemRefType, ValueRange, ...)];
    the result is the returned flag with the two output parameters
    [staticSize] and [dynSize].  The product of the static extents is an
    [int64_t]. *)
Definition getStaticAndDynamicMemSize (type : Ty) (dynSymbols : list Value)
    : Builder (bool * Z * IndexExpr) :=
  let elementType := getElementType type in
  assert (negb (isa_VectorType elementType)) ;;;
  let shape := getShape type in
  let staticSize := 1 in
  let dynSize := LiteralIndexExpr 1 in
  let staticShape := bool_decide (length dynSymbols = 0%nat) in
  let rank := getRank type in
  let iDim := 0 in
  st <- for_loop (Datatypes.S (Z.to_nat rank)) 0 (fun i => i <? rank) Z.succ
          (fun i '(staticSize, dynSize, iDim) =>
             extent <- at_index shape i ;;
             if bool_decide (extent = kDynamic) then
               assert (negb staticShape) ;;;
               assert (iDim <? Z.of_nat (length dynSymbols)) ;;;
               symbol <- at_index dynSymbols iDim ;;
               ret (staticSize, ie_mul dynSize (SymbolIndexExpr symbol), iDim + 1)
             else
               ret (to_int64 (staticSize * extent), dynSize, iDim))
          (staticSize, dynSize, iDim) ;;
  let '(staticSize, dynSize, _) := st in
  ret (staticShape, staticSize, dynSize).

(** [MemRefBuilder::view]. *)
Definition view (input : Value) (byteOffset : Z) (outputType : Ty)
    (outputDynSymbols : list Value) : Builder Value :=
  offset <- MathBuilder.constantIndex byteOffset ;;
  create (ViewOp outputType input offset outputDynSymbols).

(** [MemRefBuilder::alignedAllocWithSimdPadding(MemRefType, ValueRange,
    int64_t, int64_t)].  [getIntOrFloatBitWidth] asserts that the element
    type is an integer or a float. *)
Definition alignedAllocWithSimdPadding (type : Ty) (dynSymbols : list Value)
    (simdUnroll alignment : Z) : Builder Value :=
  let elementType := getElementType type in
  assert (negb (hasNonIdentityLayout type)) ;;;
  assert (negb (isa_VectorType elementType)) ;;;
  assert (1 <=? simdUnroll) ;;;
  sizes <- getStaticAndDynamicMemSize type dynSymbols ;;
  let '(staticShape, staticSize, dynSize) := sizes in
  let VL := to_int64 (VectorBuilder.getMachineVectorLength elementType * simdUnroll) in
  if Z.rem staticSize VL =? 0 then alignedAlloc type dynSymbols alignment
  else
    let paddingSize :=
      if staticShape then to_int64 (VL - Z.rem staticSize VL) else VL in
    assert (isIntOrFloat elementType) ;;;
    let bitWidth := getIntOrFloatBitWidth elementType in
    let totPaddedByteSize :=
      if Z.rem bitWidth 8 =? 0 then
        let byteWidth := Z.quot bitWidth 8 in
        let totByteSize :=
          ie_mul (LiteralIndexExpr (to_int64 (staticSize * byteWidth))) dynSize in
        ie_add totByteSize (LiteralIndexExpr (to_int64 (paddingSize * byteWidth)))
      else
        let totBitSize :=
          ie_mul (LiteralIndexExpr (to_int64 (staticSize * bitWidth))) dynSize in
        let totPaddedBitSize :=
          ie_add totBitSize (LiteralIndexExpr (to_int64 (paddingSize * bitWidth))) in
        ie_ceilDiv totPaddedBitSize (LiteralIndexExpr 8) in
    (if staticShape then assert (isLiteral totPaddedByteSize) else ret tt) ;;;
    paddedAlloc <-
      (if isLiteral totPaddedByteSize then
         let paddedType := MemRefType [getLiteral totPaddedByteSize] getI8Type true in
         alignedAlloc paddedType [] alignment
       else
         let paddedType := MemRefType [kDynamic] getI8Type true in
         size <- getValue totPaddedByteSize ;;
         alignedAlloc paddedType [size] alignment) ;;
    view paddedAlloc 0 type dynSymbols.

(** [MemRefBuilder::reshape]. *)
Definition reshape (destType : Ty) (valToReshape destShapeStoredInMem : Value)
    : Builder Value :=
  create (ReshapeOp destType valToReshape destShapeStoredInMem).

(** [MemRefBuilder::reshapeToFlat]; the result is the returned value with the
    output parameter [flattenedSize]. *)
Definition reshapeToFlat (valToReshape : Value) (dims : list IndexExpr)
    (dimsToFlatten : Z) : Builder (Value * Value) :=
  assert (isa_MemRefType (getType valToReshape)) ;;;
  let inputType := getType valToReshape in
  let inputRank := getRank inputType in
  assert (inputRank =? Z.of_nat (length dims)) ;;;
  let elementType := getElementType inputType in
  assert (negb (hasNonIdentityLayout inputType)) ;;;
  let dimsToFlatten := if dimsToFlatten =? -1 then inputRank else dimsToFlatten in
  assert ((0 <? dimsToFlatten) && (dimsToFlatten <=? inputRank)) ;;;
  numOfFlattenedElements <-
    for_loop (Datatypes.S (Z.to_nat dimsToFlatten)) (inputRank - dimsToFlatten)
      (fun d => d <? inputRank) Z.succ
      (fun d numOfFlattenedElements =>
         dim <- at_index dims d ;;
         ret (ie_mul numOfFlattenedElements (asSymbol dim)))
      (LiteralIndexExpr 1) ;;
  flattenedSize <- getValue numOfFlattenedElements ;;
  if dimsToFlatten =? 1 then
    ret (valToReshape, flattenedSize)
  else
    let outputRank := (inputRank - dimsToFlatten) + 1 in
    let indexType := IndexType in
    outputShapeInMem <-
      alignedAlloc (MemRefType [outputRank] indexType true) [] defaultAlign ;;
    outputShape <-
      for_loop (Datatypes.S (Z.to_nat outputRank)) 0
        (fun d => d <? outputRank) Z.succ
        (fun d outputShape =>
           dd <- MathBuilder.constantIndex d ;;
           shapeIE <- (if d =? outputRank - 1 then ret numOfFlattenedElements
                       else at_index dims d) ;;
           shapeValue <- getValue shapeIE ;;
           createStore shapeValue outputShapeInMem [dd] ;;;
           ret (outputShape ++ [getShapeOfIndexExpr shapeIE]))
        [] ;;
    let outputType := MemRefType outputShape elementType true in
    reshaped <- reshape outputType valToReshape outputShapeInMem ;;
    ret (reshaped, flattenedSize).

End WithTarget.
End MemRefBuilder.

(** ** What the created operations compute

    A run-time value is the list of its lanes (one lane for a scalar), each
    lane the bit pattern of the element read as a natural number.  The
    integer operations follow the arith dialect; the float operations are a
    parameter. *)

Class FloatSemantics : Type := {
  float_literal : FloatKind -> FloatLiteral -> Z;
  float_binary : BinaryOpName -> Ty -> Z -> Z -> Z;
  float_unary : UnaryOpName -> Ty -> Ty -> Z -> Z
}.

(** The width of a lane; an index has the 64 bits [cast] gives it. *)
Definition laneWidth (t : Ty) : Z :=
  match t with
  | IntegerType w _ => w
  | FloatType k => floatWidth k
  | IndexType => 64
  | _ => 0
  end.

(** The unsigned and the two's complement reading of a [w]-bit pattern. *)
Definition unsigned_value (w x : Z) : Z := x mod 2 ^ w.

Definition signed_value (w x : Z) : Z :=
  let u := x mod 2 ^ w in
  if u <? 2 ^ (w - 1) then u else u - 2 ^ w.

(** The number an integer type reads in a bit pattern: unsigned types and
    booleans read it unsigned, signless and signed types in two's
    complement. *)
Definition interpret (t : Ty) (x : Z) : Z :=
  match t with
  | IntegerType w Unsigned => unsigned_value w x
  | IntegerType w _ => if bool_decide (w = 1) then unsigned_value w x else signed_value w x
  | _ => signed_value (laneWidth t) x
  end.

Definition boolZ (b : bool) : Z := if b then 1 else 0.

Definition cmpi_lane (pred : CmpIPredicate) (w a b : Z) : bool :=
  let ua := unsigned_value w a in
  let ub := unsigned_value w b in
  let sa := signed_value w a in
  let sb := signed_value w b in
  match pred with
  | eq_pred => ua =? ub
  | ne_pred => negb (ua =? ub)
  | slt_pred => sa <? sb
  | sle_pred => sa <=? sb
  | sgt_pred => sb <? sa
  | sge_pred => sb <=? sa
  | ult_pred => ua <? ub
  | ule_pred => ua <=? ub
  | ugt_pred => ub <? ua
  | uge_pred => ub <=? ua
  end.

Section Evaluation.
Context `{FloatSemantics}.

(** One lane of a two-operand operation on operands of element type [t].
    [arith.addui_extended] adds the operands as unsigned numbers with one more
    bit and returns the low [w] bits as the sum; [arith.mului_extended]
    multiplies them as unsigned numbers of twice the width and returns the low
    [w] bits as the low half. *)
Definition binary_lane (op : BinaryOpName) (t : Ty) (a b : Z) : Z :=
  let w := laneWidth t in
  let ua := unsigned_value w a in
  let ub := unsigned_value w b in
  let sa := signed_value w a in
  let sb := signed_value w b in
  match op with
  | AddIOp => (a + b) mod 2 ^ w
  | AddUIExtendedOp_Sum => Z.land (ua + ub) (Z.ones w)
  | SubIOp => (a - b) mod 2 ^ w
  | MulIOp => (a * b) mod 2 ^ w
  | MulUIExtendedOp_Low => Z.land (ua * ub) (Z.ones w)
  | DivUIOp => ua / ub
  | DivSIOp => (Z.quot sa sb) mod 2 ^ w
  | RemUIOp => ua mod ub
  | RemSIOp => (Z.rem sa sb) mod 2 ^ w
  | CeilDivUIOp => - ((- ua) / ub)
  | CeilDivSIOp => (- ((- sa) / sb)) mod 2 ^ w
  | MinUIOp => Z.min ua ub
  | MaxUIOp => Z.max ua ub
  | MinSIOp => (Z.min sa sb) mod 2 ^ w
  | MaxSIOp => (Z.max sa sb) mod 2 ^ w
  | CmpIOp pred => boolZ (cmpi_lane pred w a b)
  | AddFOp | SubFOp | MulFOp | DivFOp | RemFOp | MinFOp | MaxFOp | CmpFOp _ =>
      float_binary op t a b
  end.

(** One lane of a one-operand operation from element type [s] to element
    type [d]. *)
Definition unary_lane (op : UnaryOpName) (s d : Ty) (a : Z) : Z :=
  match op with
  | UnrealizedConversionCastOp => a
  | IndexCastOp => (signed_value (laneWidth s) a) mod 2 ^ laneWidth d
  | ExtUIOp => unsigned_value (laneWidth s) a
  | ExtSIOp => (signed_value (laneWidth s) a) mod 2 ^ laneWidth d
  | TruncIOp => a mod 2 ^ laneWidth d
  | ExtFOp | TruncFOp | UIToFPOp | SIToFPOp | FPToUIOp | FPToSIOp =>
      float_unary op s d a
  | SplatOp => a
  end.

Definition attrBits (a : Attribute) : Z :=
  match a with
  | IntegerAttr _ value => value
  | FloatAttr k lit => float_literal k lit
  | BoolAttr b => boolZ b
  end.

Definition numElements (t : Ty) : Z :=
  match t with
  | VectorType shape _ => foldr Z.mul 1 shape
  | _ => 1
  end.

(** The lanes of a value, given the lanes of the block arguments.  A shuffle
    selects from the concatenation of its operands; memory operations have no
    lanes. *)
Fixpoint eval (env : nat -> list Z) (v : Value) : list Z :=
  match v with
  | BlockArgument n _ => env n
  | ConstantOp a => [attrBits a]
  | UnaryOp SplatOp t x =>
      replicate (Z.to_nat (numElements t)) (default 0 (head (eval env x)))
  | UnaryOp op t x =>
      unary_lane op (elementTypeWithVector (getType x)) (elementTypeWithVector t)
        <$> eval env x
  | BinaryOp op _ x y =>
      zip_with (binary_lane op (elementTypeWithVector (getType x)))
        (eval env x) (eval env y)
  | ShuffleOp _ x y mask =>
      (fun i => default 0 ((eval env x ++ eval env y) !! Z.to_nat i)) <$> mask
  | AllocOp _ _ _ | ViewOp _ _ _ _ | ReshapeOp _ _ _ => []
  end.

End Evaluation.

(** ** Reference values for the statements *)

(** The reinterpretation [castToSignless] creates, and the one [castToUnsigned]
    creates. *)
Definition signlessCast (val : Value) (width : Z) : Value :=
  UnaryOp UnrealizedConversionCastOp
    (getTypeWithVector (dyn_cast_VectorType (getType val)) (getIntegerType width)) val.

Definition unsignedCast (val : Value) (width : Z) : Value :=
  UnaryOp UnrealizedConversionCastOp
    (getTypeWithVector (dyn_cast_VectorType (getType val)) (getUnsignedIntegerType width))
    val.

(** The value [add] and [mul] return for unsigned operands. *)
Definition unsignedEmulation (op : BinaryOpName) (lhs rhs : Value) (width : Z) : Value :=
  let castLhs := signlessCast lhs width in
  let castRhs := signlessCast rhs width in
  unsignedCast (BinaryOp op (getType castLhs) castLhs castRhs) width.

Definition unsignedEmulationOps (op : BinaryOpName) (lhs rhs : Value) (width : Z)
    : list Operation :=
  let castLhs := signlessCast lhs width in
  let castRhs := signlessCast rhs width in
  let castOp := BinaryOp op (getType castLhs) castLhs castRhs in
  [OpWithResult castLhs; OpWithResult castRhs; OpWithResult castOp;
   OpWithResult (unsignedCast castOp width)].

(** [castToUnsigned(castToSignless(v, w), w)]. *)
Definition signlessThenUnsigned (v : Value) (w : Z) : Builder Value :=
  signless <- MathBuilder.castToSignless v w ;;
  MathBuilder.castToUnsigned signless w.

(** A float semantics to run the model on integer inputs. *)
Definition noFloats : FloatSemantics :=
  {| float_literal := fun _ _ => 0;
     float_binary := fun _ _ _ _ => 0;
     float_unary := fun _ _ _ _ => 0 |}.

(** The extrema as the specification words them: the representable minimum
    and maximum of a width for a signedness (signless integers are read as
    signed), and the attribute that holds one: an IEEE infinity for [f32] and
    [f64], the two's complement pattern of the extremum for an integer of
    width 8, 16, 32 or 64, nothing for any other type. *)
Definition representableMin (w : Z) (s : SignednessSemantics) : Z :=
  match s with Unsigned => 0 | _ => - 2 ^ (w - 1) end.

Definition representableMax (w : Z) (s : SignednessSemantics) : Z :=
  match s with Unsigned => 2 ^ w - 1 | _ => 2 ^ (w - 1) - 1 end.

Definition supportedInfWidth (w : Z) : bool :=
  (w =? 8) || (w =? 16) || (w =? 32) || (w =? 64).

Definition extremumAttr (infinity : FloatLiteral)
    (extremum : Z -> SignednessSemantics -> Z) (type : Ty) : option Attribute :=
  match type with
  | FloatType Float32Type => Some (FloatAttr Float32Type infinity)
  | FloatType Float64Type => Some (FloatAttr Float64Type infinity)
  | IntegerType w s =>
      if supportedInfWidth w then Some (IntegerAttr type (extremum w s mod 2 ^ w))
      else None
  | _ => None
  end.

(** What a builder call gives when it creates nothing: the result beside the
    unchanged operation list, or the fatal stop. *)
Definition pureResult {A : Type} (r : option A) (ops : list Operation)
    : option (A * list Operation) :=
  match r with Some a => Some (a, ops) | None => None end.

(** What a builder call gives when it creates the one constant of an
    attribute. *)
Definition constantResult (r : option Attribute) (ops : list Operation)
    : option (Value * list Operation) :=
  match r with
  | Some a => Some (ConstantOp a, ops ++ [OpWithResult (ConstantOp a)])
  | None => None
  end.

(** [cast(T, cast(S, v))]. *)
Definition castThereAndBack (T S : Ty) (v : Value) : Builder Value :=
  there <- MathBuilder.cast S v ;;
  MathBuilder.cast T there.

(** The result of a builder call run from the empty program, and its lanes
    when the block argument 0 holds [lanes] and no float is involved. *)
Definition resultOf {A : Type} (m : Builder A) : option A :=
  fst <$> m [].

Definition lanesOf (m : Builder Value) (lanes : list Z) : option (list Z) :=
  @eval noFloats (fun _ => lanes) <$> resultOf m.

(** The mask the loops of [mergeMask] build, in closed form: for each pair
    [p], [step] lanes of the left operand from [half + p * step] on, then the
    same lanes of the right operand, whose lanes follow the [VL] lanes of the
    left one; entries the loops do not reach keep their initial 0. *)
Definition maskChunk (VL step half p : Z) : list Z :=
  ((fun e => half + p * step + e) <$> seqZ 0 step)
  ++ ((fun e => half + VL + p * step + e) <$> seqZ 0 step).

Definition mergeMaskOf (VL step half : Z) : list Z :=
  let pairsOfLhsRhs := VL / (2 * step) in
  concat (maskChunk VL step half <$> seqZ 0 pairsOfLhsRhs)
  ++ replicate (Z.to_nat (VL - pairsOfLhsRhs * (2 * step))) 0.

(** Lane [i] of a run-time value. *)
Definition lane (v : list Z) (i : Z) : Z := default 0 (v !! Z.to_nat i).

(** What [MathBuilder::add] computes in one lane of element type [t]: the
    extended unsigned sum for an unsigned integer, [arith.addi] for the other
    integers and for an index, [arith.addf] for a float. *)
Definition addLane `{FloatSemantics} (t : Ty) : Z -> Z -> Z :=
  if isUnsignedInteger t then
    binary_lane AddUIExtendedOp_Sum (getIntegerType (getWidth t))
  else if isa_IntegerType t || isa_IndexType t then binary_lane AddIOp t
  else binary_lane AddFOp t.

(** The pairing order of the butterfly on one vector: add the upper half to
    the lower half, lane by lane, and again on the result, [k] times; what is
    left in lane 0 is the sum of the [2 ^ k] lanes in that order. *)
Definition foldHalf (f : Z -> Z -> Z) (v : list Z) : list Z :=
  let h := (length v / 2)%nat in
  zip_with f (take h v) (drop h v).

Definition halvingSum (f : Z -> Z -> Z) (k : nat) (v : list Z) : Z :=
  lane (Nat.iter k (foldHalf f) v) 0.

(** The sum of the lanes. *)
Definition laneSum (v : list Z) : Z := foldr Z.add 0 v.

(** A value that is a vector of [VL] lanes of element type [e], at compile
    time and at run time. *)
Definition vectorOf `{FloatSemantics} (env : nat -> list Z) (VL : Z) (e : Ty)
    (v : Value) : Prop :=
  getType v = VectorType [VL] e /\ length (eval env v) = Z.to_nat VL.

(** The lanes of input vector [idx]. *)
Definition inputLanes `{FloatSemantics} (env : nat -> list Z) (inputs : list Value)
    (idx : Z) : list Z :=
  match inputs !! Z.to_nat idx with
  | Some v => eval env v
  | None => []
  end.

(** The state of [tmpArray] in the group that starts at [r], after [t]
    doublings of [step]: the first [2^(k-t)] vectors of the group are live;
    lane [q * 2^t + c] of live vector [m] holds lane [q] of input
    [r + m * 2^t + c] folded in half [t] times; the vectors after the group
    are still the inputs. *)
Definition stageInvariant `{FloatSemantics} (env : nat -> list Z)
    (inputs : list Value) (k : nat) (e : Ty) (r : Z) (t : nat)
    (tmpArray : list Value) : Prop :=
  let VL := 2 ^ Z.of_nat k in
  length tmpArray = length inputs
  /\ Forall (vectorOf env VL e) tmpArray
  /\ (forall idx, r + VL <= idx ->
        tmpArray !! Z.to_nat idx = inputs !! Z.to_nat idx)
  /\ (forall m q c,
        0 <= m < 2 ^ (Z.of_nat k - Z.of_nat t) ->
        0 <= q < 2 ^ (Z.of_nat k - Z.of_nat t) ->
        0 <= c < 2 ^ Z.of_nat t ->
        exists v,
          tmpArray !! Z.to_nat (r + m) = Some v
          /\ lane (eval env v) (q * 2 ^ Z.of_nat t + c)
             = lane (Nat.iter t (foldHalf (addLane e))
                       (inputLanes env inputs (r + m * 2 ^ Z.of_nat t + c))) q).

(** The state of [tmpArray] inside the loop over the pairs of one step, when
    [p] pairs are done: the vectors from [r + p] on are those the step started
    from, [start], and the first [p] vectors of the group are already those of
    the next stage. *)
Definition pairInvariant `{FloatSemantics} (env : nat -> list Z)
    (inputs : list Value) (k : nat) (e : Ty) (r : Z) (t : nat)
    (start : list Value) (p : Z) (tmpArray : list Value) : Prop :=
  let VL := 2 ^ Z.of_nat k in
  length tmpArray = length inputs
  /\ Forall (vectorOf env VL e) tmpArray
  /\ (forall idx, r + p <= idx ->
        tmpArray !! Z.to_nat idx = start !! Z.to_nat idx)
  /\ (forall m q c,
        0 <= m < p ->
        0 <= q < 2 ^ (Z.of_nat k - Z.of_nat (Datatypes.S t)) ->
        0 <= c < 2 ^ Z.of_nat (Datatypes.S t) ->
        exists v,
          tmpArray !! Z.to_nat (r + m) = Some v
          /\ lane (eval env v) (q * 2 ^ Z.of_nat (Datatypes.S t) + c)
             = lane (Nat.iter (Datatypes.S t) (foldHalf (addLane e))
                       (inputLanes env inputs
                          (r + m * 2 ^ Z.of_nat (Datatypes.S t) + c))) q).

(** The state of the loop over the groups when [g] groups are done. *)
Definition groupInvariant `{FloatSemantics} (env : nat -> list Z)
    (inputs : list Value) (k : nat) (e : Ty) (g : Z)
    (st : list Value * list Value) : Prop :=
  let VL := 2 ^ Z.of_nat k in
  let '(tmpArray, outputVecArray) := st in
  length tmpArray = length inputs
  /\ Forall (vectorOf env VL e) tmpArray
  /\ (forall idx, g * VL <= idx ->
        tmpArray !! Z.to_nat idx = inputs !! Z.to_nat idx)
  /\ Z.of_nat (length outputVecArray) = g
  /\ (forall i j, 0 <= i < g -> 0 <= j < VL ->
        exists out,
          outputVecArray !! Z.to_nat i = Some out
          /\ lane (eval env out) j
             = halvingSum (addLane e) k (inputLanes env inputs (i * VL + j))).

(** A loop over the elements of a list, in order. *)
Fixpoint foldBuilder {S A : Type} (g : A -> S -> Builder S) (l : list A) (s : S)
    : Builder S :=
  match l with
  | [] => ret s
  | a :: l' => s' <- g a s ;; foldBuilder g l' s'
  end.

(** The words of the size computation: the static extents of a shape, the
    number of its dynamic extents, a product of integers, and the index
    expression that multiplies the given dynamic symbols, starting from the
    literal 1. *)
Definition staticExtents (shape : list Z) : list Z :=
  filter (fun d => d <> kDynamic) shape.

Definition numDynamic (shape : list Z) : nat :=
  length (filter (fun d => d = kDynamic) shape).

Definition productOf (l : list Z) : Z := foldr Z.mul 1 l.

Definition symbolProductFrom (start : IndexExpr) (symbols : list Value) : IndexExpr :=
  foldl (fun acc v => ie_mul acc (SymbolIndexExpr v)) start symbols.

Definition symbolProduct (symbols : list Value) : IndexExpr :=
  symbolProductFrom (LiteralIndexExpr 1) symbols.

(** The values an [int64_t] holds. *)
Definition int64_range (x : Z) : Prop := - 2 ^ 63 <= x < 2 ^ 63.

(** The value [getValue] returns for an index expression. *)
Fixpoint valueOf (ie : IndexExpr) : Value :=
  match ie with
  | LiteralIndexExpr z => ConstantOp (IntegerAttr IndexType (APInt 64 z))
  | SymbolIndexExpr v => v
  | AddIndexExpr a b => BinaryOp AddIOp IndexType (valueOf a) (valueOf b)
  | MulIndexExpr a b => BinaryOp MulIOp IndexType (valueOf a) (valueOf b)
  | CeilDivIndexExpr a b => BinaryOp CeilDivSIOp IndexType (valueOf a) (valueOf b)
  end.

(** The words of the padded allocation: the padding in elements, the size of
    the padded buffer in bytes, the byte buffer of a size given as an index
    expression (static when the size is a literal, dynamic otherwise), and the
    zero-offset view of the requested type over it. *)
Definition simdPadding (fullyStatic : bool) (staticSize VL : Z) : Z :=
  if fullyStatic then VL - Z.rem staticSize VL else VL.

Definition paddedByteSize (staticSize bitWidth dynSize paddingSize : Z) : Z :=
  if Z.rem bitWidth 8 =? 0 then
    (staticSize * (bitWidth / 8)) * dynSize + paddingSize * (bitWidth / 8)
  else
    ceilDivZ ((staticSize * bitWidth) * dynSize + paddingSize * bitWidth) 8.

Definition byteBuffer `{AllocationDefaults} (size : IndexExpr) (alignment : Z) : Value :=
  if isLiteral size then
    AllocOp (MemRefType [getLiteral size] getI8Type true) []
      (Some (MemRefBuilder.computeAlignment alignment))
  else
    AllocOp (MemRefType [kDynamic] getI8Type true) [valueOf size]
      (Some (MemRefBuilder.computeAlignment alignment)).

Definition paddedView `{AllocationDefaults} (type : Ty) (dynSymbols : list Value)
    (size : IndexExpr) (alignment : Z) : Value :=
  ViewOp type (byteBuffer size alignment)
    (ConstantOp (IntegerAttr IndexType (APInt 64 0))) dynSymbols.

(** The operations [getValue] creates for an index expression, in order. *)
Fixpoint materialisationOps (ie : IndexExpr) : list Operation :=
  match ie with
  | LiteralIndexExpr _ => [OpWithResult (valueOf ie)]
  | SymbolIndexExpr _ => []
  | AddIndexExpr a b | MulIndexExpr a b | CeilDivIndexExpr a b =>
      materialisationOps a ++ materialisationOps b ++ [OpWithResult (valueOf ie)]
  end.

(** The allocation [alignedAlloc] creates for a layout: aligned, unless the
    layout has rank 0. *)
Definition unpaddedAlloc `{AllocationDefaults} (type : Ty) (dynSymbols : list Value)
    (alignment : Z) : Value :=
  AllocOp type dynSymbols
    (if bool_decide (getShape type = []) then None
     else Some (MemRefBuilder.computeAlignment alignment)).

(** The operations of the padded allocation, in order: the arithmetic of a
    size that is not a literal, the byte buffer, the zero offset and the
    view. *)
Definition paddedAllocationOps `{AllocationDefaults} (type : Ty)
    (dynSymbols : list Value) (size : IndexExpr) (alignment : Z) : list Operation :=
  (if isLiteral size then [] else materialisationOps size)
  ++ [OpWithResult (byteBuffer size alignment);
      OpWithResult (ConstantOp (IntegerAttr IndexType (APInt 64 0)));
      OpWithResult (paddedView type dynSymbols size alignment)].

(** An operation on memory: an allocation, a view, a reshape or a store. *)
Definition isMemoryOperation (op : Operation) : bool :=
  match op with
  | OpWithResult (AllocOp _ _ _) => true
  | OpWithResult (ViewOp _ _ _ _) => true
  | OpWithResult (ReshapeOp _ _ _) => true
  | OpWithResult _ => false
  | AffineStoreOp _ _ _ => true
  end.

(** ** Concrete targets and inputs *)

(** A target to run the model on: four lanes per vector register for every
    element type, and a default alignment of 16 bytes. *)
Definition fourLanes : VectorMachineSupport :=
  {| getVectorLength := fun _ => 4 |}.

Definition align16 : AllocationDefaults :=
  {| gDefaultAllocAlign := 16 |}.

(** Block argument [n] holds the lanes [nth n lanes]. *)
Definition argumentLanes (lanes : list (list Z)) : nat -> list Z :=
  fun n => nth n lanes [].

(** ** MathBuilder: the remaining integer operations and comparisons *)

Module MathBuilderOps.

(** [MathBuilder::ceilDiv]. *)
Definition ceilDiv (lhs rhs : Value) : Builder Value :=
  assert (bool_decide (getType lhs = getType rhs)) ;;;
  if isUnsignedIntegerWithVector (getType lhs) then
    create (BinaryOp CeilDivUIOp (getType lhs) lhs rhs)
  else if isIntegerWithVector (getType lhs) then
    create (BinaryOp CeilDivSIOp (getType lhs) lhs rhs)
  else llvm_unreachable.

(** [MathBuilder::sgt], [sge], [slt], [sle]. *)
Definition sgt (lhs rhs : Value) : Builder Value :=
  assert (bool_decide (getType lhs = getType rhs)) ;;;
  if isIntegerWithVector (getType lhs) then
    MathBuilder.createArithCmpI lhs rhs sgt_pred
  else if isFloatWithVector (getType lhs) then
    MathBuilder.createArithCmpF lhs rhs OGT
  else llvm_unreachable.

Definition sge (lhs rhs : Value) : Builder Value :=
  assert (bool_decide (getType lhs = getType rhs)) ;;;
  if isIntegerWithVector (getType lhs) then
    MathBuilder.createArithCmpI lhs rhs sge_pred
  else if isFloatWithVector (getType lhs) then
    MathBuilder.createArithCmpF lhs rhs OGE
  else llvm_unreachable.

Definition slt (lhs rhs : Value) : Builder Value :=
  assert (bool_decide (getType lhs = getType rhs)) ;;;
  if isIntegerWithVector (getType lhs) then
    MathBuilder.createArithCmpI lhs rhs slt_pred
  else if isFloatWithVector (getType lhs) then
    MathBuilder.createArithCmpF lhs rhs OLT
  else llvm_unreachable.

Definition sle (lhs rhs : Value) : Builder Value :=
  assert (bool_decide (getType lhs = getType rhs)) ;;;
  if isIntegerWithVector (getType lhs) then
    MathBuilder.createArithCmpI lhs rhs sle_pred
  else if isFloatWithVector (getType lhs) then
    MathBuilder.createArithCmpF lhs rhs OLE
  else llvm_unreachable.

(** [MathBuilder::ugt], [uge], [ult], [ule]. *)
Definition ugt (lhs rhs : Value) : Builder Value :=
  assert (bool_decide (getType lhs = getType rhs)) ;;;
  if isUnsignedIntegerWithVector (getType lhs) then
    MathBuilder.createArithCmpI lhs rhs ugt_pred
  else llvm_unreachable.

Definition uge (lhs rhs : Value) : Builder Value :=
  assert (bool_decide (getType lhs = getType rhs)) ;;;
  if isUnsignedIntegerWithVector (getType lhs) then
    MathBuilder.createArithCmpI lhs rhs uge_pred
  else llvm_unreachable.

Definition ult (lhs rhs : Value) : Builder Value :=
  assert (bool_decide (getType lhs = getType rhs)) ;;;
  if isUnsignedIntegerWithVector (getType lhs) then
    MathBuilder.createArithCmpI lhs rhs ult_pred
  else llvm_unreachable.

Definition ule (lhs rhs : Value) : Builder Value :=
  assert (bool_decide (getType lhs = getType rhs)) ;;;
  if isUnsignedIntegerWithVector (getType lhs) then
    MathBuilder.createArithCmpI lhs rhs ule_pred
  else llvm_unreachable.

(** [MathBuilder::gt], [ge], [lt], [le]: no type assertion of their own. *)
Definition gt (lhs rhs : Value) : Builder Value :=
  if isUnsignedIntegerWithVector (getType lhs) then ugt lhs rhs else sgt lhs rhs.

Definition ge (lhs rhs : Value) : Builder Value :=
  if isUnsignedIntegerWithVector (getType lhs) then uge lhs rhs else sge lhs rhs.

Definition lt (lhs rhs : Value) : Builder Value :=
  if isUnsignedIntegerWithVector (getType lhs) then ult lhs rhs else slt lhs rhs.

Definition le (lhs rhs : Value) : Builder Value :=
  if isUnsignedIntegerWithVector (getType lhs) then ule lhs rhs else sle lhs rhs.

(** [MathBuilder::eq]. *)
Definition eq (lhs rhs : Value) : Builder Value :=
  assert (bool_decide (getType lhs = getType rhs)) ;;;
  if isIntegerWithVector (getType lhs) then
    MathBuilder.createArithCmpI lhs rhs eq_pred
  else if isFloatWithVector (getType lhs) then
    MathBuilder.createArithCmpF lhs rhs OEQ
  else llvm_unreachable.

(** [MathBuilder::addOffsetToLeastSignificant(ValueRange, ValueRange, ...)];
    the result is [computedIndices], which the function clears first. *)
Definition addOffsetToLeastSignificant (indices offsets : list Value)
    : Builder (list Value) :=
  let indexRank := Z.of_nat (length indices) in
  let offsetRank := Z.of_nat (length offsets) in
  let firstOffset := indexRank - offsetRank in
  assert (0 <=? firstOffset) ;;;
  for_loop (Datatypes.S (Z.to_nat indexRank)) 0 (fun i => i <? indexRank) Z.succ
    (fun i computedIndices =>
       index <- at_index indices i ;;
       if i <? firstOffset then ret (computedIndices ++ [index])
       else
         offset <- at_index offsets (i - firstOffset) ;;
         sum <- MathBuilder.add offset index ;;
         ret (computedIndices ++ [sum]))
    [].

End MathBuilderOps.

(** The number a comparison reads in an operand lane of element type [t]:
    the unsigned value for an unsigned integer, the two's complement value
    otherwise. *)
Definition comparedAs (t : Ty) (x : Z) : Z :=
  if isUnsignedInteger t then unsigned_value (laneWidth t) x
  else signed_value (laneWidth t) x.

(** A comparison builder call succeeds with a value of the comparison type
    ([i1] in the shape of the operands) whose lanes are [rel] of the operand
    lanes, read by [read]. *)
Definition comparesBy `{FloatSemantics} (env : nat -> list Z) (m : Builder Value)
    (ops : list Operation) (lhs rhs : Value) (read : Z -> Z)
    (rel : Z -> Z -> bool) : Prop :=
  exists r ops',
    m ops = Some (r, ops')
    /\ getType r = MathBuilder.cmpResultType (getType lhs)
    /\ eval env r
       = zip_with (fun a b => boolZ (rel (read a) (read b)))
           (eval env lhs) (eval env rhs).

(** [add(mul(div(a, b), b), rem(a, b))]: the dividend rebuilt from the
    quotient and the remainder. *)
Definition quotientTimesDivisorPlusRemainder (a b : Value) : Builder Value :=
  q <- MathBuilder.div a b ;;
  p <- MathBuilder.mul q b ;;
  r <- MathBuilder.rem a b ;;
  MathBuilder.add p r.

(** [div], [rem] and [ceilDiv] of the same operands, one after the other. *)
Definition quotientRemainderCeiling (a b : Value) : Builder (Value * Value * Value) :=
  q <- MathBuilder.div a b ;;
  r <- MathBuilder.rem a b ;;
  c <- MathBuilderOps.ceilDiv a b ;;
  ret (q, r, c).


(** The bit pattern of the integer constant of width [w] for [val]: a
    boolean holds whether [val] is not zero. *)
Definition constantBits (w val : Z) : Z :=
  if bool_decide (w = 1) then boolZ (negb (val =? 0)) else val mod 2 ^ w.

(** The indices [addOffsetToLeastSignificant] computes for index-typed
    operands: the leading indices as they are, then each trailing index added
    to its offset ([add(offset, index)]). *)
Definition offsetIndices (indices offsets : list Value) : list Value :=
  let firstOffset := (length indices - length offsets)%nat in
  take firstOffset indices
  ++ zip_with (fun offset index => BinaryOp AddIOp IndexType offset index)
       offsets (drop firstOffset indices).

(** ** MemRefBuilder: the overloads that take index expressions *)

Module MemRefBuilderOps.
Section WithTarget.
Context `{VectorMachineSupport} `{AllocationDefaults}.

(** [MemRefBuilder::computeDynSymbols(MemRefType, SmallVectorImpl<IndexExpr> &,
    SmallVectorImpl<Value> &)]; the result is [dynSymbols], which the function
    clears first. *)
Definition computeDynSymbols (type : Ty) (dims : list IndexExpr)
    : Builder (list Value) :=
  let rank := getRank type in
  let shape := getShape type in
  for_loop (Datatypes.S (Z.to_nat rank)) 0 (fun i => i <? rank) Z.succ
    (fun i dynSymbols =>
       extent <- at_index shape i ;;
       if bool_decide (extent = kDynamic) then
         dim <- at_index dims i ;;
         symbol <- getValue dim ;;
         ret (dynSymbols ++ [symbol])
       else ret dynSymbols)
    [].

(** [MemRefBuilder::alloc(MemRefType, SmallVectorImpl<IndexExpr> &)]. *)
Definition allocOfDims (type : Ty) (dims : list IndexExpr) : Builder Value :=
  dynSymbols <- computeDynSymbols type dims ;;
  MemRefBuilder.alloc type dynSymbols.

(** [MemRefBuilder::alignedAlloc(MemRefType, SmallVectorImpl<IndexExpr> &,
    int64_t)]. *)
Definition alignedAllocOfDims (type : Ty) (dims : list IndexExpr) (alignment : Z)
    : Builder Value :=
  dynSymbols <- computeDynSymbols type dims ;;
  MemRefBuilder.alignedAlloc type dynSymbols alignment.

(** [MemRefBuilder::getStaticAndDynamicMemSize(MemRefType,
    SmallVectorImpl<IndexExpr> &, ...)]. *)
Definition getStaticAndDynamicMemSizeOfDims (type : Ty) (dims : list IndexExpr)
    : Builder (bool * Z * IndexExpr) :=
  dynSymbols <- computeDynSymbols type dims ;;
  MemRefBuilder.getStaticAndDynamicMemSize type dynSymbols.

(** [MemRefBuilder::reshapeFromFlat]. *)
Definition reshapeFromFlat (valToReshape : Value) (dims : list IndexExpr)
    (outputType : Ty) : Builder Value :=
  assert (negb (hasNonIdentityLayout outputType)) ;;;
  let indexType := IndexType in
  let rank := getRank outputType in
  shapeND <- MemRefBuilder.alignedAlloc (MemRefType [rank] indexType true) []
               MemRefBuilder.defaultAlign ;;
  for_loop (Datatypes.S (Z.to_nat rank)) 0 (fun i => i <? rank) Z.succ
    (fun i (_ : unit) =>
       index <- MathBuilder.constantIndex i ;;
       dim <- at_index dims i ;;
       dimValue <- getValue dim ;;
       createStore dimValue shapeND [index])
    tt ;;;
  MemRefBuilder.reshape outputType valToReshape shapeND.

End WithTarget.
End MemRefBuilderOps.

(** The dimensions of the dynamic extents of a shape, in order. *)
Definition dynamicDims (shape : list Z) (dims : list IndexExpr) : list IndexExpr :=
  snd <$> filter (fun p => fst p = kDynamic) (zip shape dims).

(** The product [reshapeToFlat] builds of the dimensions it flattens:
    [1 * d1 * ... * dk], from the left. *)
Definition flattenedProduct (dims : list IndexExpr) : IndexExpr :=
  foldl (fun numOfFlattenedElements dim => ie_mul numOfFlattenedElements (asSymbol dim))
    (LiteralIndexExpr 1) dims.

(** The operations that write a shape into the buffer [shapeInMem]: for each
    position, the index constant, the materialisation of the extent, and the
    store of the extent at that index. *)
Definition shapeStoreOps (shapeInMem : Value) (extents : list IndexExpr)
    : list Operation :=
  concat (imap (fun i extent =>
                  let index := ConstantOp (IntegerAttr IndexType (APInt 64 (Z.of_nat i))) in
                  [OpWithResult index] ++ materialisationOps extent
                  ++ [AffineStoreOp (valueOf extent) shapeInMem [index]])
            extents).

(** The buffer of [rank] indices that [reshapeToFlat] and [reshapeFromFlat]
    allocate for the shape. *)
Definition shapeBuffer `{AllocationDefaults} (rank : Z) : Value :=
  AllocOp (MemRefType [rank] IndexType true) []
    (Some (MemRefBuilder.computeAlignment MemRefBuilder.defaultAlign)).

(** ** MemRefBuilder: the shape of a collapsed buffer *)

(** The inner loop of [MemRefBuilder::collapseShape] over the indices of one
    reassociation group, from the current product on: each index is checked
    and its extent multiplied in, as an [int64_t]; the first dynamic extent
    makes the result dynamic and leaves the loop ([break]), so the indices
    after it are not looked at. *)
Fixpoint collapseGroup (inputShape : list Z) (inputRank : Z) (indices : list Z)
    (currShape : Z) : Builder Z :=
  match indices with
  | [] => ret currShape
  | ii :: rest =>
      assert ((0 <=? ii) && (ii <? inputRank)) ;;;
      ss <- at_index inputShape ii ;;
      if bool_decide (ss = kDynamic) then ret kDynamic
      else collapseGroup inputShape inputRank rest (to_int64 (currShape * ss))
  end.

(** [MemRefBuilder::collapseShape], up to the type it computes for the
    [memref.collapse_shape] operation it creates last (that operation is not
    among the modelled values): the result is [outputType]. *)
Definition collapseShape (input : Value) (reassociation : list (list Z)) : Builder Ty :=
  let inputType := getType input in
  assert (isa_MemRefType inputType) ;;;
  assert (negb (hasNonIdentityLayout inputType)) ;;;
  let inputRank := getRank inputType in
  let inputShape := getShape inputType in
  let outputRank := Z.of_nat (length reassociation) in
  outputShape <-
    for_loop (Datatypes.S (Z.to_nat outputRank)) 0 (fun r => r <? outputRank) Z.succ
      (fun r outputShape =>
         indices <- at_index reassociation r ;;
         let indexNum := Z.of_nat (length indices) in
         assert (0 <? indexNum) ;;;
         currShape <- collapseGroup inputShape inputRank indices 1 ;;
         ret (outputShape ++ [currShape]))
      [] ;;
  ret (MemRefType outputShape (getElementType inputType) true).

(** The extent of a collapsed dimension: dynamic when one of the collapsed
    extents is, their product as an [int64_t] otherwise. *)
Definition collapsedExtent (inputShape : list Z) (indices : list Z) : Z :=
  let extents := (fun ii => default 0 (inputShape !! Z.to_nat ii)) <$> indices in
  if bool_decide (kDynamic ∈ extents) then kDynamic else to_int64 (productOf extents).

(** ** The reduction network, as a reference *)

(** The value [MathBuilder::add] returns for two vectors of element type [e],
    and the operations it creates for it. *)
Definition sumValue (e : Ty) (lhs rhs : Value) : Value :=
  if isUnsignedInteger e then unsignedEmulation AddUIExtendedOp_Sum lhs rhs (getWidth e)
  else if isa_FloatType e then BinaryOp AddFOp (getType lhs) lhs rhs
  else BinaryOp AddIOp (getType lhs) lhs rhs.

Definition sumOps (e : Ty) (lhs rhs : Value) : list Operation :=
  if isUnsignedInteger e then unsignedEmulationOps AddUIExtendedOp_Sum lhs rhs (getWidth e)
  else [OpWithResult (sumValue e lhs rhs)].

(** The butterfly network, written down on its own.  One pair of vectors of
    [VL] lanes is merged twice, from the lower and from the upper halves, by
    two shuffles, and the two shuffles are added. *)
Definition mergedHigh (VL : Z) (e : Ty) (step : Z) (pair : Value * Value) : Value :=
  ShuffleOp (VectorType [VL] e) (fst pair) (snd pair) (mergeMaskOf VL step 0).

Definition mergedLow (VL : Z) (e : Ty) (step : Z) (pair : Value * Value) : Value :=
  ShuffleOp (VectorType [VL] e) (fst pair) (snd pair) (mergeMaskOf VL step (VL / 2)).

Definition pairSum (VL : Z) (e : Ty) (step : Z) (pair : Value * Value) : Value :=
  sumValue e (mergedHigh VL e step pair) (mergedLow VL e step pair).

Definition pairOps (VL : Z) (e : Ty) (step : Z) (pair : Value * Value)
    : list Operation :=
  [OpWithResult (mergedHigh VL e step pair); OpWithResult (mergedLow VL e step pair)]
  ++ sumOps e (mergedHigh VL e step pair) (mergedLow VL e step pair).

(** The consecutive pairs of a list: elements 0 and 1, elements 2 and 3, and
    so on. *)
Fixpoint pairsOf {A : Type} (l : list A) : list (A * A) :=
  match l with
  | a :: b :: rest => (a, b) :: pairsOf rest
  | _ => []
  end.

(** The live vectors of a group after [t] steps, and the operations those
    steps create: step [t] (with [step = 2^t]) replaces the live vectors by
    the sums of their consecutive pairs, pair after pair. *)
Fixpoint liveAfter (VL : Z) (e : Ty) (t : nat) (group : list Value) : list Value :=
  match t with
  | O => group
  | Datatypes.S t' =>
      pairSum VL e (2 ^ Z.of_nat t') <$> pairsOf (liveAfter VL e t' group)
  end.

Fixpoint opsAfter (VL : Z) (e : Ty) (t : nat) (group : list Value) : list Operation :=
  match t with
  | O => []
  | Datatypes.S t' =>
      opsAfter VL e t' group
      ++ concat (pairOps VL e (2 ^ Z.of_nat t') <$> pairsOf (liveAfter VL e t' group))
  end.

(** The network on [inputs]: group [g] is made of the [VL = 2^k] inputs from
    [g * VL] on; after [k] steps one vector is left of it, the output of the
    group.  The groups are reduced one after the other. *)
Definition groupOf (VL g : Z) (inputs : list Value) : list Value :=
  take (Z.to_nat VL) (drop (Z.to_nat (g * VL)) inputs).

Definition reductionOutputs (e : Ty) (k : nat) (inputs : list Value) : list Value :=
  let VL := 2 ^ Z.of_nat k in
  omap (fun g => head (liveAfter VL e k (groupOf VL g inputs)))
    (seqZ 0 (Z.of_nat (length inputs) / VL)).

Definition reductionOps (e : Ty) (k : nat) (inputs : list Value) : list Operation :=
  let VL := 2 ^ Z.of_nat k in
  concat ((fun g => opsAfter VL e k (groupOf VL g inputs))
            <$> seqZ 0 (Z.of_nat (length inputs) / VL)).

(** The reading of C3 as it is worded: the elementwise sum of vectors of [VL]
    lanes, lane [j] of the result being the sum of the lanes [j] of all the
    vectors. *)
Definition elementwiseSum (VL : Z) (vectors : list (list Z)) : list Z :=
  foldr (zip_with Z.add) (replicate (Z.to_nat VL) 0) vectors.

(** The run of [multiReduction] against the network.  Inside the loop over
    the pairs of step [t] of group [g], when [p] pairs are done: the vectors
    from [g * VL + p] on are those the step started from, the first [p]
    vectors of the group are those of the next stage, and the operations of
    [p] pairs have been created. *)
Definition pairsDone (inputs : list Value) (k : nat) (e : Ty) (g : Z) (t : nat)
    (start : list Value) (ops0 : list Operation) (p : Z) (tmpArray : list Value)
    (ops : list Operation) : Prop :=
  let VL := 2 ^ Z.of_nat k in
  let group := groupOf VL g inputs in
  length tmpArray = length inputs
  /\ (forall idx, g * VL + p <= idx ->
        tmpArray !! Z.to_nat idx = start !! Z.to_nat idx)
  /\ (forall m, 0 <= m < p ->
        tmpArray !! Z.to_nat (g * VL + m)
        = liveAfter VL e (Datatypes.S t) group !! Z.to_nat m)
  /\ ops = ops0
           ++ concat (pairOps VL e (2 ^ Z.of_nat t)
                        <$> take (Z.to_nat p) (pairsOf (liveAfter VL e t group))).

(** After [t] steps of group [g]: the first [2^(k-t)] vectors of the group
    are the live vectors of the network, the later groups are still the
    inputs, and the operations of [t] steps have been created. *)
Definition stepsDone (inputs : list Value) (k : nat) (e : Ty) (g : Z)
    (ops0 : list Operation) (t : nat) (st : list Value * Z)
    (ops : list Operation) : Prop :=
  let VL := 2 ^ Z.of_nat k in
  let group := groupOf VL g inputs in
  length (fst st) = length inputs
  /\ (forall idx, (g + 1) * VL <= idx ->
        fst st !! Z.to_nat idx = inputs !! Z.to_nat idx)
  /\ (forall m, 0 <= m < 2 ^ (Z.of_nat k - Z.of_nat t) ->
        fst st !! Z.to_nat (g * VL + m) = liveAfter VL e t group !! Z.to_nat m)
  /\ snd st = VL / 2 ^ Z.of_nat (Datatypes.S t)
  /\ ops = ops0 ++ opsAfter VL e t group.

(** After [g] groups: the later groups are still the inputs, the outputs of
    the first [g] groups have been emitted and their operations created. *)
Definition groupsDone (inputs : list Value) (k : nat) (e : Ty)
    (ops0 : list Operation) (g : Z) (st : list Value * list Value)
    (ops : list Operation) : Prop :=
  let VL := 2 ^ Z.of_nat k in
  length (fst st) = length inputs
  /\ (forall idx, g * VL <= idx ->
        fst st !! Z.to_nat idx = inputs !! Z.to_nat idx)
  /\ snd st = omap (fun g => head (liveAfter VL e k (groupOf VL g inputs))) (seqZ 0 g)
  /\ ops = ops0
           ++ concat ((fun g => opsAfter VL e k (groupOf VL g inputs)) <$> seqZ 0 g).

(** * Properties *)

(** ** Element types and vector shapes *)

Lemma elementType_cases (t e : Ty) :
  elementTypeWithVector t = e -> isa_VectorType e = false ->
  t = e \/ exists shape, t = VectorType shape e.
Proof.
  destruct t; simpl; intros <-; eauto.
Qed.

Lemma getTypeWithVector_same (t e : Ty) :
  elementTypeWithVector t = e -> isa_VectorType e = false ->
  getTypeWithVector (dyn_cast_VectorType t) e = t.
Proof.
  intros He Hv. destruct (elementType_cases t e He Hv) as [-> | [shape ->]].
  - destruct e; simpl in *; congruence.
  - reflexivity.
Qed.

Lemma elementType_getTypeWithVector (t e : Ty) :
  isa_VectorType e = false ->
  elementTypeWithVector (getTypeWithVector (dyn_cast_VectorType t) e) = e.
Proof.
  intros Hv. destruct t; try reflexivity;
    destruct e; try reflexivity; discriminate Hv.
Qed.

Lemma land_ones_mod (x w : Z) : 0 <= w -> Z.land x (Z.ones w) = x mod 2 ^ w.
Proof. intros Hw. apply Z.land_ones. exact Hw. Qed.

(** ** Running the builder *)

Lemma bind_Some {A B : Type} (m : Builder A) (k : A -> Builder B) ops a ops' :
  m ops = Some (a, ops') -> bind m k ops = k a ops'.
Proof. unfold bind. intros ->. reflexivity. Qed.

Lemma bind_None {A B : Type} (m : Builder A) (k : A -> Builder B) ops :
  m ops = None -> bind m k ops = None.
Proof. unfold bind. intros ->. reflexivity. Qed.

Lemma assert_true {B : Type} (c : bool) (k : unit -> Builder B) ops :
  c = true -> bind (assert c) k ops = k tt ops.
Proof. intros ->. reflexivity. Qed.

Lemma assert_false {B : Type} (c : bool) (k : unit -> Builder B) ops :
  c = false -> bind (assert c) k ops = None.
Proof. intros ->. reflexivity. Qed.

Lemma castToSignless_run (val : Value) (width : Z) ops :
  isa_IntegerType (elementTypeWithVector (getType val)) = true ->
  isSignlessInteger (elementTypeWithVector (getType val)) = false ->
  MathBuilder.castToSignless val width ops
  = Some (signlessCast val width, ops ++ [OpWithResult (signlessCast val width)]).
Proof.
  intros Hi Hs. unfold MathBuilder.castToSignless.
  rewrite assert_true by (rewrite Hi, Hs; reflexivity). reflexivity.
Qed.

Lemma castToSignless_fatal (val : Value) (width : Z) ops :
  isa_IntegerType (elementTypeWithVector (getType val))
    && negb (isSignlessInteger (elementTypeWithVector (getType val))) = false ->
  MathBuilder.castToSignless val width ops = None.
Proof.
  intros Hc. unfold MathBuilder.castToSignless.
  rewrite assert_false by exact Hc. reflexivity.
Qed.

Lemma castToUnsigned_run (val : Value) (width : Z) ops :
  isa_IntegerType (elementTypeWithVector (getType val)) = true ->
  MathBuilder.castToUnsigned val width ops
  = Some (unsignedCast val width, ops ++ [OpWithResult (unsignedCast val width)]).
Proof.
  intros Hi. unfold MathBuilder.castToUnsigned.
  rewrite assert_true by exact Hi. reflexivity.
Qed.

Lemma signlessCast_elementType (val : Value) (width : Z) :
  elementTypeWithVector (getType (signlessCast val width)) = getIntegerType width.
Proof. apply elementType_getTypeWithVector. reflexivity. Qed.

Lemma unsignedCast_elementType (val : Value) (width : Z) :
  elementTypeWithVector (getType (unsignedCast val width)) = getUnsignedIntegerType width.
Proof. apply elementType_getTypeWithVector. reflexivity. Qed.

Lemma signlessCast_vector (val : Value) (width : Z) :
  dyn_cast_VectorType (getType (signlessCast val width))
  = match dyn_cast_VectorType (getType val) with
    | Some _ => Some (getType (signlessCast val width))
    | None => None
    end.
Proof.
  unfold signlessCast. simpl. destruct (getType val); reflexivity.
Qed.

Lemma unsigned_isIntegerWithVector (t : Ty) (width : Z) :
  elementTypeWithVector t = IntegerType width Unsigned ->
  isIntegerWithVector t = true /\ isFloatWithVector t = false
  /\ isUnsignedIntegerWithVector t = true.
Proof.
  unfold isIntegerWithVector, isFloatWithVector, isUnsignedIntegerWithVector.
  intros ->. auto.
Qed.

Lemma add_unsigned_run (lhs rhs : Value) (width : Z) ops :
  getType lhs = getType rhs ->
  elementTypeWithVector (getType lhs) = IntegerType width Unsigned ->
  MathBuilder.add lhs rhs ops
  = Some (unsignedEmulation AddUIExtendedOp_Sum lhs rhs width,
          ops ++ unsignedEmulationOps AddUIExtendedOp_Sum lhs rhs width).
Proof.
  intros Hty He.
  assert (Her : elementTypeWithVector (getType rhs) = IntegerType width Unsigned)
    by (rewrite <- Hty; exact He).
  destruct (unsigned_isIntegerWithVector _ _ He) as (Hi & _ & _).
  unfold MathBuilder.add.
  rewrite assert_true by (apply bool_decide_eq_true; exact Hty).
  rewrite Hi, He. cbn [isUnsignedInteger getWidth].
  rewrite (bind_Some _ _ _ _ _ (castToSignless_run lhs width ops
             ltac:(rewrite He; reflexivity) ltac:(rewrite He; reflexivity))).
  rewrite (bind_Some _ _ _ _ _ (castToSignless_run rhs width _
             ltac:(rewrite Her; reflexivity) ltac:(rewrite Her; reflexivity))).
  unfold bind at 1, create at 1.
  rewrite castToUnsigned_run.
  - unfold unsignedEmulation, unsignedEmulationOps.
    rewrite <- !app_assoc. reflexivity.
  - change (isa_IntegerType (elementTypeWithVector (getType (signlessCast lhs width))) = true).
    rewrite signlessCast_elementType. reflexivity.
Qed.

Lemma mul_unsigned_run (lhs rhs : Value) (width : Z) ops :
  getType lhs = getType rhs ->
  elementTypeWithVector (getType lhs) = IntegerType width Unsigned ->
  MathBuilder.mul lhs rhs ops
  = Some (unsignedEmulation MulUIExtendedOp_Low lhs rhs width,
          ops ++ unsignedEmulationOps MulUIExtendedOp_Low lhs rhs width).
Proof.
  intros Hty He.
  assert (Her : elementTypeWithVector (getType rhs) = IntegerType width Unsigned)
    by (rewrite <- Hty; exact He).
  destruct (unsigned_isIntegerWithVector _ _ He) as (Hi & _ & _).
  unfold MathBuilder.mul.
  rewrite assert_true by (apply bool_decide_eq_true; exact Hty).
  rewrite Hi, He. cbn [isUnsignedInteger getWidth].
  rewrite (bind_Some _ _ _ _ _ (castToSignless_run lhs width ops
             ltac:(rewrite He; reflexivity) ltac:(rewrite He; reflexivity))).
  rewrite (bind_Some _ _ _ _ _ (castToSignless_run rhs width _
             ltac:(rewrite Her; reflexivity) ltac:(rewrite Her; reflexivity))).
  unfold bind at 1, create at 1.
  rewrite castToUnsigned_run.
  - unfold unsignedEmulation, unsignedEmulationOps.
    rewrite <- !app_assoc. reflexivity.
  - change (isa_IntegerType (elementTypeWithVector (getType (signlessCast lhs width))) = true).
    rewrite signlessCast_elementType. reflexivity.
Qed.

Lemma getTypeWithVector_twice (t e1 e2 : Ty) :
  getTypeWithVector (dyn_cast_VectorType (getTypeWithVector (dyn_cast_VectorType t) e1)) e2
  = getTypeWithVector (dyn_cast_VectorType t) e2 \/ isa_VectorType e1 = true.
Proof.
  destruct t; simpl; try (left; reflexivity); destruct e1; simpl; auto.
Qed.

Lemma unsignedEmulation_type (op : BinaryOpName) (lhs rhs : Value) (width : Z) :
  elementTypeWithVector (getType lhs) = IntegerType width Unsigned ->
  getType (unsignedEmulation op lhs rhs width) = getType lhs.
Proof.
  intros He. unfold unsignedEmulation, unsignedCast, signlessCast. cbn [getType].
  destruct (getTypeWithVector_twice (getType lhs) (getIntegerType width)
              (getUnsignedIntegerType width)) as [-> | Hv]; [| discriminate Hv].
  apply getTypeWithVector_same; [exact He | reflexivity].
Qed.

Section EvaluationFacts.
Context `{FloatSemantics}.

Lemma eval_reinterpret (env : nat -> list Z) (t : Ty) (x : Value) :
  eval env (UnaryOp UnrealizedConversionCastOp t x) = eval env x.
Proof. cbn [eval]. unfold unary_lane. apply list_fmap_id. Qed.

Lemma eval_unsignedEmulation (env : nat -> list Z) (op : BinaryOpName)
    (lhs rhs : Value) (width : Z) :
  eval env (unsignedEmulation op lhs rhs width)
  = zip_with (binary_lane op (getIntegerType width)) (eval env lhs) (eval env rhs).
Proof.
  unfold unsignedEmulation, unsignedCast. rewrite eval_reinterpret.
  cbn [eval]. rewrite signlessCast_elementType.
  unfold signlessCast. rewrite !eval_reinterpret. reflexivity.
Qed.

(** C1: for unsigned operands of one type, [add] and [mul] reinterpret both
    operands as signless integers of the same width, apply the extended
    unsigned operation, reinterpret the result as unsigned, and every lane of
    the result is the sum (the product) of the operands' unsigned values
    modulo [2 ^ width]. *)
Theorem unsigned_add_mul_wraparound (env : nat -> list Z) (lhs rhs : Value)
    (width : Z) (ops : list Operation) :
  0 < width ->
  getType lhs = getType rhs ->
  elementTypeWithVector (getType lhs) = IntegerType width Unsigned ->
  (MathBuilder.add lhs rhs ops
   = Some (unsignedEmulation AddUIExtendedOp_Sum lhs rhs width,
           ops ++ unsignedEmulationOps AddUIExtendedOp_Sum lhs rhs width)
   /\ getType (unsignedEmulation AddUIExtendedOp_Sum lhs rhs width) = getType lhs
   /\ eval env (unsignedEmulation AddUIExtendedOp_Sum lhs rhs width)
      = zip_with (fun a b => (unsigned_value width a + unsigned_value width b) mod 2 ^ width)
          (eval env lhs) (eval env rhs))
  /\ (MathBuilder.mul lhs rhs ops
      = Some (unsignedEmulation MulUIExtendedOp_Low lhs rhs width,
              ops ++ unsignedEmulationOps MulUIExtendedOp_Low lhs rhs width)
      /\ getType (unsignedEmulation MulUIExtendedOp_Low lhs rhs width) = getType lhs
      /\ eval env (unsignedEmulation MulUIExtendedOp_Low lhs rhs width)
         = zip_with (fun a b => (unsigned_value width a * unsigned_value width b) mod 2 ^ width)
             (eval env lhs) (eval env rhs)).
Proof.
  intros Hw Hty He. split; (split; [| split]).
  - apply add_unsigned_run; assumption.
  - apply unsignedEmulation_type; assumption.
  - rewrite eval_unsignedEmulation. apply zip_with_ext; [| reflexivity..].
    intros a b. unfold binary_lane. cbn [laneWidth getIntegerType].
    apply land_ones_mod. lia.
  - apply mul_unsigned_run; assumption.
  - apply unsignedEmulation_type; assumption.
  - rewrite eval_unsignedEmulation. apply zip_with_ext; [| reflexivity..].
    intros a b. unfold binary_lane. cbn [laneWidth getIntegerType].
    apply land_ones_mod. lia.
Qed.

End EvaluationFacts.

Section ReinterpretationFacts.
Context `{FloatSemantics}.

(** C6, as the code has it: for a value whose element type is an integer of
    width [w] that is not signless (signed or unsigned),
    [castToUnsigned(castToSignless(v, w), w)] is two reinterpretations that
    leave every lane's bit pattern unchanged; the result has the unsigned
    type of width [w] in the shape of [v]. *)
Theorem castToUnsigned_castToSignless_bits (env : nat -> list Z) (v : Value)
    (w : Z) (s : SignednessSemantics) (ops : list Operation) :
  elementTypeWithVector (getType v) = IntegerType w s ->
  s <> Signless ->
  signlessThenUnsigned v w ops
  = Some (unsignedCast (signlessCast v w) w,
          ops ++ [OpWithResult (signlessCast v w);
                  OpWithResult (unsignedCast (signlessCast v w) w)])
  /\ eval env (unsignedCast (signlessCast v w) w) = eval env v
  /\ getType (unsignedCast (signlessCast v w) w)
     = getTypeWithVector (dyn_cast_VectorType (getType v)) (IntegerType w Unsigned).
Proof.
  intros He Hs. split; [| split].
  - unfold signlessThenUnsigned.
    rewrite (bind_Some _ _ _ _ _ (castToSignless_run v w ops
               ltac:(rewrite He; reflexivity)
               ltac:(rewrite He; destruct s; [congruence | reflexivity..]))).
    rewrite castToUnsigned_run.
    + rewrite <- app_assoc. reflexivity.
    + rewrite signlessCast_elementType. reflexivity.
  - unfold unsignedCast, signlessCast. rewrite !eval_reinterpret. reflexivity.
  - unfold unsignedCast, signlessCast. cbn [getType].
    destruct (getTypeWithVector_twice (getType v) (getIntegerType w)
                (getUnsignedIntegerType w)) as [-> | Hv]; [reflexivity | discriminate Hv].
Qed.

End ReinterpretationFacts.

(** [castToSignless] rejects a value that is already signless. *)
Lemma castToSignless_signless_fatal (v : Value) (w width : Z) (ops : list Operation) :
  elementTypeWithVector (getType v) = IntegerType w Signless ->
  MathBuilder.castToSignless v width ops = None.
Proof.
  intros He. apply castToSignless_fatal. rewrite He. reflexivity.
Qed.

(** ** Unsigned subtraction *)

Lemma binary_unsigned_run (lhs rhs : Value) (width : Z) ops :
  getType lhs = getType rhs ->
  elementTypeWithVector (getType lhs) = IntegerType width Unsigned ->
  MathBuilder.sub lhs rhs ops
  = Some (BinaryOp SubIOp (getType lhs) lhs rhs,
          ops ++ [OpWithResult (BinaryOp SubIOp (getType lhs) lhs rhs)])
  /\ MathBuilder.div lhs rhs ops
     = Some (BinaryOp DivUIOp (getType lhs) lhs rhs,
             ops ++ [OpWithResult (BinaryOp DivUIOp (getType lhs) lhs rhs)])
  /\ MathBuilder.rem lhs rhs ops
     = Some (BinaryOp RemUIOp (getType lhs) lhs rhs,
             ops ++ [OpWithResult (BinaryOp RemUIOp (getType lhs) lhs rhs)])
  /\ MathBuilder.min lhs rhs ops
     = Some (BinaryOp MinUIOp (getType lhs) lhs rhs,
             ops ++ [OpWithResult (BinaryOp MinUIOp (getType lhs) lhs rhs)])
  /\ MathBuilder.max lhs rhs ops
     = Some (BinaryOp MaxUIOp (getType lhs) lhs rhs,
             ops ++ [OpWithResult (BinaryOp MaxUIOp (getType lhs) lhs rhs)]).
Proof.
  intros Hty He.
  destruct (unsigned_isIntegerWithVector _ _ He) as (Hi & Hf & Hu).
  unfold MathBuilder.sub, MathBuilder.div, MathBuilder.rem, MathBuilder.min,
    MathBuilder.max.
  rewrite !assert_true by (apply bool_decide_eq_true; exact Hty).
  rewrite Hi, Hf, Hu. repeat split; reflexivity.
Qed.

(** C10: on unsigned operands of one type, [sub] creates exactly one
    operation, the plain [arith.subi] applied to the two operands as they are:
    no reinterpretation is created, where [add] and [mul] create four
    operations (two casts to signless, the extended operation, the cast back),
    and no unsigned variant is used, where [div], [rem], [min] and [max]
    create [divui], [remui], [minui] and [maxui]. *)
Theorem sub_unsigned_plain_subi (lhs rhs : Value) (width : Z) (ops : list Operation) :
  getType lhs = getType rhs ->
  elementTypeWithVector (getType lhs) = IntegerType width Unsigned ->
  MathBuilder.sub lhs rhs ops
  = Some (BinaryOp SubIOp (getType lhs) lhs rhs,
          ops ++ [OpWithResult (BinaryOp SubIOp (getType lhs) lhs rhs)])
  /\ MathBuilder.add lhs rhs ops
     = Some (unsignedEmulation AddUIExtendedOp_Sum lhs rhs width,
             ops ++ unsignedEmulationOps AddUIExtendedOp_Sum lhs rhs width)
  /\ MathBuilder.mul lhs rhs ops
     = Some (unsignedEmulation MulUIExtendedOp_Low lhs rhs width,
             ops ++ unsignedEmulationOps MulUIExtendedOp_Low lhs rhs width)
  /\ MathBuilder.div lhs rhs ops
     = Some (BinaryOp DivUIOp (getType lhs) lhs rhs,
             ops ++ [OpWithResult (BinaryOp DivUIOp (getType lhs) lhs rhs)])
  /\ MathBuilder.rem lhs rhs ops
     = Some (BinaryOp RemUIOp (getType lhs) lhs rhs,
             ops ++ [OpWithResult (BinaryOp RemUIOp (getType lhs) lhs rhs)])
  /\ MathBuilder.min lhs rhs ops
     = Some (BinaryOp MinUIOp (getType lhs) lhs rhs,
             ops ++ [OpWithResult (BinaryOp MinUIOp (getType lhs) lhs rhs)])
  /\ MathBuilder.max lhs rhs ops
     = Some (BinaryOp MaxUIOp (getType lhs) lhs rhs,
             ops ++ [OpWithResult (BinaryOp MaxUIOp (getType lhs) lhs rhs)]).
Proof.
  intros Hty He.
  destruct (binary_unsigned_run lhs rhs width ops Hty He) as (Hs & Hd & Hr & Hmin & Hmax).
  split; [exact Hs |]. split; [apply add_unsigned_run; assumption |].
  split; [apply mul_unsigned_run; assumption |]. auto.
Qed.

(** ** Infinities *)

Lemma supportedInfWidth_cases (w : Z) :
  supportedInfWidth w = true -> w = 8 \/ w = 16 \/ w = 32 \/ w = 64.
Proof. unfold supportedInfWidth. lia. Qed.

Lemma infValue_unsupported (w : Z) (f g : Z -> Z) (b : bool) ops :
  supportedInfWidth w = false -> MathBuilder.infValue w f g b ops = None.
Proof.
  unfold supportedInfWidth, MathBuilder.infValue. intros Hw.
  repeat case_bool_decide; try lia. reflexivity.
Qed.

Lemma negativeInfAttr_integer (w : Z) (s : SignednessSemantics) ops :
  MathBuilder.negativeInfAttr (IntegerType w s) ops
  = pureResult (extremumAttr NegativeInfinity representableMin (IntegerType w s)) ops.
Proof.
  cbn [extremumAttr]. destruct (supportedInfWidth w) eqn:Hw.
  - destruct (supportedInfWidth_cases w Hw) as [-> | [-> | [-> | ->]]];
      destruct s; vm_compute; reflexivity.
  - unfold MathBuilder.negativeInfAttr.
    rewrite bind_None by (apply infValue_unsupported; exact Hw). reflexivity.
Qed.

Lemma positiveInfAttr_integer (w : Z) (s : SignednessSemantics) ops :
  MathBuilder.positiveInfAttr (IntegerType w s) ops
  = pureResult (extremumAttr PositiveInfinity representableMax (IntegerType w s)) ops.
Proof.
  cbn [extremumAttr]. destruct (supportedInfWidth w) eqn:Hw.
  - destruct (supportedInfWidth_cases w Hw) as [-> | [-> | [-> | ->]]];
      destruct s; vm_compute; reflexivity.
  - unfold MathBuilder.positiveInfAttr.
    rewrite bind_None by (apply infValue_unsupported; exact Hw). reflexivity.
Qed.

Lemma negativeInfAttr_spec (type : Ty) ops :
  MathBuilder.negativeInfAttr type ops
  = pureResult (extremumAttr NegativeInfinity representableMin type) ops.
Proof.
  destruct type as [w s | k | | shape e | shape e l];
    [apply negativeInfAttr_integer | destruct k; reflexivity | reflexivity..].
Qed.

Lemma positiveInfAttr_spec (type : Ty) ops :
  MathBuilder.positiveInfAttr type ops
  = pureResult (extremumAttr PositiveInfinity representableMax type) ops.
Proof.
  destruct type as [w s | k | | shape e | shape e l];
    [apply positiveInfAttr_integer | destruct k; reflexivity | reflexivity..].
Qed.

Lemma extremum_pattern_reads_back (w : Z) (s : SignednessSemantics) :
  supportedInfWidth w = true ->
  interpret (IntegerType w s) (representableMin w s mod 2 ^ w) = representableMin w s
  /\ interpret (IntegerType w s) (representableMax w s mod 2 ^ w) = representableMax w s.
Proof.
  intros Hw. destruct (supportedInfWidth_cases w Hw) as [-> | [-> | [-> | ->]]];
    destruct s; vm_compute; split; reflexivity.
Qed.

(** C7: [negativeInfAttr] and [positiveInfAttr] accept exactly [f32], [f64]
    and the integer types of width 8, 16, 32 and 64.  They give the IEEE
    negative (positive) infinity for the floats and, for the integers, the
    bit pattern that reads, in the signedness of the type, as the
    representable minimum (maximum): 0 and [2^w - 1] for unsigned,
    [-2^(w-1)] and [2^(w-1) - 1] for signed and signless.  Every other type
    is a fatal stop.  [negativeInf] and [positiveInf] create the constant of
    that attribute. *)
Theorem infAttr_extrema (type : Ty) (ops : list Operation) :
  MathBuilder.negativeInfAttr type ops
  = pureResult (extremumAttr NegativeInfinity representableMin type) ops
  /\ MathBuilder.positiveInfAttr type ops
     = pureResult (extremumAttr PositiveInfinity representableMax type) ops
  /\ MathBuilder.negativeInf type ops
     = constantResult (extremumAttr NegativeInfinity representableMin type) ops
  /\ MathBuilder.positiveInf type ops
     = constantResult (extremumAttr PositiveInfinity representableMax type) ops
  /\ (forall w s, type = IntegerType w s -> supportedInfWidth w = true ->
      interpret type (representableMin w s mod 2 ^ w) = representableMin w s
      /\ interpret type (representableMax w s mod 2 ^ w) = representableMax w s).
Proof.
  split; [apply negativeInfAttr_spec |]. split; [apply positiveInfAttr_spec |].
  split; [| split].
  - unfold MathBuilder.negativeInf, bind. rewrite negativeInfAttr_spec.
    destruct (extremumAttr _ _ type); reflexivity.
  - unfold MathBuilder.positiveInf, bind. rewrite positiveInfAttr_spec.
    destruct (extremumAttr _ _ type); reflexivity.
  - intros w s -> Hw. apply extremum_pattern_reads_back. exact Hw.
Qed.

(** ** Casts between integer types *)

(** A vector of integers cannot be cast to another vector of integers: the
    integer-to-integer case tests [srcType] and [destType], which are vector
    types, so the cast falls through to [llvm_unreachable]. *)
Lemma cast_vector_integer_fatal (src : Value) (shape shape' : list Z)
    (sw dw : Z) (ss ds : SignednessSemantics) (ops : list Operation) :
  getType src = VectorType shape (IntegerType sw ss) ->
  VectorType shape (IntegerType sw ss) <> VectorType shape' (IntegerType dw ds) ->
  sw <> 1 -> dw <> 1 ->
  MathBuilder.cast (VectorType shape' (IntegerType dw ds)) src ops = None.
Proof.
  intros Hty Hne Hsw Hdw. unfold MathBuilder.cast. rewrite Hty.
  cbn [dyn_cast_VectorType non_null elementTypeWithVector andb orb negb].
  rewrite assert_true by reflexivity.
  rewrite bool_decide_eq_false_2 by exact Hne.
  cbn [isa_IndexType]. rewrite bind_Some with (a := (IntegerType sw ss, VectorType shape (IntegerType sw ss), src)) (ops' := ops) by reflexivity.
  cbn [isa_IntegerType isa_FloatType orb andb isInteger].
  rewrite !assert_true by reflexivity.
  rewrite !bool_decide_eq_false_2 by assumption.
  reflexivity.
Qed.

Section CastFacts.
Context `{FloatSemantics}.

Lemma signed_value_mod (w x : Z) : 0 < w -> signed_value w x mod 2 ^ w = x mod 2 ^ w.
Proof.
  intros Hw. unfold signed_value. destruct (_ <? _).
  - apply Z.mod_mod. lia.
  - rewrite <- (Z.mod_add _ 1) by lia.
    replace (x mod 2 ^ w - 2 ^ w + 1 * 2 ^ w) with (x mod 2 ^ w) by lia.
    apply Z.mod_mod. lia.
Qed.

Lemma mod_pow2_mod_pow2 (x p q : Z) :
  0 <= q <= p -> (x mod 2 ^ p) mod 2 ^ q = x mod 2 ^ q.
Proof.
  intros Hpq. replace p with (q + (p - q)) by lia.
  rewrite Z.pow_add_r by lia.
  rewrite Z.rem_mul_r by lia.
  rewrite Z.mul_comm, Z.mod_add by lia. apply Z.mod_mod. lia.
Qed.

Lemma signed_value_trunc (p q x : Z) :
  0 < q <= p -> signed_value p x mod 2 ^ q = x mod 2 ^ q.
Proof.
  intros Hpq. rewrite <- (mod_pow2_mod_pow2 (signed_value p x) p q) by lia.
  rewrite signed_value_mod by lia. apply mod_pow2_mod_pow2. lia.
Qed.

Lemma mod_small_wider (a p q : Z) :
  0 <= a < 2 ^ p -> 0 <= p <= q -> a mod 2 ^ q = a.
Proof.
  intros Ha Hpq. apply Z.mod_small.
  pose proof (Z.pow_le_mono_r 2 p q). lia.
Qed.

(** X1: a scalar cast between two different integer types, neither a boolean,
    gives the number the source type reads in the source bits, wrapped to the
    destination width: an unsigned source is zero-extended, a signed or
    signless source is sign-extended, a wider source is truncated, and equal
    widths are reinterpreted.  The result is unsigned exactly when the
    destination is.  (The same-width cast from unsigned to an explicitly
    signed type is excluded: it fails the [expected extend or trunc]
    assertion.) *)
Lemma cast_scalar_integer (env : nat -> list Z) (src : Value) (sw dw a : Z)
    (ss ds : SignednessSemantics) (ops : list Operation) :
  getType src = IntegerType sw ss ->
  1 < sw -> 1 < dw ->
  IntegerType sw ss <> IntegerType dw ds ->
  ~ (ss = Unsigned /\ sw = dw /\ ds = Signed) ->
  eval env src = [a] ->
  0 <= a < 2 ^ sw ->
  exists r ops',
    MathBuilder.cast (IntegerType dw ds) src ops = Some (r, ops')
    /\ eval env r = [interpret (IntegerType sw ss) a mod 2 ^ dw]
    /\ isa_IntegerType (getType r) = true
    /\ getWidth (getType r) = dw
    /\ isUnsignedInteger (getType r) = bool_decide (ds = Unsigned).
Proof.
  intros Hty Hsw Hdw Hne Hbad Hev Ha.
  unfold MathBuilder.cast. rewrite Hty.
  cbn [dyn_cast_VectorType non_null elementTypeWithVector andb orb negb].
  rewrite assert_true by reflexivity.
  rewrite bool_decide_eq_false_2 by exact Hne.
  cbn [isa_IndexType].
  rewrite bind_Some with (a := (IntegerType sw ss, IntegerType sw ss, src)) (ops' := ops)
    by reflexivity.
  cbn [isa_IntegerType isa_FloatType orb andb isInteger getIntOrFloatBitWidth].
  rewrite !assert_true by reflexivity.
  rewrite !bool_decide_eq_false_2 by lia.
  unfold MathBuilder.castToSignless, MathBuilder.castToUnsigned.
  rewrite Hty.
  destruct (Z.ltb_spec sw dw), (Z.ltb_spec dw sw); try lia;
    case_bool_decide; try lia;
    destruct ss, ds; try (exfalso; apply Hbad; auto; fail); try congruence;
    cbn -[Z.pow Z.modulo];
    (eexists; eexists; split; [reflexivity |]);
    cbn -[Z.pow Z.modulo]; rewrite ?Hty; cbn -[Z.pow Z.modulo]; rewrite ?Hev;
    cbn -[Z.pow Z.modulo].
  all: repeat case_bool_decide; try lia; try congruence.
  all: unfold unary_lane, unsigned_value; cbn [laneWidth getIntegerType].
  all: (split; [f_equal | auto]).
  all: rewrite ?signed_value_trunc, ?mod_pow2_mod_pow2 by lia.
  all: rewrite ?signed_value_mod by lia.
  all: rewrite ?(Z.mod_small a (2 ^ sw)) by lia.
  all: rewrite ?(mod_small_wider a sw dw) by lia.
  all: reflexivity.
Qed.

End CastFacts.

(** X2: the cast to the type a value already has returns the value and
    creates nothing. *)
Lemma cast_same_type (src : Value) (ops : list Operation) :
  MathBuilder.cast (getType src) src ops = Some (src, ops).
Proof.
  unfold MathBuilder.cast.
  rewrite assert_true by (destruct (dyn_cast_VectorType (getType src)); reflexivity).
  rewrite bool_decide_eq_true_2 by reflexivity. reflexivity.
Qed.

(** C4 at a vector: the cast of a [vector<4xsi8>] to [vector<4xui8>], which
    the integer-to-integer conversion should reinterpret lane by lane, is a
    fatal stop ([llvm_unreachable]), and so are the widening and the
    narrowing of a vector of integers; the same casts of a scalar succeed,
    and the scalar [si8] holding -1 (bits 255) cast to [ui8] reads 255. *)
Theorem cast_vector_of_integers_unreachable :
  MathBuilder.cast (VectorType [4] (IntegerType 8 Unsigned))
    (BlockArgument 0 (VectorType [4] (IntegerType 8 Signed))) [] = None
  /\ MathBuilder.cast (VectorType [4] (IntegerType 16 Signless))
       (BlockArgument 0 (VectorType [4] (IntegerType 8 Signless))) [] = None
  /\ MathBuilder.cast (VectorType [4] (IntegerType 8 Unsigned))
       (BlockArgument 0 (VectorType [4] (IntegerType 16 Unsigned))) [] = None
  /\ lanesOf (MathBuilder.cast (IntegerType 8 Unsigned)
                (BlockArgument 0 (IntegerType 8 Signed))) [255] = Some [255]
  /\ interpret (IntegerType 8 Signed) 255 = -1
  /\ interpret (IntegerType 8 Unsigned) 255 = 255.
Proof. vm_compute. repeat split; reflexivity. Qed.

(** C5 at a vector: widening a [vector<4xi8>] to [vector<4xi16>] and
    narrowing it back loses no precision, yet [cast(T, cast(S, v))] is a
    fatal stop, because the first cast already is; the same round trip of a
    scalar returns the bits of [v], and the cast to the type of [v] returns
    [v] itself. *)
Theorem cast_round_trip_vector_unreachable :
  castThereAndBack (VectorType [4] (IntegerType 8 Signless))
    (VectorType [4] (IntegerType 16 Signless))
    (BlockArgument 0 (VectorType [4] (IntegerType 8 Signless))) [] = None
  /\ lanesOf (castThereAndBack (IntegerType 8 Signless) (IntegerType 16 Signless)
                (BlockArgument 0 (IntegerType 8 Signless))) [200] = Some [200]
  /\ MathBuilder.cast (VectorType [4] (IntegerType 8 Signless))
       (BlockArgument 0 (VectorType [4] (IntegerType 8 Signless))) []
     = Some (BlockArgument 0 (VectorType [4] (IntegerType 8 Signless)), []).
Proof. vm_compute. repeat split; reflexivity. Qed.

(** ** Loops *)

(** A counting loop that keeps an invariant runs to its bound. *)
Lemma for_loop_counting {S : Type} (P : Z -> S -> Prop) (lo hi : Z)
    (body : Z -> S -> Builder S) (fuel : nat) (s : S) (ops : list Operation) :
  lo <= hi ->
  (Z.to_nat (hi - lo) < fuel)%nat ->
  P lo s ->
  (forall i s ops, lo <= i < hi -> P i s ->
     exists s' ops', body i s ops = Some (s', ops') /\ P (i + 1) s') ->
  exists s' ops',
    for_loop fuel lo (fun i => i <? hi) Z.succ body s ops = Some (s', ops')
    /\ P hi s'.
Proof.
  intros Hle Hfuel HP Hbody.
  remember (Z.to_nat (hi - lo)) as n eqn:Hn.
  revert lo s ops fuel Hle Hfuel HP Hbody Hn.
  induction n as [| n IH]; intros lo s ops fuel Hle Hfuel HP Hbody Hn.
  - assert (lo = hi) as -> by lia.
    destruct fuel as [| fuel]; [lia |]. cbn [for_loop].
    rewrite Z.ltb_irrefl. eauto.
  - destruct fuel as [| fuel]; [lia |]. cbn [for_loop].
    assert (Hlt : lo < hi) by lia.
    rewrite (proj2 (Z.ltb_lt lo hi) Hlt).
    destruct (Hbody lo s ops ltac:(lia) HP) as (s1 & ops1 & Hrun & HP1).
    rewrite (bind_Some _ _ _ _ _ Hrun).
    replace (Z.succ lo) with (lo + 1) by lia.
    apply IH; try lia; [exact HP1 |].
    intros i s2 ops2 Hi. apply Hbody. lia.
Qed.

(** The loop [for (step = 1; step < 2^k; step = step * 2)]. *)
Lemma for_loop_doubling {S : Type} (P : nat -> S -> Prop) (k : nat)
    (body : Z -> S -> Builder S) (fuel : nat) (s : S) (ops : list Operation) :
  (k < fuel)%nat ->
  P 0%nat s ->
  (forall t s ops, (t < k)%nat -> P t s ->
     exists s' ops', body (2 ^ Z.of_nat t) s ops = Some (s', ops') /\ P (Datatypes.S t) s') ->
  exists s' ops',
    for_loop fuel 1 (fun step => step <? 2 ^ Z.of_nat k) (fun step => step * 2) body s ops
    = Some (s', ops')
    /\ P k s'.
Proof.
  intros Hfuel HP Hbody.
  change 1 with (2 ^ Z.of_nat 0).
  assert (H0 : (0 <= k)%nat) by lia.
  assert (Hfuel' : (k - 0 < fuel)%nat) by lia. clear Hfuel.
  revert H0 HP Hfuel'.
  generalize 0%nat as t. intros t. remember (k - t)%nat as n eqn:Hn.
  revert t s ops fuel Hn.
  induction n as [| n IH]; intros t s ops fuel Hn Htk HP Hfuel.
  - assert (t = k) as -> by lia.
    destruct fuel as [| fuel]; [lia |]. cbn [for_loop].
    rewrite Z.ltb_irrefl. eauto.
  - destruct fuel as [| fuel]; [lia |]. cbn [for_loop].
    assert (Hlt : 2 ^ Z.of_nat t < 2 ^ Z.of_nat k) by (apply Z.pow_lt_mono_r; lia).
    rewrite (proj2 (Z.ltb_lt _ _) Hlt).
    destruct (Hbody t s ops ltac:(lia) HP) as (s1 & ops1 & Hrun & HP1).
    rewrite (bind_Some _ _ _ _ _ Hrun).
    replace (2 ^ Z.of_nat t * 2) with (2 ^ Z.of_nat (Datatypes.S t))
      by (rewrite Nat2Z.inj_succ, Z.pow_succ_r; lia).
    apply IH; try lia. exact HP1.
Qed.

Lemma for_loop_strided_from {S : Type} (P : Z -> S -> Prop) (n stride : Z)
    (body : Z -> S -> Builder S) (m : nat) :
  0 < stride ->
  (forall i s ops, 0 <= i < n -> P i s ->
     exists s' ops', body (i * stride) s ops = Some (s', ops') /\ P (i + 1) s') ->
  forall (i : Z) (fuel : nat) (s : S) (ops : list Operation),
  m = Z.to_nat (n - i) -> 0 <= i <= n -> (m < fuel)%nat -> P i s ->
  exists s' ops',
    for_loop fuel (i * stride) (fun r => r <? n * stride) (fun r => r + stride) body s ops
    = Some (s', ops')
    /\ P n s'.
Proof.
  intros Hstride Hbody.
  induction m as [| m IH]; intros i fuel s ops Hm Hi Hfuel HP.
  - assert (i = n) as -> by lia.
    destruct fuel as [| fuel]; [lia |]. cbn [for_loop].
    rewrite Z.ltb_irrefl. eauto.
  - destruct fuel as [| fuel]; [lia |]. cbn [for_loop].
    assert (Hlt : i * stride < n * stride) by nia.
    rewrite (proj2 (Z.ltb_lt _ _) Hlt).
    destruct (Hbody i s ops ltac:(lia) HP) as (s1 & ops1 & Hrun & HP1).
    rewrite (bind_Some _ _ _ _ _ Hrun).
    replace (i * stride + stride) with ((i + 1) * stride) by lia.
    apply IH; try lia. exact HP1.
Qed.

(** The loop [for (r = 0; r < n * stride; r += stride)]. *)
Lemma for_loop_strided {S : Type} (P : Z -> S -> Prop) (n stride : Z)
    (body : Z -> S -> Builder S) (fuel : nat) (s : S) (ops : list Operation) :
  0 <= n -> 0 < stride ->
  (Z.to_nat n < fuel)%nat ->
  P 0 s ->
  (forall i s ops, 0 <= i < n -> P i s ->
     exists s' ops', body (i * stride) s ops = Some (s', ops') /\ P (i + 1) s') ->
  exists s' ops',
    for_loop fuel 0 (fun r => r <? n * stride) (fun r => r + stride) body s ops
    = Some (s', ops')
    /\ P n s'.
Proof.
  intros Hn Hstride Hfuel HP Hbody.
  change 0 with (0 * stride) at 1.
  apply (for_loop_strided_from P n stride body (Z.to_nat n) Hstride Hbody 0);
    [f_equal; lia | lia | exact Hfuel | exact HP].
Qed.

(** A counting loop that keeps an invariant of the state and of the
    operations created so far. *)
Lemma for_loop_invariant {S : Type} (P : Z -> S -> list Operation -> Prop)
    (lo hi : Z) (body : Z -> S -> Builder S) (fuel : nat) (s : S)
    (ops : list Operation) :
  lo <= hi ->
  (Z.to_nat (hi - lo) < fuel)%nat ->
  P lo s ops ->
  (forall i s ops, lo <= i < hi -> P i s ops ->
     exists s' ops', body i s ops = Some (s', ops') /\ P (i + 1) s' ops') ->
  exists s' ops',
    for_loop fuel lo (fun i => i <? hi) Z.succ body s ops = Some (s', ops')
    /\ P hi s' ops'.
Proof.
  intros Hle Hfuel HP Hbody.
  remember (Z.to_nat (hi - lo)) as n eqn:Hn.
  revert lo s ops fuel Hle Hfuel HP Hbody Hn.
  induction n as [| n IH]; intros lo s ops fuel Hle Hfuel HP Hbody Hn.
  - assert (lo = hi) as -> by lia.
    destruct fuel as [| fuel]; [lia |]. cbn [for_loop].
    rewrite Z.ltb_irrefl. eauto.
  - destruct fuel as [| fuel]; [lia |]. cbn [for_loop].
    assert (Hlt : lo < hi) by lia.
    rewrite (proj2 (Z.ltb_lt lo hi) Hlt).
    destruct (Hbody lo s ops ltac:(lia) HP) as (s1 & ops1 & Hrun & HP1).
    rewrite (bind_Some _ _ _ _ _ Hrun).
    replace (Z.succ lo) with (lo + 1) by lia.
    apply IH; try lia; [exact HP1 |].
    intros i s2 ops2 Hi. apply Hbody. lia.
Qed.

(** The doubling and the strided loop, with an invariant that also reads the
    operations created so far. *)
Lemma for_loop_doubling_ops {S : Type} (P : nat -> S -> list Operation -> Prop)
    (k : nat) (body : Z -> S -> Builder S) (fuel : nat) (s : S)
    (ops : list Operation) :
  (k < fuel)%nat ->
  P 0%nat s ops ->
  (forall t s ops, (t < k)%nat -> P t s ops ->
     exists s' ops',
       body (2 ^ Z.of_nat t) s ops = Some (s', ops') /\ P (Datatypes.S t) s' ops') ->
  exists s' ops',
    for_loop fuel 1 (fun step => step <? 2 ^ Z.of_nat k) (fun step => step * 2) body s ops
    = Some (s', ops')
    /\ P k s' ops'.
Proof.
  intros Hfuel HP Hbody.
  change 1 with (2 ^ Z.of_nat 0).
  assert (H0 : (0 <= k)%nat) by lia.
  assert (Hfuel' : (k - 0 < fuel)%nat) by lia. clear Hfuel.
  revert H0 HP Hfuel'.
  generalize 0%nat as t. intros t. remember (k - t)%nat as n eqn:Hn.
  revert t s ops fuel Hn.
  induction n as [| n IH]; intros t s ops fuel Hn Htk HP Hfuel.
  - assert (t = k) as -> by lia.
    destruct fuel as [| fuel]; [lia |]. cbn [for_loop].
    rewrite Z.ltb_irrefl. eauto.
  - destruct fuel as [| fuel]; [lia |]. cbn [for_loop].
    assert (Hlt : 2 ^ Z.of_nat t < 2 ^ Z.of_nat k) by (apply Z.pow_lt_mono_r; lia).
    rewrite (proj2 (Z.ltb_lt _ _) Hlt).
    destruct (Hbody t s ops ltac:(lia) HP) as (s1 & ops1 & Hrun & HP1).
    rewrite (bind_Some _ _ _ _ _ Hrun).
    replace (2 ^ Z.of_nat t * 2) with (2 ^ Z.of_nat (Datatypes.S t))
      by (rewrite Nat2Z.inj_succ, Z.pow_succ_r; lia).
    apply IH; try lia. exact HP1.
Qed.

Lemma for_loop_strided_ops {S : Type} (P : Z -> S -> list Operation -> Prop)
    (n stride hi : Z) (body : Z -> S -> Builder S) (fuel : nat) (s : S)
    (ops : list Operation) :
  hi = n * stride ->
  0 <= n -> 0 < stride ->
  (Z.to_nat n < fuel)%nat ->
  P 0 s ops ->
  (forall i s ops, 0 <= i < n -> P i s ops ->
     exists s' ops', body (i * stride) s ops = Some (s', ops') /\ P (i + 1) s' ops') ->
  exists s' ops',
    for_loop fuel 0 (fun r => r <? hi) (fun r => r + stride) body s ops
    = Some (s', ops')
    /\ P n s' ops'.
Proof.
  intros -> Hn Hstride Hfuel HP Hbody.
  assert (Hfrom : forall (m : nat) (i : Z) (fuel : nat) (s : S) (ops : list Operation),
            m = Z.to_nat (n - i) -> 0 <= i <= n -> (m < fuel)%nat -> P i s ops ->
            exists s' ops',
              for_loop fuel (i * stride) (fun r => r <? n * stride)
                (fun r => r + stride) body s ops
              = Some (s', ops')
              /\ P n s' ops').
  { clear fuel s ops Hfuel HP.
    induction m as [| m IH]; intros i fuel s ops Hm Hi Hfuel HP.
    - assert (i = n) as -> by lia.
      destruct fuel as [| fuel]; [lia |]. cbn [for_loop].
      rewrite Z.ltb_irrefl. eauto.
    - destruct fuel as [| fuel]; [lia |]. cbn [for_loop].
      assert (Hlt : i * stride < n * stride) by nia.
      rewrite (proj2 (Z.ltb_lt _ _) Hlt).
      destruct (Hbody i s ops ltac:(lia) HP) as (s1 & ops1 & Hrun & HP1).
      rewrite (bind_Some _ _ _ _ _ Hrun).
      replace (i * stride + stride) with ((i + 1) * stride) by lia.
      apply IH; try lia. exact HP1. }
  change 0 with (0 * stride) at 1.
  apply (Hfrom (Z.to_nat n) 0); [f_equal; lia | lia | exact Hfuel | exact HP].
Qed.

(** A loop whose body creates no operation creates none. *)
Lemma for_loop_keeps_ops {S : Type} (cond : Z -> bool) (next : Z -> Z)
    (body : Z -> S -> Builder S) :
  (forall i s ops r, body i s ops = Some r -> snd r = ops) ->
  forall (fuel : nat) (i : Z) (s : S) (ops : list Operation) r,
  for_loop fuel i cond next body s ops = Some r -> snd r = ops.
Proof.
  intros Hbody. induction fuel as [| fuel IH]; intros i s ops r; cbn [for_loop].
  - discriminate.
  - destruct (cond i).
    + unfold bind. destruct (body i s ops) as [[s1 ops1] |] eqn:Hrun; [| discriminate].
      intros Hrest. apply IH in Hrest. apply Hbody in Hrun. cbn [snd] in Hrun.
      congruence.
    + intros [= <-]. reflexivity.
Qed.

(** ** The merge masks *)

Lemma seqZ_snoc (n : Z) : 0 <= n -> seqZ 0 (n + 1) = seqZ 0 n ++ [n].
Proof.
  intros Hn. rewrite seqZ_app by lia. f_equal.
Qed.

(** Writing [g 0], ..., [g (n - 1)] at [i++] from the end of [pre] on. *)
Lemma write_loop_run (g : Z -> Z) (n : Z) (pre rest : list Z) (ops : list Operation) :
  0 <= n -> (Z.to_nat n <= length rest)%nat ->
  exists ops',
    for_loop (Datatypes.S (Z.to_nat n)) 0 (fun e => e <? n) Z.succ
      (fun e '(mask, i) => ret (<[Z.to_nat i := g e]> mask, i + 1))
      (pre ++ rest, Z.of_nat (length pre)) ops
    = Some ((pre ++ (g <$> seqZ 0 n) ++ drop (Z.to_nat n) rest,
             Z.of_nat (length pre) + n), ops').
Proof.
  intros Hn Hlen.
  destruct (for_loop_counting
    (fun e (st : list Z * Z) =>
       st = (pre ++ (g <$> seqZ 0 e) ++ drop (Z.to_nat e) rest, Z.of_nat (length pre) + e))
    0 n
    (fun e '(mask, i) => ret (<[Z.to_nat i := g e]> mask, i + 1))
    (Datatypes.S (Z.to_nat n)) (pre ++ rest, Z.of_nat (length pre)) ops)
    as (st & ops' & Hrun & Hst).
  - exact Hn.
  - lia.
  - rewrite seqZ_nil by lia. cbn. f_equal. lia.
  - intros e st ops0 He ->. eexists _, ops0. split; [reflexivity |].
    f_equal; [| lia].
    rewrite seqZ_snoc, fmap_app by lia. cbn [fmap list_fmap].
    rewrite app_assoc.
    rewrite insert_app_r_alt
      by (rewrite length_app, length_fmap, length_seqZ; lia).
    rewrite length_app, length_fmap, length_seqZ.
    replace (Z.to_nat (Z.of_nat (length pre) + e) - (length pre + Z.to_nat e))%nat
      with 0%nat by lia.
    destruct (drop (Z.to_nat e) rest) as [| x tl] eqn:Hdrop.
    + apply (f_equal length) in Hdrop. rewrite length_drop in Hdrop. cbn in Hdrop. lia.
    + cbn [insert list_insert]. rewrite <- !app_assoc. cbn [app]. do 3 f_equal.
      replace (Z.to_nat (e + 1)) with (Datatypes.S (Z.to_nat e)) by lia.
      change (Datatypes.S (Z.to_nat e)) with (1 + Z.to_nat e)%nat.
      rewrite Nat.add_comm, <- drop_drop, Hdrop. reflexivity.
  - subst st. eauto.
Qed.

Lemma write_loop_run' (g : Z -> Z) (n i : Z) (mask pre rest : list Z)
    (ops : list Operation) :
  0 <= n -> (Z.to_nat n <= length rest)%nat ->
  mask = pre ++ rest -> i = Z.of_nat (length pre) ->
  exists ops',
    for_loop (Datatypes.S (Z.to_nat n)) 0 (fun e => e <? n) Z.succ
      (fun e '(mask, i) => ret (<[Z.to_nat i := g e]> mask, i + 1))
      (mask, i) ops
    = Some ((pre ++ (g <$> seqZ 0 n) ++ drop (Z.to_nat n) rest, i + n), ops').
Proof. intros Hn Hlen -> ->. apply write_loop_run; assumption. Qed.

Lemma length_maskChunk (VL step half p : Z) :
  length (maskChunk VL step half p) = Z.to_nat (2 * step).
Proof.
  unfold maskChunk. rewrite length_app, !length_fmap, !length_seqZ. lia.
Qed.

Lemma length_concat_maskChunks (VL step half n : Z) :
  0 <= n -> 0 <= step ->
  length (concat (maskChunk VL step half <$> seqZ 0 n)) = Z.to_nat (n * (2 * step)).
Proof.
  intros Hn Hs. rewrite <- (Z2Nat.id n Hn). generalize (Z.to_nat n) as m. clear n Hn.
  induction m as [| m IH].
  - reflexivity.
  - rewrite seqZ_S, fmap_app, concat_app, length_app, IH. cbn [fmap list_fmap concat].
    rewrite app_nil_r, length_maskChunk. lia.
Qed.

Lemma mergeMask_run `{VectorMachineSupport} (VL step half : Z) (ops : list Operation) :
  0 <= VL -> 0 < step ->
  exists ops',
    VectorBuilder.mergeMask VL step half ops = Some (mergeMaskOf VL step half, ops').
Proof.
  intros HVL Hstep. unfold VectorBuilder.mergeMask.
  set (pairs := VL / (2 * step)).
  assert (Hpairs : 0 <= pairs) by (apply Z.div_pos; lia).
  assert (Hfit : pairs * (2 * step) <= VL)
    by (rewrite Z.mul_comm; apply Z.mul_div_le; lia).
  set (body := fun (p : Z) (st : list Z * Z) =>
         st <- for_loop (Datatypes.S (Z.to_nat step)) 0 (fun e => e <? step) Z.succ
                 (fun e '(mask, i) =>
                    ret (<[Z.to_nat i := half + p * step + e]> mask, i + 1)) st ;;
         for_loop (Datatypes.S (Z.to_nat step)) 0 (fun e => e <? step) Z.succ
           (fun e '(mask, i) =>
              ret (<[Z.to_nat i := half + VL + p * step + e]> mask, i + 1)) st).
  destruct (for_loop_counting
    (fun p (st : list Z * Z) =>
       st = (concat (maskChunk VL step half <$> seqZ 0 p)
             ++ replicate (Z.to_nat (VL - p * (2 * step))) 0, p * (2 * step)))
    0 pairs body (Datatypes.S (Z.to_nat pairs))
    (replicate (Z.to_nat VL) 0, 0) ops) as (st & ops' & Hrun & Hst).
  - exact Hpairs.
  - lia.
  - rewrite seqZ_nil by lia. cbn [fmap list_fmap concat app].
    f_equal. f_equal. lia.
  - intros p st ops0 Hp ->.
    assert (Hroom : (p + 1) * (2 * step) <= VL) by nia.
    set (pre := concat (maskChunk VL step half <$> seqZ 0 p)).
    assert (Hpre : Z.of_nat (length pre) = p * (2 * step))
      by (unfold pre; rewrite length_concat_maskChunks by lia; lia).
    set (rest := replicate (Z.to_nat (VL - p * (2 * step))) 0).
    set (first := (fun e => half + p * step + e) <$> seqZ 0 step).
    set (second := (fun e => half + VL + p * step + e) <$> seqZ 0 step).
    destruct (write_loop_run' (fun e => half + p * step + e) step (p * (2 * step))
                (pre ++ rest) pre rest ops0)
      as (ops1 & Hrun1);
      [lia | unfold rest; rewrite length_replicate; nia | reflexivity | lia |].
    destruct (write_loop_run' (fun e => half + VL + p * step + e) step
                (p * (2 * step) + step)
                (pre ++ first ++ drop (Z.to_nat step) rest) (pre ++ first)
                (drop (Z.to_nat step) rest) ops1)
      as (ops2 & Hrun2);
      [lia
      | unfold rest; rewrite length_drop, length_replicate; nia
      | rewrite app_assoc; reflexivity
      | unfold first; rewrite length_app, length_fmap, length_seqZ; lia |].
    exists ((pre ++ first) ++ second ++ drop (Z.to_nat step) (drop (Z.to_nat step) rest),
            p * (2 * step) + step + step), ops2.
    split.
    + unfold body. rewrite (bind_Some _ _ _ _ _ Hrun1). exact Hrun2.
    + f_equal; [| lia].
      rewrite seqZ_snoc, fmap_app, concat_app by lia.
      cbn [fmap list_fmap concat]. rewrite app_nil_r. fold pre.
      unfold maskChunk. fold first. fold second.
      rewrite <- (app_assoc pre first), <- (app_assoc pre (first ++ second)).
      rewrite <- (app_assoc first second).
      apply (f_equal (app pre)), (f_equal (app first)), (f_equal (app second)).
      unfold rest. rewrite !drop_replicate.
      apply (f_equal (fun n => replicate n 0)). lia.
  - fold body. rewrite (bind_Some _ _ _ _ _ Hrun). subst st.
    eexists. reflexivity.
Qed.

(** ** One butterfly step: two shuffles and an addition *)

Lemma lookup_concat_uniform {A : Type} (chunks : list (list A)) (L q j : nat)
    (c : list A) :
  Forall (fun c => length c = L) chunks ->
  chunks !! q = Some c -> (j < L)%nat ->
  concat chunks !! (q * L + j)%nat = c !! j.
Proof.
  intros Hall. revert q. induction Hall as [| c0 chunks Hc0 Hall IH]; intros q Hq Hj.
  - discriminate Hq.
  - destruct q as [| q]; cbn [concat].
    + injection Hq as ->. cbn. apply lookup_app_l. lia.
    + cbn in Hq. rewrite lookup_app_r by (rewrite Hc0; lia).
      rewrite Hc0. replace (Datatypes.S q * L + j - L)%nat with (q * L + j)%nat by lia.
      apply IH; assumption.
Qed.

Lemma mergeMaskOf_lookup (VL step half pairs q h e : Z) :
  0 < step -> VL = pairs * (2 * step) ->
  0 <= q < pairs -> 0 <= h < 2 -> 0 <= e < step ->
  mergeMaskOf VL step half !! Z.to_nat (q * (2 * step) + h * step + e)
  = Some (half + h * VL + q * step + e).
Proof.
  intros Hstep HVL Hq Hh He. unfold mergeMaskOf.
  assert (Hpairs : VL / (2 * step) = pairs) by (subst VL; apply Z.div_mul; lia).
  rewrite Hpairs.
  rewrite lookup_app_l by (rewrite length_concat_maskChunks by lia; nia).
  replace (Z.to_nat (q * (2 * step) + h * step + e))
    with (Z.to_nat q * Z.to_nat (2 * step) + Z.to_nat (h * step + e))%nat by nia.
  rewrite (lookup_concat_uniform _ _ _ _ (maskChunk VL step half q)).
  - unfold maskChunk. assert (h = 0 \/ h = 1) as [-> | ->] by lia.
    + rewrite lookup_app_l by (rewrite length_fmap, length_seqZ; lia).
      rewrite list_lookup_fmap, lookup_seqZ_lt by lia. cbn. f_equal. lia.
    + rewrite lookup_app_r by (rewrite length_fmap, length_seqZ; lia).
      rewrite length_fmap, length_seqZ.
      rewrite list_lookup_fmap, lookup_seqZ_lt by lia. cbn. f_equal. lia.
  - apply Forall_fmap, Forall_forall. intros p _. apply length_maskChunk.
  - rewrite list_lookup_fmap, lookup_seqZ_lt by lia.
    cbn [fmap option_fmap option_map]. do 2 f_equal. lia.
  - nia.
Qed.

Lemma length_mergeMaskOf (VL step half : Z) :
  0 <= VL -> 0 < step -> length (mergeMaskOf VL step half) = Z.to_nat VL.
Proof.
  intros HVL Hstep. unfold mergeMaskOf.
  assert (0 <= VL / (2 * step)) by (apply Z.div_pos; lia).
  assert (VL / (2 * step) * (2 * step) <= VL)
    by (rewrite Z.mul_comm; apply Z.mul_div_le; lia).
  rewrite length_app, length_replicate, length_concat_maskChunks by lia. lia.
Qed.

Lemma lane_lookup (v : list Z) (i : Z) (x : Z) :
  v !! Z.to_nat i = Some x -> lane v i = x.
Proof. unfold lane. intros ->. reflexivity. Qed.

Lemma lane_app_l (v w : list Z) (i : Z) :
  0 <= i < Z.of_nat (length v) -> lane (v ++ w) i = lane v i.
Proof. intros Hi. unfold lane. rewrite lookup_app_l by lia. reflexivity. Qed.

Lemma lane_app_r (v w : list Z) (i : Z) :
  0 <= i -> lane (v ++ w) (Z.of_nat (length v) + i) = lane w i.
Proof.
  intros Hi. unfold lane. rewrite lookup_app_r by lia.
  do 2 f_equal. lia.
Qed.

Lemma lane_fmap (f : Z -> Z) (v : list Z) (i : Z) :
  0 <= i < Z.of_nat (length v) -> lane (f <$> v) i = f (lane v i).
Proof.
  intros Hi. unfold lane. rewrite list_lookup_fmap.
  destruct (lookup_lt_is_Some_2 v (Z.to_nat i) ltac:(lia)) as [x ->]. reflexivity.
Qed.

Lemma lane_zip_with (f : Z -> Z -> Z) (v w : list Z) (i : Z) :
  0 <= i < Z.of_nat (length v) -> length v = length w ->
  lane (zip_with f v w) i = f (lane v i) (lane w i).
Proof.
  intros Hi Hlen. unfold lane. rewrite lookup_zip_with.
  destruct (lookup_lt_is_Some_2 v (Z.to_nat i) ltac:(lia)) as [x ->].
  destruct (lookup_lt_is_Some_2 w (Z.to_nat i) ltac:(lia)) as [y ->]. reflexivity.
Qed.

Section ButterflyStep.
Context `{FloatSemantics} `{VectorMachineSupport}.

(** [add] on operands of one type whose elements are integers, indices or
    floats: the result has the operands' type and adds lane by lane. *)
Lemma add_run (env : nat -> list Z) (lhs rhs : Value) (ops : list Operation) :
  getType lhs = getType rhs ->
  isa_IntegerType (elementTypeWithVector (getType lhs))
  || isa_IndexType (elementTypeWithVector (getType lhs))
  || isa_FloatType (elementTypeWithVector (getType lhs)) = true ->
  exists red ops',
    MathBuilder.add lhs rhs ops = Some (red, ops')
    /\ getType red = getType lhs
    /\ eval env red
       = zip_with (addLane (elementTypeWithVector (getType lhs)))
           (eval env lhs) (eval env rhs).
Proof.
  intros Hty He.
  destruct (elementTypeWithVector (getType lhs)) as [w s | k | | |] eqn:Hel;
    try discriminate He.
  - destruct s.
    + exists (BinaryOp AddIOp (getType lhs) lhs rhs). eexists. split; [| split].
      * unfold MathBuilder.add.
        rewrite assert_true by (apply bool_decide_eq_true; exact Hty).
        unfold isIntegerWithVector. rewrite Hel. reflexivity.
      * reflexivity.
      * cbn [eval]. rewrite Hel. reflexivity.
    + exists (BinaryOp AddIOp (getType lhs) lhs rhs). eexists. split; [| split].
      * unfold MathBuilder.add.
        rewrite assert_true by (apply bool_decide_eq_true; exact Hty).
        unfold isIntegerWithVector. rewrite Hel. reflexivity.
      * reflexivity.
      * cbn [eval]. rewrite Hel. reflexivity.
    + exists (unsignedEmulation AddUIExtendedOp_Sum lhs rhs w). eexists.
      split; [| split].
      * apply add_unsigned_run; assumption.
      * apply unsignedEmulation_type. exact Hel.
      * rewrite eval_unsignedEmulation. reflexivity.
  - exists (BinaryOp AddFOp (getType lhs) lhs rhs). eexists. split; [| split].
    + unfold MathBuilder.add.
      rewrite assert_true by (apply bool_decide_eq_true; exact Hty).
      unfold isIntegerWithVector, isFloatWithVector. rewrite Hel. reflexivity.
    + reflexivity.
    + cbn [eval]. rewrite Hel. reflexivity.
  - exists (BinaryOp AddIOp (getType lhs) lhs rhs). eexists. split; [| split].
    + unfold MathBuilder.add.
      rewrite assert_true by (apply bool_decide_eq_true; exact Hty).
      unfold isIntegerWithVector. rewrite Hel. reflexivity.
    + reflexivity.
    + cbn [eval]. rewrite Hel. reflexivity.
Qed.

Lemma getLengthOf1DVector_run (vec : Value) (VL : Z) (e : Ty) (ops : list Operation) :
  getType vec = VectorType [VL] e ->
  VectorBuilder.getLengthOf1DVector vec ops = Some (VL, ops).
Proof.
  intros Hty. unfold VectorBuilder.getLengthOf1DVector. rewrite Hty. reflexivity.
Qed.

Lemma isPowerOf2_pow2 (k : Z) : 0 <= k < 64 -> VectorBuilder.isPowerOf2 (2 ^ k) = true.
Proof.
  intros Hk. unfold VectorBuilder.isPowerOf2.
  assert (2 ^ k <= 2 ^ 63) by (apply Z.pow_le_mono_r; lia).
  assert (0 < 2 ^ k) by (apply Z.pow_pos_nonneg; lia).
  rewrite Z.mod_small by lia.
  replace (2 ^ k - 1) with (Z.ones k) by (rewrite Z.ones_equiv; lia).
  rewrite Z.land_ones, Z.mod_same by lia. reflexivity.
Qed.

(** The shuffle [mergeHigh] and [mergeLow] create, for the offset [half]. *)
Lemma merge_run (lhs rhs : Value) (VL step : Z) (e : Ty) (ops : list Operation) :
  getType lhs = VectorType [VL] e -> getType rhs = VectorType [VL] e ->
  VectorBuilder.isPowerOf2 VL = true -> 0 <= VL -> 0 < step ->
  (exists ops',
     VectorBuilder.mergeHigh lhs rhs step ops
     = Some (ShuffleOp (VectorType [VL] e) lhs rhs (mergeMaskOf VL step 0), ops'))
  /\ (exists ops',
        VectorBuilder.mergeLow lhs rhs step ops
        = Some (ShuffleOp (VectorType [VL] e) lhs rhs (mergeMaskOf VL step (VL / 2)), ops')).
Proof.
  intros Hl Hr Hpow HVL Hstep.
  unfold VectorBuilder.mergeHigh, VectorBuilder.mergeLow.
  rewrite !(bind_Some _ _ _ _ _ (getLengthOf1DVector_run lhs VL e ops Hl)).
  rewrite !(bind_Some _ _ _ _ _ (getLengthOf1DVector_run rhs VL e ops Hr)).
  split.
  - rewrite assert_true by (apply Z.eqb_refl).
    rewrite assert_true by exact Hpow.
    destruct (mergeMask_run VL step 0 ops HVL Hstep) as (ops1 & Hm).
    rewrite (bind_Some _ _ _ _ _ Hm). unfold VectorBuilder.shuffle, create.
    rewrite Hl, length_mergeMaskOf, Z2Nat.id by lia. eexists. reflexivity.
  - rewrite assert_true by (apply Z.eqb_refl).
    rewrite assert_true by exact Hpow.
    destruct (mergeMask_run VL step (VL / 2) ops HVL Hstep) as (ops1 & Hm).
    rewrite (bind_Some _ _ _ _ _ Hm). unfold VectorBuilder.shuffle, create.
    rewrite Hl, length_mergeMaskOf, Z2Nat.id by lia. eexists. reflexivity.
Qed.

Lemma lane_shuffle (env : nat -> list Z) (t : Ty) (lhs rhs : Value)
    (VL step half pairs q h e : Z) :
  length (eval env lhs) = Z.to_nat VL ->
  0 < step -> VL = pairs * (2 * step) ->
  0 <= q < pairs -> 0 <= h < 2 -> 0 <= e < step ->
  0 <= half -> half + pairs * step <= VL ->
  lane (eval env (ShuffleOp t lhs rhs (mergeMaskOf VL step half)))
    (q * (2 * step) + h * step + e)
  = lane (eval env (if h =? 0 then lhs else rhs)) (half + q * step + e).
Proof.
  intros Hlen Hstep HVL Hq Hh He Hhalf Hfit. cbn [eval].
  apply lane_lookup. rewrite list_lookup_fmap.
  rewrite (mergeMaskOf_lookup VL step half pairs q h e) by assumption.
  cbn [fmap option_fmap option_map]. f_equal.
  assert (h = 0 \/ h = 1) as [-> | ->] by lia; cbn [Z.eqb].
  - fold (lane (eval env lhs ++ eval env rhs) (half + 0 * VL + q * step + e)).
    rewrite lane_app_l by nia. f_equal. lia.
  - fold (lane (eval env lhs ++ eval env rhs) (half + 1 * VL + q * step + e)).
    replace (half + 1 * VL + q * step + e)
      with (Z.of_nat (length (eval env lhs)) + (half + q * step + e)) by lia.
    apply lane_app_r. nia.
Qed.

End ButterflyStep.

(** ** Folding a vector in half *)

Lemma length_foldHalf (f : Z -> Z -> Z) (v : list Z) (h : nat) :
  length v = (2 * h)%nat -> length (foldHalf f v) = h.
Proof.
  intros Hlen. unfold foldHalf. rewrite Hlen.
  replace (2 * h / 2)%nat with h by (apply Nat.div_unique_exact; lia).
  rewrite length_zip_with, length_take, length_drop. lia.
Qed.

Lemma lane_foldHalf (f : Z -> Z -> Z) (v : list Z) (h q : Z) :
  Z.of_nat (length v) = 2 * h -> 0 <= q < h ->
  lane (foldHalf f v) q = f (lane v q) (lane v (q + h)).
Proof.
  intros Hlen Hq. unfold foldHalf.
  replace (length v / 2)%nat with (Z.to_nat h)
    by (apply Nat.div_unique_exact; lia).
  rewrite lane_zip_with by (rewrite ?length_take, ?length_drop; lia).
  unfold lane. rewrite lookup_take_lt by lia. rewrite lookup_drop.
  do 3 f_equal. lia.
Qed.

Lemma length_iter_foldHalf (f : Z -> Z -> Z) (v : list Z) (k t : nat) :
  Z.of_nat (length v) = 2 ^ Z.of_nat k -> (t <= k)%nat ->
  Z.of_nat (length (Nat.iter t (foldHalf f) v)) = 2 ^ (Z.of_nat k - Z.of_nat t).
Proof.
  intros Hlen. induction t as [| t IH]; intros Ht.
  - cbn [Nat.iter]. rewrite Z.sub_0_r. exact Hlen.
  - change (Nat.iter (Datatypes.S t) (foldHalf f) v)
      with (foldHalf f (Nat.iter t (foldHalf f) v)).
    assert (Hprev := IH ltac:(lia)).
    assert (Hpow : 2 ^ (Z.of_nat k - Z.of_nat t)
                   = 2 * 2 ^ (Z.of_nat k - Z.of_nat (Datatypes.S t))).
    { rewrite <- Z.pow_succ_r by lia. f_equal. lia. }
    rewrite (length_foldHalf f _ (Z.to_nat (2 ^ (Z.of_nat k - Z.of_nat (Datatypes.S t))))).
    + rewrite Z2Nat.id; [reflexivity | apply Z.pow_nonneg; lia].
    + assert (0 <= 2 ^ (Z.of_nat k - Z.of_nat (Datatypes.S t)))
        by (apply Z.pow_nonneg; lia).
      lia.
Qed.

Lemma for_loop_strided_to {S : Type} (P : Z -> S -> Prop) (n stride hi : Z)
    (body : Z -> S -> Builder S) (fuel : nat) (s : S) (ops : list Operation) :
  hi = n * stride ->
  0 <= n -> 0 < stride ->
  (Z.to_nat n < fuel)%nat ->
  P 0 s ->
  (forall i s ops, 0 <= i < n -> P i s ->
     exists s' ops', body (i * stride) s ops = Some (s', ops') /\ P (i + 1) s') ->
  exists s' ops',
    for_loop fuel 0 (fun r => r <? hi) (fun r => r + stride) body s ops
    = Some (s', ops')
    /\ P n s'.
Proof. intros ->. apply for_loop_strided. Qed.

(** ** The reduction network *)

Lemma at_index_run {A : Type} (l : list A) (i : Z) (a : A) (ops : list Operation) :
  l !! Z.to_nat i = Some a -> at_index l i ops = Some (a, ops).
Proof. unfold at_index. intros ->. reflexivity. Qed.

Lemma pow2_split (k t : nat) :
  (t < k)%nat ->
  2 ^ Z.of_nat k
  = 2 ^ (Z.of_nat k - Z.of_nat (Datatypes.S t)) * (2 * 2 ^ Z.of_nat t)
  /\ 2 ^ (Z.of_nat k - Z.of_nat t) = 2 * 2 ^ (Z.of_nat k - Z.of_nat (Datatypes.S t))
  /\ 2 ^ Z.of_nat (Datatypes.S t) = 2 * 2 ^ Z.of_nat t
  /\ 0 < 2 ^ Z.of_nat t
  /\ 0 < 2 ^ (Z.of_nat k - Z.of_nat (Datatypes.S t)).
Proof.
  intros Ht.
  assert (H1 : 2 ^ Z.of_nat (Datatypes.S t) = 2 * 2 ^ Z.of_nat t)
    by (rewrite Nat2Z.inj_succ, Z.pow_succ_r; lia).
  assert (H2 : 2 ^ (Z.of_nat k - Z.of_nat t)
               = 2 * 2 ^ (Z.of_nat k - Z.of_nat (Datatypes.S t)))
    by (rewrite <- Z.pow_succ_r by lia; f_equal; lia).
  assert (H3 : 2 ^ Z.of_nat k = 2 ^ (Z.of_nat k - Z.of_nat t) * 2 ^ Z.of_nat t)
    by (rewrite <- Z.pow_add_r by lia; f_equal; lia).
  assert (0 < 2 ^ Z.of_nat t) by (apply Z.pow_pos_nonneg; lia).
  assert (0 < 2 ^ (Z.of_nat k - Z.of_nat (Datatypes.S t)))
    by (apply Z.pow_pos_nonneg; lia).
  repeat split; try assumption. rewrite H3, H2. ring.
Qed.

(** ** The butterfly sum and the plain sum *)

Lemma laneSum_app (v w : list Z) : laneSum (v ++ w) = laneSum v + laneSum w.
Proof.
  unfold laneSum. induction v as [| a v IH]; cbn [app foldr]; [reflexivity | lia].
Qed.

Lemma laneSum_zip_with_mod (f : Z -> Z -> Z) (M : Z) (v w : list Z) :
  (forall a b, f a b mod M = (a + b) mod M) ->
  length v = length w ->
  laneSum (zip_with f v w) mod M = (laneSum v + laneSum w) mod M.
Proof.
  intros Hf. revert w. induction v as [| a v IH]; intros [| b w] Hlen;
    try discriminate Hlen; [reflexivity |].
  cbn [zip_with]. unfold laneSum in *. cbn [foldr].
  rewrite <- Zplus_mod_idemp_l, Hf, Zplus_mod_idemp_l.
  rewrite <- Zplus_mod_idemp_r, (IH w) by (cbn in Hlen; lia).
  rewrite Zplus_mod_idemp_r. f_equal. lia.
Qed.

Lemma laneSum_foldHalf_mod (f : Z -> Z -> Z) (M : Z) (v : list Z) (h : nat) :
  (forall a b, f a b mod M = (a + b) mod M) ->
  length v = (2 * h)%nat ->
  laneSum (foldHalf f v) mod M = laneSum v mod M.
Proof.
  intros Hf Hlen. unfold foldHalf. rewrite Hlen.
  replace (2 * h / 2)%nat with h by (apply Nat.div_unique_exact; lia).
  rewrite (laneSum_zip_with_mod f M) by (try exact Hf; rewrite length_take, length_drop; lia).
  rewrite <- laneSum_app, take_drop. reflexivity.
Qed.

Lemma laneSum_iter_foldHalf_mod (f : Z -> Z -> Z) (M : Z) (v : list Z) (k t : nat) :
  (forall a b, f a b mod M = (a + b) mod M) ->
  Z.of_nat (length v) = 2 ^ Z.of_nat k -> (t <= k)%nat ->
  laneSum (Nat.iter t (foldHalf f) v) mod M = laneSum v mod M.
Proof.
  intros Hf Hlen. induction t as [| t IH]; intros Ht; [reflexivity |].
  change (Nat.iter (Datatypes.S t) (foldHalf f) v)
    with (foldHalf f (Nat.iter t (foldHalf f) v)).
  rewrite (laneSum_foldHalf_mod f M _
             (Z.to_nat (2 ^ (Z.of_nat k - Z.of_nat (Datatypes.S t))))).
  - apply IH. lia.
  - exact Hf.
  - assert (Hl := length_iter_foldHalf f v k t Hlen ltac:(lia)).
    destruct (pow2_split k t ltac:(lia)) as (_ & Hlive & _ & _ & Hpos). lia.
Qed.

Lemma halvingSum_laneSum_mod (f : Z -> Z -> Z) (M : Z) (v : list Z) (k : nat) :
  (forall a b, f a b mod M = (a + b) mod M) ->
  Z.of_nat (length v) = 2 ^ Z.of_nat k ->
  halvingSum f k v mod M = laneSum v mod M.
Proof.
  intros Hf Hlen. rewrite <- (laneSum_iter_foldHalf_mod f M v k k Hf Hlen) by lia.
  assert (Hl := length_iter_foldHalf f v k k Hlen ltac:(lia)).
  rewrite Z.sub_diag in Hl. change (2 ^ 0) with 1 in Hl.
  unfold halvingSum.
  destruct (Nat.iter k (foldHalf f) v) as [| x [| y tl]]; cbn [length] in Hl; try lia.
  replace (laneSum [x]) with x by (unfold laneSum; cbn [foldr]; lia).
  reflexivity.
Qed.

Lemma addLane_integer_mod `{FloatSemantics} (w : Z) (s : SignednessSemantics) (a b : Z) :
  0 < w ->
  addLane (IntegerType w s) a b mod 2 ^ w = (a + b) mod 2 ^ w.
Proof.
  intros Hw. assert (0 < 2 ^ w) by (apply Z.pow_pos_nonneg; lia).
  unfold addLane. destruct s; cbn [isUnsignedInteger isa_IntegerType orb getWidth];
    unfold binary_lane, unsigned_value; cbn [laneWidth getIntegerType].
  - apply Z.mod_mod. lia.
  - apply Z.mod_mod. lia.
  - rewrite land_ones_mod by lia. rewrite Z.mod_mod by lia.
    symmetry. apply Zplus_mod.
Qed.

(** ** The operations of the reduction network *)

Section NetworkSteps.
Context `{VectorMachineSupport}.

Lemma mergeMask_ops (VL step half : Z) (ops : list Operation) :
  0 <= VL -> 0 < step ->
  VectorBuilder.mergeMask VL step half ops = Some (mergeMaskOf VL step half, ops).
Proof.
  intros HVL Hstep.
  destruct (mergeMask_run VL step half ops HVL Hstep) as (ops' & Hrun).
  rewrite Hrun. f_equal. f_equal.
  unfold VectorBuilder.mergeMask, bind in Hrun.
  match type of Hrun with
  | match ?loop with _ => _ end = _ => destruct loop as [[st ops1] |] eqn:Hloop
  end; [| discriminate].
  injection Hrun as _ <-.
  apply for_loop_keeps_ops in Hloop; [exact Hloop |].
  intros p st0 ops0 r. unfold bind.
  match goal with
  | |- match ?loop with _ => _ end = _ -> _ => destruct loop as [[st1 ops2] |] eqn:Hfirst
  end; [| discriminate].
  intros Hsecond.
  apply for_loop_keeps_ops in Hfirst;
    [| intros e0 [mask i] ops3 r0 [= <-]; reflexivity].
  apply for_loop_keeps_ops in Hsecond;
    [| intros e0 [mask i] ops3 r0 [= <-]; reflexivity].
  cbn [snd] in Hfirst. congruence.
Qed.

Lemma merge_ops (lhs rhs : Value) (VL step : Z) (e : Ty) (ops : list Operation) :
  getType lhs = VectorType [VL] e -> getType rhs = VectorType [VL] e ->
  VectorBuilder.isPowerOf2 VL = true -> 0 <= VL -> 0 < step ->
  VectorBuilder.mergeHigh lhs rhs step ops
  = Some (mergedHigh VL e step (lhs, rhs),
          ops ++ [OpWithResult (mergedHigh VL e step (lhs, rhs))])
  /\ VectorBuilder.mergeLow lhs rhs step ops
     = Some (mergedLow VL e step (lhs, rhs),
             ops ++ [OpWithResult (mergedLow VL e step (lhs, rhs))]).
Proof.
  intros Hl Hr Hpow HVL Hstep.
  unfold VectorBuilder.mergeHigh, VectorBuilder.mergeLow, mergedHigh, mergedLow.
  cbn [fst snd].
  rewrite !(bind_Some _ _ _ _ _ (getLengthOf1DVector_run lhs VL e ops Hl)).
  rewrite !(bind_Some _ _ _ _ _ (getLengthOf1DVector_run rhs VL e ops Hr)).
  split.
  - rewrite assert_true by (apply Z.eqb_refl).
    rewrite assert_true by exact Hpow.
    rewrite (bind_Some _ _ _ _ _ (mergeMask_ops VL step 0 ops HVL Hstep)).
    unfold VectorBuilder.shuffle, create.
    rewrite Hl, length_mergeMaskOf, Z2Nat.id by lia. reflexivity.
  - rewrite assert_true by (apply Z.eqb_refl).
    rewrite assert_true by exact Hpow.
    rewrite (bind_Some _ _ _ _ _ (mergeMask_ops VL step (VL / 2) ops HVL Hstep)).
    unfold VectorBuilder.shuffle, create.
    rewrite Hl, length_mergeMaskOf, Z2Nat.id by lia. reflexivity.
Qed.

Lemma add_ops (lhs rhs : Value) (VL : Z) (e : Ty) (ops : list Operation) :
  getType lhs = VectorType [VL] e -> getType rhs = VectorType [VL] e ->
  isa_IntegerType e || isa_IndexType e || isa_FloatType e = true ->
  MathBuilder.add lhs rhs ops = Some (sumValue e lhs rhs, ops ++ sumOps e lhs rhs)
  /\ getType (sumValue e lhs rhs) = VectorType [VL] e.
Proof.
  intros Hl Hr He. unfold sumOps, sumValue.
  destruct e as [w s | f | | |]; try discriminate He.
  - destruct s; cbn [isUnsignedInteger isa_FloatType getWidth].
    + split; [| exact Hl]. unfold MathBuilder.add.
      rewrite assert_true by (apply bool_decide_eq_true; congruence).
      unfold isIntegerWithVector. rewrite Hl. reflexivity.
    + split; [| exact Hl]. unfold MathBuilder.add.
      rewrite assert_true by (apply bool_decide_eq_true; congruence).
      unfold isIntegerWithVector. rewrite Hl. reflexivity.
    + split.
      * apply add_unsigned_run; [congruence | rewrite Hl; reflexivity].
      * rewrite unsignedEmulation_type by (rewrite Hl; reflexivity). exact Hl.
  - cbn [isUnsignedInteger isa_FloatType]. split; [| exact Hl]. unfold MathBuilder.add.
    rewrite assert_true by (apply bool_decide_eq_true; congruence).
    unfold isIntegerWithVector, isFloatWithVector. rewrite Hl. reflexivity.
  - cbn [isUnsignedInteger isa_FloatType]. split; [| exact Hl]. unfold MathBuilder.add.
    rewrite assert_true by (apply bool_decide_eq_true; congruence).
    unfold isIntegerWithVector. rewrite Hl. reflexivity.
Qed.

End NetworkSteps.

Lemma pairsOf_lookup {A : Type} (l : list A) (m : nat) (a b : A) :
  l !! (2 * m)%nat = Some a -> l !! (2 * m + 1)%nat = Some b ->
  pairsOf l !! m = Some (a, b).
Proof.
  revert l. induction m as [| m IH]; intros [| x [| y rest]]; try discriminate.
  - cbn. congruence.
  - replace (2 * Datatypes.S m)%nat with (Datatypes.S (Datatypes.S (2 * m))) by lia.
    cbn [lookup list_lookup pairsOf Nat.add]. apply IH.
Qed.

Lemma length_pairsOf {A : Type} (l : list A) (n : nat) :
  length l = (2 * n)%nat -> length (pairsOf l) = n.
Proof.
  revert l. induction n as [| n IH]; intros [| x [| y rest]]; cbn [length pairsOf];
    try lia.
  intros Hlen. f_equal. apply IH. lia.
Qed.

Lemma pairSum_type (VL : Z) (e : Ty) (step : Z) (pair : Value * Value) :
  isa_IntegerType e || isa_IndexType e || isa_FloatType e = true ->
  getType (pairSum VL e step pair) = VectorType [VL] e.
Proof.
  intros He. unfold pairSum, sumValue.
  destruct e as [w [] | f | | |]; try discriminate He; reflexivity.
Qed.

Lemma liveAfter_typed (VL : Z) (e : Ty) (t : nat) (group : list Value) :
  isa_IntegerType e || isa_IndexType e || isa_FloatType e = true ->
  Forall (fun v => getType v = VectorType [VL] e) group ->
  Forall (fun v => getType v = VectorType [VL] e) (liveAfter VL e t group).
Proof.
  intros He Hgroup. destruct t as [| t]; [exact Hgroup |].
  cbn [liveAfter]. apply Forall_fmap, Forall_forall.
  intros pair _. apply pairSum_type. exact He.
Qed.

Lemma length_liveAfter (VL : Z) (e : Ty) (k t : nat) (group : list Value) :
  (t <= k)%nat -> length group = (2 ^ k)%nat ->
  length (liveAfter VL e t group) = (2 ^ (k - t))%nat.
Proof.
  intros Htk Hlen. induction t as [| t IH].
  - rewrite Nat.sub_0_r. exact Hlen.
  - cbn [liveAfter]. rewrite length_fmap. apply length_pairsOf.
    rewrite IH by lia. replace (k - t)%nat with (Datatypes.S (k - Datatypes.S t)) by lia.
    reflexivity.
Qed.

Lemma pow2_to_nat (k : nat) : Z.to_nat (2 ^ Z.of_nat k) = (2 ^ k)%nat.
Proof.
  change 2 with (Z.of_nat 2). rewrite <- Nat2Z.inj_pow. apply Nat2Z.id.
Qed.

Section NetworkRun.
Context `{VectorMachineSupport}.
Variables (inputs : list Value) (k : nat) (e : Ty).
Hypothesis Hk : (k < 63)%nat.
Hypothesis He : isa_IntegerType e || isa_IndexType e || isa_FloatType e = true.
Hypothesis Htyped :
  Forall (fun v => getType v = VectorType [2 ^ Z.of_nat k] e) inputs.

Lemma groupOf_facts (g : Z) :
  0 <= g -> (g + 1) * 2 ^ Z.of_nat k <= Z.of_nat (length inputs) ->
  length (groupOf (2 ^ Z.of_nat k) g inputs) = (2 ^ k)%nat
  /\ Forall (fun v => getType v = VectorType [2 ^ Z.of_nat k] e)
       (groupOf (2 ^ Z.of_nat k) g inputs)
  /\ (forall m, 0 <= m < 2 ^ Z.of_nat k ->
        groupOf (2 ^ Z.of_nat k) g inputs !! Z.to_nat m
        = inputs !! Z.to_nat (g * 2 ^ Z.of_nat k + m)).
Proof.
  intros Hg HgN. unfold groupOf.
  assert (HVL : 0 < 2 ^ Z.of_nat k) by (apply Z.pow_pos_nonneg; lia).
  split; [| split].
  - rewrite length_take, length_drop, <- pow2_to_nat. nia.
  - apply Forall_take, Forall_drop, Htyped.
  - intros m Hm. rewrite lookup_take, decide_True by lia.
    rewrite lookup_drop. f_equal. nia.
Qed.

(** One pair of one step. *)
Lemma pair_network_step (g : Z) (t : nat) (start : list Value)
    (ops0 : list Operation) (p : Z) (tmpArray : list Value) (ops : list Operation) :
  0 <= g -> (g + 1) * 2 ^ Z.of_nat k <= Z.of_nat (length inputs) -> (t < k)%nat ->
  (forall m, 0 <= m < 2 ^ (Z.of_nat k - Z.of_nat t) ->
     start !! Z.to_nat (g * 2 ^ Z.of_nat k + m)
     = liveAfter (2 ^ Z.of_nat k) e t (groupOf (2 ^ Z.of_nat k) g inputs) !! Z.to_nat m) ->
  0 <= p < 2 ^ (Z.of_nat k - Z.of_nat (Datatypes.S t)) ->
  pairsDone inputs k e g t start ops0 p tmpArray ops ->
  exists tmpArray' ops',
    (lhs <- at_index tmpArray (g * 2 ^ Z.of_nat k + 2 * p) ;;
     rhs <- at_index tmpArray (g * 2 ^ Z.of_nat k + 2 * p + 1) ;;
     highVal <- VectorBuilder.mergeHigh lhs rhs (2 ^ Z.of_nat t) ;;
     lowVal <- VectorBuilder.mergeLow lhs rhs (2 ^ Z.of_nat t) ;;
     red <- MathBuilder.add highVal lowVal ;;
     ret (<[Z.to_nat (g * 2 ^ Z.of_nat k + p) := red]> tmpArray)) ops
    = Some (tmpArray', ops')
    /\ pairsDone inputs k e g t start ops0 (p + 1) tmpArray' ops'.
Proof.
  unfold pairsDone. cbv zeta.
  intros Hg HgN Ht Hstart Hp (Hlen & Hrest & Hdone & Hops).
  destruct (pow2_split k t Ht) as (HVL & Hlive & Hstep2 & Hstep & Hpairs).
  destruct (groupOf_facts g Hg HgN) as (Hglen & Hgty & _).
  set (VL := 2 ^ Z.of_nat k) in *.
  set (group := groupOf VL g inputs) in *.
  set (live := liveAfter VL e t group) in *.
  assert (Hlivelen : Z.of_nat (length live) = 2 ^ (Z.of_nat k - Z.of_nat t)).
  { unfold live. rewrite (length_liveAfter VL e k t group) by (try lia; exact Hglen).
    rewrite Nat2Z.inj_pow, Nat2Z.inj_sub by lia. reflexivity. }
  assert (Hlivety : Forall (fun v => getType v = VectorType [VL] e) live)
    by (apply liveAfter_typed; assumption).
  destruct (lookup_lt_is_Some_2 live (2 * Z.to_nat p) ltac:(lia)) as [lhs Hlhs].
  destruct (lookup_lt_is_Some_2 live (2 * Z.to_nat p + 1) ltac:(lia)) as [rhs Hrhs].
  pose proof (Forall_lookup_1 _ _ _ _ Hlivety Hlhs) as Hlty.
  pose proof (Forall_lookup_1 _ _ _ _ Hlivety Hrhs) as Hrty.
  cbv beta in Hlty, Hrty.
  assert (Hl' : tmpArray !! Z.to_nat (g * VL + 2 * p) = Some lhs).
  { rewrite Hrest by lia. rewrite (Hstart (2 * p)) by lia.
    replace (Z.to_nat (2 * p)) with (2 * Z.to_nat p)%nat by lia. exact Hlhs. }
  assert (Hr' : tmpArray !! Z.to_nat (g * VL + 2 * p + 1) = Some rhs).
  { rewrite Hrest by lia.
    replace (g * VL + 2 * p + 1) with (g * VL + (2 * p + 1)) by lia.
    rewrite (Hstart (2 * p + 1)) by lia.
    replace (Z.to_nat (2 * p + 1)) with (2 * Z.to_nat p + 1)%nat by lia. exact Hrhs. }
  rewrite (bind_Some _ _ _ _ _ (at_index_run _ _ _ ops Hl')).
  rewrite (bind_Some _ _ _ _ _ (at_index_run _ _ _ ops Hr')).
  assert (Hpow : VectorBuilder.isPowerOf2 VL = true)
    by (apply isPowerOf2_pow2; lia).
  destruct (merge_ops lhs rhs VL (2 ^ Z.of_nat t) e ops Hlty Hrty Hpow ltac:(lia) Hstep)
    as [Hhigh _].
  rewrite (bind_Some _ _ _ _ _ Hhigh).
  destruct (merge_ops lhs rhs VL (2 ^ Z.of_nat t) e
              (ops ++ [OpWithResult (mergedHigh VL e (2 ^ Z.of_nat t) (lhs, rhs))])
              Hlty Hrty Hpow ltac:(lia) Hstep) as [_ Hlow].
  rewrite (bind_Some _ _ _ _ _ Hlow).
  destruct (add_ops (mergedHigh VL e (2 ^ Z.of_nat t) (lhs, rhs))
              (mergedLow VL e (2 ^ Z.of_nat t) (lhs, rhs)) VL e
              ((ops ++ [OpWithResult (mergedHigh VL e (2 ^ Z.of_nat t) (lhs, rhs))])
               ++ [OpWithResult (mergedLow VL e (2 ^ Z.of_nat t) (lhs, rhs))])
              eq_refl eq_refl He) as [Hadd _].
  rewrite (bind_Some _ _ _ _ _ Hadd).
  eexists _, _. split; [reflexivity |].
  assert (Hpair : pairsOf live !! Z.to_nat p = Some (lhs, rhs))
    by (apply pairsOf_lookup; assumption).
  assert (Hin : (Z.to_nat (g * VL + p) < length tmpArray)%nat) by nia.
  split; [| split; [| split]].
  - rewrite length_insert. exact Hlen.
  - intros idx Hidx. rewrite list_lookup_insert_ne by lia. apply Hrest. lia.
  - intros m Hm. destruct (decide (m = p)) as [-> | Hne].
    + rewrite list_lookup_insert_eq by exact Hin.
      change (liveAfter VL e (Datatypes.S t) group)
        with (pairSum VL e (2 ^ Z.of_nat t) <$> pairsOf live).
      rewrite list_lookup_fmap, Hpair. reflexivity.
    + rewrite list_lookup_insert_ne by lia. apply Hdone. lia.
  - rewrite Hops.
    replace (Z.to_nat (p + 1)) with (Datatypes.S (Z.to_nat p)) by lia.
    rewrite (take_S_r _ _ _ Hpair), fmap_app, concat_app.
    cbn [fmap list_fmap concat]. rewrite app_nil_r.
    unfold pairOps. rewrite <- !app_assoc. reflexivity.
Qed.

(** One step of the network on group [g]. *)
Lemma stage_network_step (g : Z) (ops0 : list Operation) (t : nat)
    (st : list Value * Z) (ops : list Operation) :
  0 <= g -> (g + 1) * 2 ^ Z.of_nat k <= Z.of_nat (length inputs) -> (t < k)%nat ->
  stepsDone inputs k e g ops0 t st ops ->
  exists st' ops',
    (let '(tmpArray, numPairs) := st in
     tmpArray <-
       for_loop (Datatypes.S (Z.to_nat numPairs)) 0 (fun p => p <? numPairs) Z.succ
         (fun p tmpArray =>
            lhs <- at_index tmpArray (g * 2 ^ Z.of_nat k + 2 * p) ;;
            rhs <- at_index tmpArray (g * 2 ^ Z.of_nat k + 2 * p + 1) ;;
            highVal <- VectorBuilder.mergeHigh lhs rhs (2 ^ Z.of_nat t) ;;
            lowVal <- VectorBuilder.mergeLow lhs rhs (2 ^ Z.of_nat t) ;;
            red <- MathBuilder.add highVal lowVal ;;
            ret (<[Z.to_nat (g * 2 ^ Z.of_nat k + p) := red]> tmpArray))
         tmpArray ;;
     ret (tmpArray, numPairs / 2)) ops
    = Some (st', ops')
    /\ stepsDone inputs k e g ops0 (Datatypes.S t) st' ops'.
Proof.
  intros Hg HgN Ht Hst. destruct st as [start numPairs].
  destruct Hst as (Hlen & Hlater & Hlive & Hnum & Hops). cbn [fst snd] in *.
  destruct (pow2_split k t Ht) as (HVL & Hlive2 & Hstep2 & Hstep & Hpairs).
  destruct (groupOf_facts g Hg HgN) as (Hglen & Hgty & _).
  assert (HnumPairs : numPairs = 2 ^ (Z.of_nat k - Z.of_nat (Datatypes.S t))).
  { rewrite Hnum, Hstep2, HVL. apply Z.div_mul. lia. }
  destruct (for_loop_invariant
    (fun p tmpArray ops' => pairsDone inputs k e g t start ops p tmpArray ops')
    0 numPairs
    (fun p tmpArray =>
       lhs <- at_index tmpArray (g * 2 ^ Z.of_nat k + 2 * p) ;;
       rhs <- at_index tmpArray (g * 2 ^ Z.of_nat k + 2 * p + 1) ;;
       highVal <- VectorBuilder.mergeHigh lhs rhs (2 ^ Z.of_nat t) ;;
       lowVal <- VectorBuilder.mergeLow lhs rhs (2 ^ Z.of_nat t) ;;
       red <- MathBuilder.add highVal lowVal ;;
       ret (<[Z.to_nat (g * 2 ^ Z.of_nat k + p) := red]> tmpArray))
    (Datatypes.S (Z.to_nat numPairs)) start ops)
    as (tmpArray' & ops' & Hrun & Hfinal).
  - lia.
  - lia.
  - split; [exact Hlen |]. split; [reflexivity |]. split; [intros m Hm; lia |].
    cbn [take fmap list_fmap concat]. rewrite app_nil_r. reflexivity.
  - intros p tmpArray ops1 Hp Hinv.
    apply (pair_network_step g t start ops p tmpArray ops1 Hg HgN Ht Hlive);
      [lia | exact Hinv].
  - rewrite (bind_Some _ _ _ _ _ Hrun). eexists _, ops'. split; [reflexivity |].
    destruct Hfinal as (Hlen' & Hrest' & Hdone' & Hops').
    unfold stepsDone. cbn [fst snd].
    split; [exact Hlen' |]. split; [| split; [| split]].
    + intros idx Hidx. rewrite Hrest' by nia. apply Hlater. exact Hidx.
    + intros m Hm. apply Hdone'. lia.
    + rewrite Hnum, Z.div_div by lia. f_equal.
      rewrite (Nat2Z.inj_succ (Datatypes.S t)), Z.pow_succ_r by lia. lia.
    + rewrite Hops', Hops. cbn [opsAfter]. rewrite <- app_assoc. f_equal. f_equal.
      f_equal. f_equal. apply take_ge.
      rewrite (length_pairsOf _ (2 ^ (k - Datatypes.S t))).
      * rewrite HnumPairs, <- Nat2Z.inj_sub, <- (Nat2Z.inj_pow 2) by lia. lia.
      * rewrite (length_liveAfter _ e k t) by (try lia; exact Hglen).
        replace (k - t)%nat with (Datatypes.S (k - Datatypes.S t)) by lia. reflexivity.
Qed.

(** One group: [k] steps, then the vector left at [g * VL] is emitted. *)
Lemma group_network_step (ops0 : list Operation) (g : Z)
    (st : list Value * list Value) (ops : list Operation) :
  0 <= g -> (g + 1) * 2 ^ Z.of_nat k <= Z.of_nat (length inputs) ->
  groupsDone inputs k e ops0 g st ops ->
  exists st' ops',
    (let '(tmpArray, outputVecArray) := st in
     let numPairs := 2 ^ Z.of_nat k / 2 in
     st <- for_loop (Datatypes.S (Z.to_nat (2 ^ Z.of_nat k))) 1
             (fun step => step <? 2 ^ Z.of_nat k) (fun step => step * 2)
             (fun step '(tmpArray, numPairs) =>
                tmpArray <-
                  for_loop (Datatypes.S (Z.to_nat numPairs)) 0
                    (fun p => p <? numPairs) Z.succ
                    (fun p tmpArray =>
                       lhs <- at_index tmpArray (g * 2 ^ Z.of_nat k + 2 * p) ;;
                       rhs <- at_index tmpArray (g * 2 ^ Z.of_nat k + 2 * p + 1) ;;
                       highVal <- VectorBuilder.mergeHigh lhs rhs step ;;
                       lowVal <- VectorBuilder.mergeLow lhs rhs step ;;
                       red <- MathBuilder.add highVal lowVal ;;
                       ret (<[Z.to_nat (g * 2 ^ Z.of_nat k + p) := red]> tmpArray))
                    tmpArray ;;
                ret (tmpArray, numPairs / 2))
             (tmpArray, numPairs) ;;
     out <- at_index (fst st) (g * 2 ^ Z.of_nat k) ;;
     ret (fst st, outputVecArray ++ [out])) ops
    = Some (st', ops')
    /\ groupsDone inputs k e ops0 (g + 1) st' ops'.
Proof.
  intros Hg HgN Hinv. destruct st as [tmpArray outputVecArray].
  destruct Hinv as (Hlen & Hrest & Hout & Hops). cbn [fst snd] in *.
  destruct (groupOf_facts g Hg HgN) as (Hglen & Hgty & Hglookup).
  set (VL := 2 ^ Z.of_nat k) in *.
  assert (HVLpos : 0 < VL) by (apply Z.pow_pos_nonneg; lia).
  assert (Hklt : (k < Datatypes.S (Z.to_nat VL))%nat).
  { assert (Z.of_nat k < VL) by (apply Z.pow_gt_lin_r; lia). lia. }
  cbv zeta.
  destruct (for_loop_doubling_ops
    (fun t (st : list Value * Z) ops' => stepsDone inputs k e g ops t st ops')
    k
    (fun step '(tmpArray, numPairs) =>
       tmpArray <-
         for_loop (Datatypes.S (Z.to_nat numPairs)) 0
           (fun p => p <? numPairs) Z.succ
           (fun p tmpArray =>
              lhs <- at_index tmpArray (g * VL + 2 * p) ;;
              rhs <- at_index tmpArray (g * VL + 2 * p + 1) ;;
              highVal <- VectorBuilder.mergeHigh lhs rhs step ;;
              lowVal <- VectorBuilder.mergeLow lhs rhs step ;;
              red <- MathBuilder.add highVal lowVal ;;
              ret (<[Z.to_nat (g * VL + p) := red]> tmpArray))
           tmpArray ;;
       ret (tmpArray, numPairs / 2))
    (Datatypes.S (Z.to_nat VL)) (tmpArray, VL / 2) ops Hklt)
    as (st1 & ops1 & Hrun & Hsteps).
  - unfold stepsDone. cbn [fst snd]. fold VL.
    split; [exact Hlen |]. split; [| split; [| split]].
    + intros idx Hidx. apply Hrest. lia.
    + intros m Hm. rewrite Z.sub_0_r in Hm. fold VL in Hm.
      cbn [liveAfter]. rewrite Hglookup by exact Hm. apply Hrest. lia.
    + reflexivity.
    + cbn [opsAfter]. rewrite app_nil_r. reflexivity.
  - intros t st0 ops2 Ht Hst0.
    apply (stage_network_step g ops t st0 ops2 Hg HgN Ht Hst0).
  - rewrite (bind_Some _ _ _ _ _ Hrun).
    destruct Hsteps as (Hlen1 & Hrest1 & Hlive1 & _ & Hops1). fold VL in Hlive1, Hops1.
    rewrite Z.sub_diag in Hlive1. change (2 ^ 0) with 1 in Hlive1.
    destruct (lookup_lt_is_Some_2 (liveAfter VL e k (groupOf VL g inputs)) 0) as [out Hhead].
    { rewrite (length_liveAfter VL e k k) by (try lia; exact Hglen).
      rewrite Nat.sub_diag. cbn. lia. }
    assert (Hout0 : st1.1 !! Z.to_nat (g * VL) = Some out).
    { specialize (Hlive1 0 ltac:(lia)). rewrite Z.add_0_r in Hlive1.
      rewrite Hlive1. exact Hhead. }
    rewrite (bind_Some _ _ _ _ _ (at_index_run _ _ _ ops1 Hout0)).
    eexists _, ops1. split; [reflexivity |].
    unfold groupsDone. cbn [fst snd]. fold VL.
    split; [exact Hlen1 |]. split; [| split].
    + intros idx Hidx. apply Hrest1. exact Hidx.
    + rewrite seqZ_snoc, omap_app, Hout by exact Hg. f_equal.
      cbn [omap list_omap]. rewrite head_lookup, Hhead. reflexivity.
    + rewrite Hops1, Hops, seqZ_snoc, fmap_app, concat_app by exact Hg.
      cbn [fmap list_fmap concat]. rewrite app_nil_r, <- app_assoc. reflexivity.
Qed.

(** The run of [multiReduction]: the outputs and the operations of the
    network, and no other operation. *)
Lemma multiReduction_network (ops : list Operation) :
  VectorBuilder.getMachineVectorLength e = 2 ^ Z.of_nat k ->
  inputs <> [] ->
  Z.of_nat (length inputs) mod 2 ^ Z.of_nat k = 0 ->
  VectorBuilder.multiReduction inputs ops
  = Some (reductionOutputs e k inputs, ops ++ reductionOps e k inputs).
Proof.
  intros Hmachine Hne Hmod.
  unfold reductionOutputs, reductionOps. cbv zeta.
  set (VL := 2 ^ Z.of_nat k) in *. set (N := Z.of_nat (length inputs)) in *.
  assert (HVLpos : 0 < VL) by (apply Z.pow_pos_nonneg; lia).
  assert (HNpos : 0 < N).
  { assert (length inputs <> 0%nat) by (intros Hz; apply Hne, nil_length_inv, Hz).
    unfold N. lia. }
  set (n := N / VL).
  assert (HN : N = n * VL).
  { unfold n. rewrite Z.mul_comm. apply Z.div_exact; lia. }
  assert (Hn : 0 <= n) by (apply Z.div_pos; lia).
  destruct (lookup_lt_is_Some_2 inputs (Z.to_nat 0) ltac:(unfold N in HNpos; lia))
    as [first Hfirst].
  pose proof (Forall_lookup_1 _ _ _ _ Htyped Hfirst) as Hfty. cbv beta in Hfty.
  unfold VectorBuilder.multiReduction. fold N.
  rewrite assert_true by (apply Z.ltb_lt; exact HNpos).
  rewrite (bind_Some _ _ _ _ _ (at_index_run _ _ _ ops Hfirst)).
  rewrite (bind_Some _ _ _ _ _ (getLengthOf1DVector_run first _ e ops Hfty)).
  rewrite bind_Some with (a := VL) (ops' := ops)
    by (unfold VectorBuilder.getMachineVectorLengthOfValue; rewrite Hfty;
        cbn [dyn_cast_VectorType getElementType]; unfold ret; rewrite Hmachine;
        reflexivity).
  rewrite assert_true by (apply Z.eqb_refl).
  rewrite assert_true by (apply Z.eqb_eq; exact Hmod).
  (* the copy of the inputs creates nothing *)
  destruct (for_loop_invariant
    (fun i (tmpArray : list Value) ops' =>
       tmpArray = take (Z.to_nat i) inputs /\ ops' = ops)
    0 N
    (fun i tmpArray =>
       input <- at_index inputs i ;;
       len <- VectorBuilder.getLengthOf1DVector input ;;
       assert (len =? VL) ;;;
       ret (tmpArray ++ [input]))
    (Datatypes.S (Z.to_nat N)) [] ops)
    as (tmpArray & ops1 & Hcopy & Htmp & ->).
  { lia. }
  { lia. }
  { split; reflexivity. }
  { intros i tmpArray ops0 Hi [-> ->].
    destruct (lookup_lt_is_Some_2 inputs (Z.to_nat i) ltac:(lia)) as [v Hv].
    pose proof (Forall_lookup_1 _ _ _ _ Htyped Hv) as Hvty. cbv beta in Hvty.
    rewrite (bind_Some _ _ _ _ _ (at_index_run _ _ _ ops Hv)).
    rewrite (bind_Some _ _ _ _ _ (getLengthOf1DVector_run v _ e ops Hvty)).
    rewrite assert_true by (apply Z.eqb_refl).
    eexists _, ops. split; [reflexivity |]. split; [| reflexivity].
    replace (Z.to_nat (i + 1)) with (Datatypes.S (Z.to_nat i)) by lia.
    symmetry. apply take_S_r. exact Hv. }
  assert (tmpArray = inputs) as -> by (rewrite Htmp; apply take_ge; lia).
  rewrite (bind_Some _ _ _ _ _ Hcopy).
  edestruct (for_loop_strided_ops
    (fun g (st : list Value * list Value) ops' => groupsDone inputs k e ops g st ops')
    n VL N) as (st & ops2 & Hrun & Hfinal); cycle 6.
  - rewrite (bind_Some _ _ _ _ _ Hrun).
    destruct Hfinal as (_ & _ & Hout & Hops). fold VL in Hout, Hops.
    unfold ret. rewrite Hout, Hops. reflexivity.
  - exact HN.
  - exact Hn.
  - exact HVLpos.
  - unfold N at 1. assert (n <= N) by nia. lia.
  - unfold groupsDone. cbn [fst snd].
    split; [reflexivity |]. split; [reflexivity |].
    rewrite seqZ_nil by lia. cbn [omap list_omap fmap list_fmap concat].
    rewrite app_nil_r. split; reflexivity.
  - intros g st ops0 Hg Hinv.
    apply (group_network_step ops g st ops0); [lia | fold VL N; nia | exact Hinv].
Qed.

End NetworkRun.

Section MultiReduction.
Context `{FloatSemantics} `{VectorMachineSupport}.
Variables (env : nat -> list Z) (inputs : list Value) (k : nat) (e : Ty).
Hypothesis Hk : (k < 63)%nat.
Hypothesis He : isa_IntegerType e || isa_IndexType e || isa_FloatType e = true.
Hypothesis Hinputs : Forall (vectorOf env (2 ^ Z.of_nat k) e) inputs.

Lemma length_inputLanes (idx : Z) :
  0 <= idx < Z.of_nat (length inputs) ->
  Z.of_nat (length (inputLanes env inputs idx)) = 2 ^ Z.of_nat k.
Proof.
  intros Hidx. unfold inputLanes.
  destruct (lookup_lt_is_Some_2 inputs (Z.to_nat idx) ltac:(lia)) as [v Hv].
  rewrite Hv. destruct (Forall_lookup_1 _ _ _ _ Hinputs Hv) as [_ Hlen].
  rewrite Hlen. apply Z2Nat.id. apply Z.pow_nonneg. lia.
Qed.

(** One pair of one step: the two merges and the addition, stored at
    [r + p]. *)
Lemma pair_step (r : Z) (t : nat) (start tmpArray : list Value) (p : Z)
    (ops : list Operation) :
  0 <= r -> r + 2 ^ Z.of_nat k <= Z.of_nat (length inputs) -> (t < k)%nat ->
  stageInvariant env inputs k e r t start ->
  0 <= p < 2 ^ (Z.of_nat k - Z.of_nat (Datatypes.S t)) ->
  pairInvariant env inputs k e r t start p tmpArray ->
  exists tmpArray' ops',
    (lhs <- at_index tmpArray (r + 2 * p) ;;
     rhs <- at_index tmpArray (r + 2 * p + 1) ;;
     highVal <- VectorBuilder.mergeHigh lhs rhs (2 ^ Z.of_nat t) ;;
     lowVal <- VectorBuilder.mergeLow lhs rhs (2 ^ Z.of_nat t) ;;
     red <- MathBuilder.add highVal lowVal ;;
     ret (<[Z.to_nat (r + p) := red]> tmpArray)) ops
    = Some (tmpArray', ops')
    /\ pairInvariant env inputs k e r t start (p + 1) tmpArray'.
Proof.
  intros Hr HrN Ht (Hslen & Hsty & Hsrest & Hslanes) Hp (Hlen & Hty & Hrest & Hdone).
  destruct (pow2_split k t Ht) as (HVL & Hlive & Hstep2 & Hstep & Hpairs).
  set (step := 2 ^ Z.of_nat t) in *.
  set (pairs := 2 ^ (Z.of_nat k - Z.of_nat (Datatypes.S t))) in *.
  set (VL := 2 ^ Z.of_nat k) in *.
  (* the two operands are live vectors of the current stage *)
  destruct (Hslanes (2 * p) 0 0 ltac:(lia) ltac:(lia) ltac:(lia)) as (lhs & Hlhs & _).
  destruct (Hslanes (2 * p + 1) 0 0 ltac:(lia) ltac:(lia) ltac:(lia)) as (rhs & Hrhs & _).
  destruct (Forall_lookup_1 _ _ _ _ Hsty Hlhs) as [Hlty Hllen].
  destruct (Forall_lookup_1 _ _ _ _ Hsty Hrhs) as [Hrty Hrlen].
  assert (Hl' : tmpArray !! Z.to_nat (r + 2 * p) = Some lhs)
    by (rewrite Hrest by lia; exact Hlhs).
  assert (Hr' : tmpArray !! Z.to_nat (r + 2 * p + 1) = Some rhs)
    by (rewrite Hrest by lia; replace (r + 2 * p + 1) with (r + (2 * p + 1)) by lia;
        exact Hrhs).
  rewrite (bind_Some _ _ _ _ _ (at_index_run _ _ _ ops Hl')).
  rewrite (bind_Some _ _ _ _ _ (at_index_run _ _ _ ops Hr')).
  assert (Hpow : VectorBuilder.isPowerOf2 VL = true)
    by (apply isPowerOf2_pow2; lia).
  destruct (merge_run lhs rhs VL step e ops Hlty Hrty Hpow ltac:(lia) Hstep)
    as [(ops1 & Hhigh) _].
  rewrite (bind_Some _ _ _ _ _ Hhigh).
  destruct (merge_run lhs rhs VL step e ops1 Hlty Hrty Hpow ltac:(lia) Hstep)
    as [_ (ops2 & Hlow)].
  rewrite (bind_Some _ _ _ _ _ Hlow).
  set (highVal := ShuffleOp (VectorType [VL] e) lhs rhs (mergeMaskOf VL step 0)) in *.
  set (lowVal := ShuffleOp (VectorType [VL] e) lhs rhs (mergeMaskOf VL step (VL / 2))) in *.
  destruct (add_run env highVal lowVal ops2 eq_refl He) as (red & ops3 & Hadd & Hredty & Hred).
  rewrite (bind_Some _ _ _ _ _ Hadd).
  eexists _, ops3. split; [reflexivity |].
  assert (Hhalf : VL / 2 = pairs * step)
    by (rewrite HVL; replace (pairs * (2 * step)) with (pairs * step * 2) by ring;
        apply Z.div_mul; lia).
  assert (Hhlen : length (eval env highVal) = Z.to_nat VL)
    by (cbn [eval highVal]; rewrite length_fmap; apply length_mergeMaskOf; lia).
  assert (Hllen' : length (eval env lowVal) = Z.to_nat VL)
    by (cbn [eval lowVal]; rewrite length_fmap; apply length_mergeMaskOf; lia).
  assert (Hredlen : length (eval env red) = Z.to_nat VL)
    by (rewrite Hred, length_zip_with; lia).
  assert (Hpairs_le : pairs <= VL) by nia.
  assert (Hidx : (Z.to_nat (r + p) < length tmpArray)%nat) by lia.
  split; [| split; [| split]].
  - rewrite length_insert. exact Hlen.
  - apply Forall_insert; [exact Hty |]. split; [exact Hredty | exact Hredlen].
  - intros idx Hidx'. rewrite list_lookup_insert_ne by lia. apply Hrest. lia.
  - intros m q c Hm Hq Hc.
    destruct (decide (m = p)) as [-> | Hne].
    + exists red. split; [apply list_lookup_insert_eq; exact Hidx |].
      (* split the lane index into its half and its offset *)
      set (h := c / step). set (e' := c mod step).
      assert (Hc' : c = h * step + e') by (unfold h, e'; rewrite Z.mul_comm; apply Z.div_mod; lia).
      assert (He' : 0 <= e' < step) by (apply Z.mod_pos_bound; lia).
      assert (Hh : 0 <= h < 2).
      { split; [apply Z.div_pos; lia |]. apply Z.div_lt_upper_bound; lia. }
      replace (q * 2 ^ Z.of_nat (Datatypes.S t) + c)
        with (q * (2 * step) + h * step + e') by lia.
      assert (Hix : 0 <= q * (2 * step) + h * step + e' < VL) by nia.
      rewrite Hred, lane_zip_with by lia.
      unfold highVal, lowVal.
      rewrite (lane_shuffle env _ lhs rhs VL step 0 pairs q h e')
        by (try assumption; lia).
      rewrite (lane_shuffle env _ lhs rhs VL step (VL / 2) pairs q h e')
        by (try assumption; lia).
      (* the operand the lanes come from *)
      destruct (Hslanes (2 * p + h) q e' ltac:(lia) ltac:(lia) ltac:(lia))
        as (x & Hx & Hxq).
      destruct (Hslanes (2 * p + h) (pairs + q) e' ltac:(lia) ltac:(lia) ltac:(lia))
        as (x' & Hx' & Hxq').
      assert (x' = x) as -> by congruence.
      assert (Hsel : (if h =? 0 then lhs else rhs) = x).
      { assert (h = 0 \/ h = 1) as [Hh0 | Hh1] by lia.
        - subst h. rewrite Hh0 in *. cbn [Z.eqb].
          replace (2 * p + 0) with (2 * p) in Hx by lia. congruence.
        - subst h. rewrite Hh1 in *. cbn [Z.eqb]. congruence. }
      rewrite Hsel.
      replace (0 + q * step + e') with (q * step + e') by lia.
      replace (VL / 2 + q * step + e') with ((pairs + q) * step + e') by lia.
      fold step in Hxq, Hxq'. rewrite Hxq, Hxq'.
      change (Nat.iter (Datatypes.S t) (foldHalf (addLane e)) ?v)
        with (foldHalf (addLane e) (Nat.iter t (foldHalf (addLane e)) v)).
      replace (r + p * 2 ^ Z.of_nat (Datatypes.S t) + c)
        with (r + (2 * p + h) * step + e') by lia.
      rewrite (lane_foldHalf _ _ pairs q); [f_equal; f_equal; lia | | lia].
      rewrite (length_iter_foldHalf _ _ k t); [fold pairs; lia | | lia].
      apply length_inputLanes. nia.
    + destruct (Hdone m q c ltac:(lia) Hq Hc) as (v & Hv & Hvq).
      exists v. split; [| exact Hvq].
      rewrite list_lookup_insert_ne by lia. exact Hv.
Qed.


(** One step of the network: every pair of live vectors is merged. *)
Lemma stage_step (r : Z) (t : nat) (st : list Value * Z) (ops : list Operation) :
  0 <= r -> r + 2 ^ Z.of_nat k <= Z.of_nat (length inputs) -> (t < k)%nat ->
  stageInvariant env inputs k e r t (fst st)
  /\ snd st = 2 ^ Z.of_nat k / 2 ^ Z.of_nat (Datatypes.S t) ->
  exists st' ops',
    (let '(tmpArray, numPairs) := st in
     tmpArray <-
       for_loop (Datatypes.S (Z.to_nat numPairs)) 0 (fun p => p <? numPairs) Z.succ
         (fun p tmpArray =>
            lhs <- at_index tmpArray (r + 2 * p) ;;
            rhs <- at_index tmpArray (r + 2 * p + 1) ;;
            highVal <- VectorBuilder.mergeHigh lhs rhs (2 ^ Z.of_nat t) ;;
            lowVal <- VectorBuilder.mergeLow lhs rhs (2 ^ Z.of_nat t) ;;
            red <- MathBuilder.add highVal lowVal ;;
            ret (<[Z.to_nat (r + p) := red]> tmpArray))
         tmpArray ;;
     ret (tmpArray, numPairs / 2)) ops
    = Some (st', ops')
    /\ (stageInvariant env inputs k e r (Datatypes.S t) (fst st')
        /\ snd st' = 2 ^ Z.of_nat k / 2 ^ Z.of_nat (Datatypes.S (Datatypes.S t))).
Proof.
  intros Hr HrN Ht [Hstage Hnum]. destruct st as [start numPairs].
  cbn [fst snd] in *.
  destruct (pow2_split k t Ht) as (HVL & Hlive & Hstep2 & Hstep & Hpairs).
  assert (HnumPairs : numPairs = 2 ^ (Z.of_nat k - Z.of_nat (Datatypes.S t))).
  { rewrite Hnum, Hstep2, HVL. apply Z.div_mul. lia. }
  destruct (for_loop_counting
    (fun p tmpArray => pairInvariant env inputs k e r t start p tmpArray)
    0 numPairs
    (fun p tmpArray =>
       lhs <- at_index tmpArray (r + 2 * p) ;;
       rhs <- at_index tmpArray (r + 2 * p + 1) ;;
       highVal <- VectorBuilder.mergeHigh lhs rhs (2 ^ Z.of_nat t) ;;
       lowVal <- VectorBuilder.mergeLow lhs rhs (2 ^ Z.of_nat t) ;;
       red <- MathBuilder.add highVal lowVal ;;
       ret (<[Z.to_nat (r + p) := red]> tmpArray))
    (Datatypes.S (Z.to_nat numPairs)) start ops)
    as (tmpArray' & ops' & Hrun & Hfinal).
  - lia.
  - lia.
  - destruct Hstage as (Hlen & Hty & Hrest & Hlanes).
    split; [exact Hlen |]. split; [exact Hty |]. split; [reflexivity |].
    intros m q c Hm. lia.
  - intros p tmpArray ops0 Hp Hinv.
    apply (pair_step r t start tmpArray p ops0 Hr HrN Ht Hstage); [lia | exact Hinv].
  - rewrite (bind_Some _ _ _ _ _ Hrun). eexists _, ops'. split; [reflexivity |].
    cbn [fst snd]. split.
    + destruct Hstage as (Hlen & Hty & Hrest & Hlanes).
      destruct Hfinal as (Hlen' & Hty' & Hrest' & Hdone).
      split; [exact Hlen' |]. split; [exact Hty' |]. split.
      * intros idx Hidx. rewrite Hrest' by nia. apply Hrest. exact Hidx.
      * intros m q c Hm Hq Hc. apply Hdone; lia.
    + rewrite Hnum, Z.div_div by lia. f_equal.
      rewrite (Nat2Z.inj_succ (Datatypes.S t)), Z.pow_succ_r by lia. lia.
Qed.

(** One group: [k] steps leave the butterfly sums of the group's [2^k]
    vectors in the lanes of [tmpArray[r]], which is emitted. *)
Lemma group_step (g : Z) (st : list Value * list Value) (ops : list Operation) :
  0 <= g -> (g + 1) * 2 ^ Z.of_nat k <= Z.of_nat (length inputs) ->
  groupInvariant env inputs k e g st ->
  exists st' ops',
    (let '(tmpArray, outputVecArray) := st in
     let numPairs := 2 ^ Z.of_nat k / 2 in
     st <- for_loop (Datatypes.S (Z.to_nat (2 ^ Z.of_nat k))) 1
             (fun step => step <? 2 ^ Z.of_nat k) (fun step => step * 2)
             (fun step '(tmpArray, numPairs) =>
                tmpArray <-
                  for_loop (Datatypes.S (Z.to_nat numPairs)) 0
                    (fun p => p <? numPairs) Z.succ
                    (fun p tmpArray =>
                       lhs <- at_index tmpArray (g * 2 ^ Z.of_nat k + 2 * p) ;;
                       rhs <- at_index tmpArray (g * 2 ^ Z.of_nat k + 2 * p + 1) ;;
                       highVal <- VectorBuilder.mergeHigh lhs rhs step ;;
                       lowVal <- VectorBuilder.mergeLow lhs rhs step ;;
                       red <- MathBuilder.add highVal lowVal ;;
                       ret (<[Z.to_nat (g * 2 ^ Z.of_nat k + p) := red]> tmpArray))
                    tmpArray ;;
                ret (tmpArray, numPairs / 2))
             (tmpArray, numPairs) ;;
     out <- at_index (fst st) (g * 2 ^ Z.of_nat k) ;;
     ret (fst st, outputVecArray ++ [out])) ops
    = Some (st', ops')
    /\ groupInvariant env inputs k e (g + 1) st'.
Proof.
  intros Hg HgN Hinv. destruct st as [tmpArray outputVecArray].
  destruct Hinv as (Hlen & Hty & Hrest & Hout & Hlanes).
  set (VL := 2 ^ Z.of_nat k) in *. set (r := g * VL) in *.
  assert (HVLpos : 0 < VL) by (apply Z.pow_pos_nonneg; lia).
  assert (Hr : 0 <= r) by (unfold r; nia).
  assert (HrN : r + VL <= Z.of_nat (length inputs)) by (unfold r; lia).
  assert (Hklt : (k < Datatypes.S (Z.to_nat VL))%nat).
  { assert (Z.of_nat k < VL) by (apply Z.pow_gt_lin_r; lia). lia. }
  cbv zeta.
  destruct (for_loop_doubling
    (fun t (st : list Value * Z) =>
       stageInvariant env inputs k e r t (fst st)
       /\ snd st = VL / 2 ^ Z.of_nat (Datatypes.S t))
    k
    (fun step '(tmpArray, numPairs) =>
       tmpArray <-
         for_loop (Datatypes.S (Z.to_nat numPairs)) 0
           (fun p => p <? numPairs) Z.succ
           (fun p tmpArray =>
              lhs <- at_index tmpArray (r + 2 * p) ;;
              rhs <- at_index tmpArray (r + 2 * p + 1) ;;
              highVal <- VectorBuilder.mergeHigh lhs rhs step ;;
              lowVal <- VectorBuilder.mergeLow lhs rhs step ;;
              red <- MathBuilder.add highVal lowVal ;;
              ret (<[Z.to_nat (r + p) := red]> tmpArray))
           tmpArray ;;
       ret (tmpArray, numPairs / 2))
    (Datatypes.S (Z.to_nat VL)) (tmpArray, VL / 2) ops Hklt)
    as (st1 & ops1 & Hrun & Hstage & _).
  - cbn [fst snd]. split; [| reflexivity].
    split; [exact Hlen |]. split; [exact Hty |]. split.
    + intros idx Hidx. apply Hrest. lia.
    + intros m q c Hm Hq Hc. rewrite Z.sub_0_r in Hm, Hq. fold VL in Hm, Hq.
      change (2 ^ Z.of_nat 0) with 1 in *.
      assert (c = 0) as -> by lia.
      destruct (lookup_lt_is_Some_2 inputs (Z.to_nat (r + m)) ltac:(lia)) as [v Hv].
      exists v. split; [rewrite Hrest by lia; exact Hv |].
      cbn [Nat.iter]. unfold inputLanes.
      replace (r + m * 1 + 0) with (r + m) by lia. rewrite Hv. f_equal. lia.
  - intros t st0 ops0 Ht Hst0.
    apply (stage_step r t st0 ops0 Hr HrN Ht Hst0).
  - rewrite (bind_Some _ _ _ _ _ Hrun).
    destruct Hstage as (Hlen1 & Hty1 & Hrest1 & Hlanes1).
    rewrite Z.sub_diag in Hlanes1. change (2 ^ 0) with 1 in Hlanes1.
    destruct (Hlanes1 0 0 0 ltac:(lia) ltac:(lia) ltac:(lia)) as (out & Hout0 & _).
    rewrite Z.add_0_r in Hout0.
    rewrite (bind_Some _ _ _ _ _ (at_index_run _ _ _ ops1 Hout0)).
    eexists _, ops1. split; [reflexivity |].
    split; [exact Hlen1 |]. split; [exact Hty1 |]. split; [| split].
    + intros idx Hidx. apply Hrest1. unfold r. lia.
    + rewrite length_app. cbn [length]. lia.
    + intros i j Hi Hj. destruct (decide (i = g)) as [-> | Hne].
      * exists out. split.
        -- rewrite lookup_app_r by lia.
           replace (Z.to_nat g - length outputVecArray)%nat with 0%nat by lia.
           reflexivity.
        -- destruct (Hlanes1 0 0 j ltac:(lia) ltac:(lia) Hj) as (out' & Hout' & Hlane).
           rewrite Z.add_0_r in Hout'.
           assert (out' = out) as -> by congruence.
           unfold halvingSum.
           replace (0 * 2 ^ Z.of_nat k + j) with j in Hlane by lia.
           replace (r + 0 * 2 ^ Z.of_nat k + j) with (g * 2 ^ Z.of_nat k + j) in Hlane
             by (unfold r, VL; lia).
           exact Hlane.
      * destruct (Hlanes i j ltac:(lia) Hj) as (o & Ho & Hlane).
        exists o. split; [| exact Hlane].
        apply lookup_app_l_Some. exact Ho.
Qed.

(** The first loop copies the inputs into [tmpArray]. *)
Lemma copy_inputs_run (ops : list Operation) :
  exists ops',
    for_loop (Datatypes.S (Z.to_nat (Z.of_nat (length inputs)))) 0
      (fun i => i <? Z.of_nat (length inputs)) Z.succ
      (fun i tmpArray =>
         input <- at_index inputs i ;;
         len <- VectorBuilder.getLengthOf1DVector input ;;
         assert (len =? 2 ^ Z.of_nat k) ;;;
         ret (tmpArray ++ [input])) [] ops
    = Some (inputs, ops').
Proof.
  destruct (for_loop_counting
    (fun i (tmpArray : list Value) => tmpArray = take (Z.to_nat i) inputs)
    0 (Z.of_nat (length inputs))
    (fun i tmpArray =>
       input <- at_index inputs i ;;
       len <- VectorBuilder.getLengthOf1DVector input ;;
       assert (len =? 2 ^ Z.of_nat k) ;;;
       ret (tmpArray ++ [input]))
    (Datatypes.S (Z.to_nat (Z.of_nat (length inputs)))) [] ops)
    as (tmpArray & ops' & Hrun & Htmp).
  - lia.
  - lia.
  - reflexivity.
  - intros i tmpArray ops0 Hi ->.
    destruct (lookup_lt_is_Some_2 inputs (Z.to_nat i) ltac:(lia)) as [v Hv].
    destruct (Forall_lookup_1 _ _ _ _ Hinputs Hv) as [Hvty _].
    rewrite (bind_Some _ _ _ _ _ (at_index_run _ _ _ ops0 Hv)).
    rewrite (bind_Some _ _ _ _ _ (getLengthOf1DVector_run v _ e ops0 Hvty)).
    rewrite assert_true by (apply Z.eqb_refl).
    eexists _, ops0. split; [reflexivity |].
    replace (Z.to_nat (i + 1)) with (Datatypes.S (Z.to_nat i)) by lia.
    symmetry. apply take_S_r. exact Hv.
  - exists ops'. rewrite Hrun. f_equal. f_equal. rewrite Htmp.
    apply take_ge. lia.
Qed.

Lemma multiReduction_run (ops : list Operation) :
  VectorBuilder.getMachineVectorLength e = 2 ^ Z.of_nat k ->
  inputs <> [] ->
  Z.of_nat (length inputs) mod 2 ^ Z.of_nat k = 0 ->
  exists outputVecArray ops',
    VectorBuilder.multiReduction inputs ops = Some (outputVecArray, ops')
    /\ Z.of_nat (length outputVecArray) = Z.of_nat (length inputs) / 2 ^ Z.of_nat k
    /\ (forall i j,
          0 <= i < Z.of_nat (length inputs) / 2 ^ Z.of_nat k ->
          0 <= j < 2 ^ Z.of_nat k ->
          exists out,
            outputVecArray !! Z.to_nat i = Some out
            /\ lane (eval env out) j
               = halvingSum (addLane e) k
                   (inputLanes env inputs (i * 2 ^ Z.of_nat k + j))).
Proof.
  intros Hmachine Hne Hmod.
  set (VL := 2 ^ Z.of_nat k) in *. set (N := Z.of_nat (length inputs)) in *.
  assert (HVLpos : 0 < VL) by (apply Z.pow_pos_nonneg; lia).
  assert (HNpos : 0 < N).
  { assert (length inputs <> 0%nat) by (intros Hz; apply Hne, nil_length_inv, Hz).
    unfold N. lia. }
  set (n := N / VL).
  assert (HN : N = n * VL).
  { unfold n. rewrite Z.mul_comm. apply Z.div_exact; lia. }
  assert (Hn : 0 <= n) by (apply Z.div_pos; lia).
  destruct (lookup_lt_is_Some_2 inputs (Z.to_nat 0) ltac:(unfold N in HNpos; lia))
    as [first Hfirst].
  destruct (Forall_lookup_1 _ _ _ _ Hinputs Hfirst) as [Hfty _].
  unfold VectorBuilder.multiReduction. fold N.
  rewrite assert_true by (apply Z.ltb_lt; exact HNpos).
  rewrite (bind_Some _ _ _ _ _ (at_index_run _ _ _ ops Hfirst)).
  rewrite (bind_Some _ _ _ _ _ (getLengthOf1DVector_run first _ e ops Hfty)).
  rewrite bind_Some with (a := VL) (ops' := ops)
    by (unfold VectorBuilder.getMachineVectorLengthOfValue; rewrite Hfty;
        cbn [dyn_cast_VectorType getElementType]; unfold ret; rewrite Hmachine;
        reflexivity).
  rewrite assert_true by (apply Z.eqb_refl).
  rewrite assert_true by (apply Z.eqb_eq; exact Hmod).
  destruct (copy_inputs_run ops) as (ops1 & Hcopy).
  fold N in Hcopy. fold VL. rewrite (bind_Some _ _ _ _ _ Hcopy).
  edestruct (for_loop_strided_to
    (fun g (st : list Value * list Value) => groupInvariant env inputs k e g st)
    n VL N) as (st & ops2 & Hrun & Hfinal); cycle 6.
  - rewrite (bind_Some _ _ _ _ _ Hrun). destruct st as [tmpArray outputVecArray].
    destruct Hfinal as (_ & _ & _ & Hlen & Hlanes).
    exists outputVecArray, ops2. split; [reflexivity |].
    split; [exact Hlen | exact Hlanes].
  - exact HN.
  - exact Hn.
  - exact HVLpos.
  - unfold N at 1. assert (n <= N) by nia. lia.
  - split; [reflexivity |]. split; [exact Hinputs |]. split; [reflexivity |].
    split; [reflexivity |]. intros i j Hi. lia.
  - intros g st ops0 Hg Hinv.
    apply (group_step g st ops0); [lia | fold VL N; nia | exact Hinv].
Qed.

(** C3, as the code has it: for [N > 0] input vectors, all of [VL = 2^k]
    lanes of an integer, index or float element type, with [VL] the machine
    vector length and [N] a multiple of it, [multiReduction] creates the
    operations of the butterfly network and no other (group after group, [k]
    steps per group with [step = 1, 2, 4, ...], in each step one
    [mergeHigh] shuffle, one [mergeLow] shuffle and the addition of the two
    for every pair of live vectors, which halves their number) and returns
    its [N / VL] outputs.  Output [i] is not the elementwise sum of the
    vectors of group [i]: its lane [j] is the sum of all the lanes of the one
    input vector [i * VL + j], added in the pairing order of the network
    ([halvingSum]: [k] times the upper half onto the lower half, with the
    addition [MathBuilder::add] creates for the element type).  So output [i]
    holds, lane by lane, the [VL] horizontal sums of the input vectors
    [i * VL, (i + 1) * VL).  For an integer element type of width [w] that
    lane equals the plain sum of the input's lanes modulo [2^w]. *)
Theorem multiReduction_butterfly_sums (ops : list Operation) :
  VectorBuilder.getMachineVectorLength e = 2 ^ Z.of_nat k ->
  inputs <> [] ->
  Z.of_nat (length inputs) mod 2 ^ Z.of_nat k = 0 ->
  VectorBuilder.multiReduction inputs ops
  = Some (reductionOutputs e k inputs, ops ++ reductionOps e k inputs)
  /\ Z.of_nat (length (reductionOutputs e k inputs))
     = Z.of_nat (length inputs) / 2 ^ Z.of_nat k
  /\ (forall i j,
        0 <= i < Z.of_nat (length inputs) / 2 ^ Z.of_nat k ->
        0 <= j < 2 ^ Z.of_nat k ->
        exists out,
          reductionOutputs e k inputs !! Z.to_nat i = Some out
          /\ lane (eval env out) j
             = halvingSum (addLane e) k
                 (inputLanes env inputs (i * 2 ^ Z.of_nat k + j))
          /\ (forall w s, e = IntegerType w s -> 0 < w ->
                lane (eval env out) j mod 2 ^ w
                = laneSum (inputLanes env inputs (i * 2 ^ Z.of_nat k + j)) mod 2 ^ w)).
Proof.
  intros Hmachine Hne Hmod.
  destruct (multiReduction_run ops Hmachine Hne Hmod)
    as (outputVecArray & ops' & Hrun & Hlen & Hlanes).
  assert (Htyped : Forall (fun v => getType v = VectorType [2 ^ Z.of_nat k] e) inputs)
    by (revert Hinputs; apply List.Forall_impl; intros v [Hty _]; exact Hty).
  pose proof (multiReduction_network inputs k e Hk He Htyped ops Hmachine Hne Hmod)
    as Hnetwork.
  rewrite Hnetwork in Hrun. injection Hrun as <- <-.
  split; [exact Hnetwork |]. split; [exact Hlen |].
  intros i j Hi Hj. destruct (Hlanes i j Hi Hj) as (out & Hout & Hlane).
  exists out. split; [exact Hout |]. split; [exact Hlane |].
  intros w s Hes Hw. rewrite Hlane.
  apply halvingSum_laneSum_mod.
  - intros a b. rewrite Hes. apply addLane_integer_mod. exact Hw.
  - apply length_inputLanes.
    assert (0 < 2 ^ Z.of_nat k) by (apply Z.pow_pos_nonneg; lia).
    assert (Hdiv : 2 ^ Z.of_nat k * (Z.of_nat (length inputs) / 2 ^ Z.of_nat k)
                   <= Z.of_nat (length inputs)) by (apply Z.mul_div_le; lia).
    nia.
Qed.

End MultiReduction.

(** ** Sizes of a memory layout *)

Lemma for_loop_list_from {S A : Type} (l : list A) (g : A -> S -> Builder S)
    (body : Z -> S -> Builder S) (n : nat) :
  (forall i s ops, body i s ops = (a <- at_index l i ;; g a s) ops) ->
  forall (i : nat) (fuel : nat) (s : S) (ops : list Operation),
  n = (length l - i)%nat -> (i <= length l)%nat -> (n < fuel)%nat ->
  for_loop fuel (Z.of_nat i) (fun i => i <? Z.of_nat (length l)) Z.succ body s ops
  = foldBuilder g (drop i l) s ops.
Proof.
  intros Hbody. induction n as [| n IH]; intros i fuel s ops Hn Hi Hfuel.
  - assert (i = length l) as -> by lia.
    destruct fuel as [| fuel]; [lia |]. cbn [for_loop].
    rewrite Z.ltb_irrefl, drop_all. reflexivity.
  - destruct fuel as [| fuel]; [lia |]. cbn [for_loop].
    rewrite (proj2 (Z.ltb_lt _ _)) by lia.
    destruct (lookup_lt_is_Some_2 l i ltac:(lia)) as [a Ha].
    rewrite (drop_S l a i Ha). cbn [foldBuilder].
    unfold bind at 1. rewrite Hbody.
    rewrite (bind_Some _ _ _ _ _ (at_index_run l (Z.of_nat i) a ops
               ltac:(rewrite Nat2Z.id; exact Ha))).
    unfold bind. destruct (g a s ops) as [[s' ops'] |]; [| reflexivity].
    rewrite <- Nat2Z.inj_succ. apply IH; lia.
Qed.

(** A counting loop that reads [l[i]] is a fold over [l]. *)
Lemma for_loop_list {S A : Type} (l : list A) (g : A -> S -> Builder S)
    (body : Z -> S -> Builder S) (fuel : nat) (s : S) (ops : list Operation) :
  (forall i s ops, body i s ops = (a <- at_index l i ;; g a s) ops) ->
  (length l < fuel)%nat ->
  for_loop fuel 0 (fun i => i <? Z.of_nat (length l)) Z.succ body s ops
  = foldBuilder g l s ops.
Proof.
  intros Hbody Hfuel.
  apply (for_loop_list_from l g body (length l) Hbody 0%nat); lia.
Qed.

Lemma to_int64_mod (x : Z) : to_int64 x mod 2 ^ 64 = x mod 2 ^ 64.
Proof.
  unfold to_int64. destruct (_ <? _).
  - apply Z.mod_mod. lia.
  - rewrite <- (Z.mod_add _ 1) by lia.
    replace (x mod 2 ^ 64 - 2 ^ 64 + 1 * 2 ^ 64) with (x mod 2 ^ 64) by lia.
    apply Z.mod_mod. lia.
Qed.

Lemma to_int64_eqm (x y : Z) : x mod 2 ^ 64 = y mod 2 ^ 64 -> to_int64 x = to_int64 y.
Proof. unfold to_int64. intros ->. reflexivity. Qed.

Lemma to_int64_mul_l (x y : Z) : to_int64 (to_int64 x * y) = to_int64 (x * y).
Proof.
  apply to_int64_eqm.
  rewrite <- Zmult_mod_idemp_l, to_int64_mod, Zmult_mod_idemp_l. reflexivity.
Qed.

Lemma to_int64_small (x : Z) : int64_range x -> to_int64 x = x.
Proof.
  unfold int64_range, to_int64. intros Hx.
  destruct (Z.ltb_spec (x mod 2 ^ 64) (2 ^ 63)) as [Hlt | Hge].
  - destruct (Z.le_gt_cases 0 x) as [Hpos | Hneg].
    + apply Z.mod_small. lia.
    + exfalso. rewrite <- (Z.mod_add x 1) in Hlt by lia.
      rewrite Z.mod_small in Hlt by lia. lia.
  - destruct (Z.le_gt_cases 0 x) as [Hpos | Hneg].
    + exfalso. rewrite Z.mod_small in Hge by lia. lia.
    + rewrite <- (Z.mod_add x 1) by lia. rewrite Z.mod_small by lia. lia.
Qed.

(** The assertion [val == (int64_t)val] holds exactly in the range of
    [int64_t]. *)
Lemma eqb_to_int64 (x : Z) : (x =? to_int64 x) = true <-> int64_range x.
Proof.
  rewrite Z.eqb_eq. split.
  - intros Hx. rewrite Hx. unfold int64_range, to_int64.
    pose proof (Z.mod_pos_bound x (2 ^ 64) ltac:(lia)).
    destruct (x mod 2 ^ 64 <? 2 ^ 63) eqn:Hlt; [apply Z.ltb_lt in Hlt | apply Z.ltb_ge in Hlt];
      lia.
  - intros Hx. symmetry. apply to_int64_small. exact Hx.
Qed.


Lemma foldl_to_int64_mul (start : Z) (l : list Z) :
  to_int64 (foldl (fun acc d => to_int64 (acc * d)) start l)
  = to_int64 (start * productOf l).
Proof.
  revert start. induction l as [| d l IH]; intros start; cbn [foldl productOf foldr].
  - f_equal. lia.
  - rewrite IH. fold (productOf l). rewrite to_int64_mul_l. f_equal. lia.
Qed.

Lemma to_int64_idem (x : Z) : to_int64 (to_int64 x) = to_int64 x.
Proof. apply to_int64_eqm, to_int64_mod. Qed.

Lemma foldl_to_int64_product (l : list Z) :
  foldl (fun acc d => to_int64 (acc * d)) 1 l = to_int64 (productOf l).
Proof.
  rewrite <- (Z.mul_1_l (productOf l)), <- foldl_to_int64_mul.
  destruct l as [| d l] using rev_ind; [reflexivity |].
  rewrite foldl_app. cbn [foldl]. symmetry. apply to_int64_idem.
Qed.

Lemma staticExtents_cons (d : Z) (shape : list Z) :
  staticExtents (d :: shape)
  = if bool_decide (d = kDynamic) then staticExtents shape else d :: staticExtents shape.
Proof.
  unfold staticExtents. case_bool_decide.
  - apply filter_cons_False. tauto.
  - apply filter_cons_True. assumption.
Qed.

Lemma numDynamic_cons (d : Z) (shape : list Z) :
  numDynamic (d :: shape)
  = if bool_decide (d = kDynamic) then Datatypes.S (numDynamic shape) else numDynamic shape.
Proof.
  unfold numDynamic. case_bool_decide.
  - rewrite filter_cons_True by assumption. reflexivity.
  - rewrite filter_cons_False by assumption. reflexivity.
Qed.

(** The loop of [getStaticAndDynamicMemSize] from a state on. *)
Lemma memSize_fold (dynSymbols : list Value) (shape : list Z) :
  forall (staticSize : Z) (dynSize : IndexExpr) (iDim : Z) (ops : list Operation),
  0 <= iDim <= Z.of_nat (length dynSymbols) ->
  foldBuilder
    (fun extent '(staticSize, dynSize, iDim) =>
       if bool_decide (extent = kDynamic) then
         assert (negb (bool_decide (length dynSymbols = 0%nat))) ;;;
         assert (iDim <? Z.of_nat (length dynSymbols)) ;;;
         symbol <- at_index dynSymbols iDim ;;
         ret (staticSize, ie_mul dynSize (SymbolIndexExpr symbol), iDim + 1)
       else
         ret (to_int64 (staticSize * extent), dynSize, iDim))
    shape (staticSize, dynSize, iDim) ops
  = if decide (iDim + Z.of_nat (numDynamic shape) <= Z.of_nat (length dynSymbols)) then
      Some ((foldl (fun acc d => to_int64 (acc * d)) staticSize (staticExtents shape),
             symbolProductFrom dynSize
               (take (numDynamic shape) (drop (Z.to_nat iDim) dynSymbols)),
             iDim + Z.of_nat (numDynamic shape)), ops)
    else None.
Proof.
  induction shape as [| d shape IH]; intros staticSize dynSize iDim ops HiDim.
  - cbn [foldBuilder]. unfold numDynamic. cbn [filter list_filter length].
    rewrite decide_True by lia. unfold ret. repeat f_equal. lia.
  - cbn [foldBuilder]. rewrite staticExtents_cons, numDynamic_cons.
    destruct (bool_decide (d = kDynamic)) eqn:Hd.
    + destruct (decide (iDim < Z.of_nat (length dynSymbols))) as [Hlt | Hge].
      * unfold bind at 1.
        rewrite assert_true by (apply negb_true_iff, bool_decide_eq_false; lia).
        rewrite assert_true by (apply Z.ltb_lt; exact Hlt).
        destruct (lookup_lt_is_Some_2 dynSymbols (Z.to_nat iDim) ltac:(lia)) as [v Hv].
        rewrite (bind_Some _ _ _ _ _ (at_index_run _ _ _ ops Hv)).
        unfold ret at 1. rewrite IH by lia.
        destruct (decide (iDim + 1 + Z.of_nat (numDynamic shape)
                          <= Z.of_nat (length dynSymbols))) as [Hfit | Hno].
        -- rewrite decide_True by lia. f_equal. f_equal. f_equal; [f_equal |]; [| lia].
           rewrite (drop_S _ _ _ Hv). cbn [take]. unfold symbolProductFrom.
           cbn [foldl]. replace (Z.to_nat (iDim + 1)) with (Datatypes.S (Z.to_nat iDim)) by lia.
           reflexivity.
        -- rewrite decide_False by lia. reflexivity.
      * rewrite decide_False by lia. unfold bind at 1.
        destruct (bool_decide (length dynSymbols = 0%nat)) eqn:Hz; [reflexivity |].
        rewrite assert_true by reflexivity.
        rewrite assert_false by (apply Z.ltb_ge; lia). reflexivity.
    + unfold bind at 1, ret at 1. rewrite IH by lia.
      destruct (decide _); reflexivity.
Qed.

Lemma ie_eval_mul (rho : Value -> Z) (a b : IndexExpr) :
  ie_eval rho (ie_mul a b) = ie_eval rho a * ie_eval rho b.
Proof. destruct a, b; reflexivity. Qed.

Lemma ie_eval_add (rho : Value -> Z) (a b : IndexExpr) :
  ie_eval rho (ie_add a b) = ie_eval rho a + ie_eval rho b.
Proof. destruct a, b; reflexivity. Qed.

Lemma ie_eval_ceilDiv (rho : Value -> Z) (a b : IndexExpr) :
  ie_eval rho (ie_ceilDiv a b) = ceilDivZ (ie_eval rho a) (ie_eval rho b).
Proof. destruct a, b; reflexivity. Qed.

Lemma ie_eval_symbolProductFrom (rho : Value -> Z) (symbols : list Value)
    (start : IndexExpr) :
  ie_eval rho (symbolProductFrom start symbols)
  = ie_eval rho start * productOf (rho <$> symbols).
Proof.
  unfold symbolProductFrom. revert start.
  induction symbols as [| v symbols IH]; intros start;
    cbn [foldl fmap list_fmap productOf foldr].
  - lia.
  - rewrite IH, ie_eval_mul. cbn [ie_eval]. fold (productOf (rho <$> symbols)). lia.
Qed.

Lemma ie_eval_symbolProduct (rho : Value -> Z) (symbols : list Value) :
  ie_eval rho (symbolProduct symbols) = productOf (rho <$> symbols).
Proof.
  unfold symbolProduct. rewrite ie_eval_symbolProductFrom. cbn [ie_eval]. lia.
Qed.

Lemma numDynamic_zero (shape : list Z) :
  numDynamic shape = 0%nat <-> Forall (fun d => d <> kDynamic) shape.
Proof.
  induction shape as [| d shape IH].
  - split; [constructor | reflexivity].
  - pose proof (numDynamic_cons d shape) as Hc.
    destruct (bool_decide_reflect (d = kDynamic)) as [Hd | Hd]; rewrite Hc.
    + split; [discriminate |]. intros Hall. inversion Hall. tauto.
    + split.
      * intros Hz. constructor; [exact Hd | apply IH, Hz].
      * intros Hall. inversion Hall. apply IH. assumption.
Qed.

Lemma getStaticAndDynamicMemSize_run (type : Ty) (dynSymbols : list Value)
    (ops : list Operation) :
  MemRefBuilder.getStaticAndDynamicMemSize type dynSymbols ops
  = if isa_VectorType (getElementType type) then None
    else if decide (numDynamic (getShape type) <= length dynSymbols)%nat then
      Some ((bool_decide (length dynSymbols = 0%nat),
             to_int64 (productOf (staticExtents (getShape type))),
             symbolProduct (take (numDynamic (getShape type)) dynSymbols)), ops)
    else None.
Proof.
  unfold MemRefBuilder.getStaticAndDynamicMemSize.
  destruct (isa_VectorType (getElementType type)); [reflexivity |].
  rewrite assert_true by reflexivity. unfold bind at 1, getRank.
  rewrite (for_loop_list (getShape type)
    (fun extent '(staticSize, dynSize, iDim) =>
       if bool_decide (extent = kDynamic) then
         assert (negb (bool_decide (length dynSymbols = 0%nat))) ;;;
         assert (iDim <? Z.of_nat (length dynSymbols)) ;;;
         symbol <- at_index dynSymbols iDim ;;
         ret (staticSize, ie_mul dynSize (SymbolIndexExpr symbol), iDim + 1)
       else
         ret (to_int64 (staticSize * extent), dynSize, iDim))).
  - rewrite memSize_fold by lia.
    destruct (decide (0 + Z.of_nat (numDynamic (getShape type))
                      <= Z.of_nat (length dynSymbols))) as [Hle | Hgt].
    + rewrite decide_True by lia. rewrite foldl_to_int64_product. reflexivity.
    + rewrite decide_False by lia. reflexivity.
  - intros i [[staticSize dynSize] iDim] ops0. reflexivity.
  - lia.
Qed.

(** C8, as the code has it: [getStaticAndDynamicMemSize] stops exactly when
    the element type is a vector or the layout has more dynamic extents than
    dynamic symbols were supplied; surplus symbols are accepted and ignored.
    Otherwise it returns the product of the static extents as an [int64_t]
    (the product itself when that fits), the index expression that
    multiplies the symbols of the dynamic extents, whose value is the product
    of their run-time values, and the flag "no dynamic symbol was supplied",
    which, when the number of symbols matches the number of dynamic extents,
    is true exactly when the shape is fully static. *)
Theorem getStaticAndDynamicMemSize_sizes (type : Ty) (dynSymbols : list Value)
    (ops : list Operation) :
  (MemRefBuilder.getStaticAndDynamicMemSize type dynSymbols ops = None
   <-> isa_VectorType (getElementType type) = true
       \/ (length dynSymbols < numDynamic (getShape type))%nat)
  /\ (isa_VectorType (getElementType type) = false ->
      (numDynamic (getShape type) <= length dynSymbols)%nat ->
      MemRefBuilder.getStaticAndDynamicMemSize type dynSymbols ops
      = Some ((bool_decide (length dynSymbols = 0%nat),
               to_int64 (productOf (staticExtents (getShape type))),
               symbolProduct (take (numDynamic (getShape type)) dynSymbols)), ops))
  /\ (int64_range (productOf (staticExtents (getShape type))) ->
      to_int64 (productOf (staticExtents (getShape type)))
      = productOf (staticExtents (getShape type)))
  /\ (forall rho,
        ie_eval rho (symbolProduct (take (numDynamic (getShape type)) dynSymbols))
        = productOf (rho <$> take (numDynamic (getShape type)) dynSymbols))
  /\ (length dynSymbols = numDynamic (getShape type) ->
      (bool_decide (length dynSymbols = 0%nat) = true
       <-> Forall (fun d => d <> kDynamic) (getShape type))).
Proof.
  rewrite getStaticAndDynamicMemSize_run.
  split; [| split; [| split; [| split]]].
  - destruct (isa_VectorType (getElementType type)); [tauto |].
    destruct (decide _) as [Hle | Hgt].
    + split; [discriminate | intros [Hv | Hlt]; [discriminate | lia]].
    + split; [intros _; right; lia | reflexivity].
  - intros -> Hle. rewrite decide_True by exact Hle. reflexivity.
  - apply to_int64_small.
  - intros rho. apply ie_eval_symbolProduct.
  - intros Hlen. rewrite bool_decide_eq_true, <- numDynamic_zero. lia.
Qed.

(** ** Allocation with SIMD padding *)

Lemma getValue_ops (ie : IndexExpr) (ops : list Operation) :
  getValue ie ops = Some (valueOf ie, ops ++ materialisationOps ie).
Proof.
  revert ops. induction ie as [z | v | a IHa b IHb | a IHa b IHb | a IHa b IHb];
    intros ops; cbn [getValue materialisationOps].
  - reflexivity.
  - unfold ret. rewrite app_nil_r. reflexivity.
  - rewrite (bind_Some _ _ _ _ _ (IHa ops)), (bind_Some _ _ _ _ _ (IHb _)).
    unfold create. rewrite <- !app_assoc. reflexivity.
  - rewrite (bind_Some _ _ _ _ _ (IHa ops)), (bind_Some _ _ _ _ _ (IHb _)).
    unfold create. rewrite <- !app_assoc. reflexivity.
  - rewrite (bind_Some _ _ _ _ _ (IHa ops)), (bind_Some _ _ _ _ _ (IHb _)).
    unfold create. rewrite <- !app_assoc. reflexivity.
Qed.

Lemma productOf_staticExtents_nonneg (shape : list Z) :
  Forall (fun d => d = kDynamic \/ 0 <= d) shape ->
  0 <= productOf (staticExtents shape).
Proof.
  induction 1 as [| d shape Hd Hall IH].
  - cbn. lia.
  - rewrite staticExtents_cons. case_bool_decide; [exact IH |].
    cbn [productOf foldr]. fold (productOf (staticExtents shape)).
    destruct Hd; [contradiction | nia].
Qed.

Lemma isLiteral_symbolProduct_nil : symbolProduct [] = LiteralIndexExpr 1.
Proof. reflexivity. Qed.

(** A product with a dynamic symbol is not a literal. *)
Lemma symbolProductFrom_not_literal (start : IndexExpr) (symbols : list Value) :
  isLiteral start = false \/ symbols <> [] ->
  isLiteral (symbolProductFrom start symbols) = false.
Proof.
  revert start. induction symbols as [| v symbols IH]; intros start Hcase.
  - destruct Hcase as [Hstart | Hne]; [exact Hstart | contradiction].
  - unfold symbolProductFrom. cbn [foldl]. apply IH. left.
    destruct start; reflexivity.
Qed.

Section SimdPadding.
Context `{VectorMachineSupport} `{AllocationDefaults}.

(** On a buffer of rank at least 1, [alignedAlloc] creates the allocation with
    the computed alignment; the rank-0 buffer gets no alignment. *)
Lemma alignedAlloc_ranked (type : Ty) (dynSymbols : list Value) (alignment : Z)
    (ops : list Operation) :
  getShape type <> [] ->
  MemRefBuilder.alignedAlloc type dynSymbols alignment ops
  = Some (AllocOp type dynSymbols (Some (MemRefBuilder.computeAlignment alignment)),
          ops ++ [OpWithResult
                    (AllocOp type dynSymbols
                       (Some (MemRefBuilder.computeAlignment alignment)))]).
Proof.
  intros Hshape. unfold MemRefBuilder.alignedAlloc.
  rewrite bool_decide_eq_false_2
    by (intros Hz; apply Hshape, nil_length_inv, Hz).
  cbv zeta. case_bool_decide as Hsyms; [| reflexivity].
  apply nil_length_inv in Hsyms. subst dynSymbols. reflexivity.
Qed.

Lemma byteBuffer_ops (size : IndexExpr) (alignment : Z) (ops : list Operation) :
  (if isLiteral size then
     MemRefBuilder.alignedAlloc (MemRefType [getLiteral size] getI8Type true) []
       alignment
   else
     v <- getValue size ;;
     MemRefBuilder.alignedAlloc (MemRefType [kDynamic] getI8Type true) [v] alignment)
    ops
  = Some (byteBuffer size alignment,
          ops ++ (if isLiteral size then [] else materialisationOps size)
              ++ [OpWithResult (byteBuffer size alignment)]).
Proof.
  unfold byteBuffer. destruct (isLiteral size).
  - rewrite alignedAlloc_ranked by discriminate. reflexivity.
  - rewrite (bind_Some _ _ _ _ _ (getValue_ops size ops)).
    rewrite alignedAlloc_ranked by discriminate. rewrite <- app_assoc. reflexivity.
Qed.

(** [alignedAlloc] creates one allocation. *)
Lemma alignedAlloc_ops (type : Ty) (dynSymbols : list Value) (alignment : Z)
    (ops : list Operation) :
  MemRefBuilder.alignedAlloc type dynSymbols alignment ops
  = Some (unpaddedAlloc type dynSymbols alignment,
          ops ++ [OpWithResult (unpaddedAlloc type dynSymbols alignment)]).
Proof.
  unfold unpaddedAlloc. case_bool_decide as Hshape.
  - unfold MemRefBuilder.alignedAlloc, MemRefBuilder.alloc.
    rewrite Hshape, bool_decide_eq_true_2 by reflexivity.
    case_bool_decide as Hsyms; [| reflexivity].
    apply nil_length_inv in Hsyms. subst dynSymbols. reflexivity.
  - apply alignedAlloc_ranked. exact Hshape.
Qed.


(** C2, as the code has it: for an identity-layout buffer whose element type
    is an integer or a float of [bw] bits, with at least as many dynamic
    symbols as dynamic extents, [S] the product of the static extents and
    [VL = getMachineVectorLength(elementType) * simdUnroll] (the sizes fitting
    in [int64_t]): when [S % VL = 0] the call allocates the layout itself, as
    [alignedAlloc] does, which is the one operation it creates; otherwise it
    creates the arithmetic of the size (when
    the size is not a literal), one byte buffer, the zero offset and the view
    of the requested type over the buffer, in this order and nothing else, and
    returns the view.  The padding is [VL - S % VL] elements when no dynamic
    symbol was supplied and [VL] elements when one was, whatever the extents
    are: the code decides on the symbols, not on the layout.  The buffer has
    [(S * (bw / 8)) * dynSize + padding * (bw / 8)] bytes when [bw] is a
    multiple of 8, and the ceiling of
    [((S * bw) * dynSize + padding * bw) / 8] bytes otherwise, [dynSize]
    being the product of the symbols of the dynamic extents; a layout without
    dynamic extent gets a buffer of that literal size, a layout with one a
    buffer of a dynamic size. *)
Theorem alignedAllocWithSimdPadding_size (shape : list Z) (elementType : Ty)
    (dynSymbols : list Value) (simdUnroll alignment : Z) (ops : list Operation) :
  isIntOrFloat elementType = true ->
  0 < getIntOrFloatBitWidth elementType ->
  1 <= simdUnroll ->
  Forall (fun d => d = kDynamic \/ 0 <= d) shape ->
  (numDynamic shape <= length dynSymbols)%nat ->
  (productOf (staticExtents shape)
   + VectorBuilder.getMachineVectorLength elementType * simdUnroll)
  * getIntOrFloatBitWidth elementType < 2 ^ 63 ->
  (Z.rem (productOf (staticExtents shape))
     (VectorBuilder.getMachineVectorLength elementType * simdUnroll) = 0 ->
   MemRefBuilder.alignedAllocWithSimdPadding (MemRefType shape elementType true)
     dynSymbols simdUnroll alignment ops
   = MemRefBuilder.alignedAlloc (MemRefType shape elementType true) dynSymbols
       alignment ops
   /\ MemRefBuilder.alignedAllocWithSimdPadding (MemRefType shape elementType true)
        dynSymbols simdUnroll alignment ops
      = Some (unpaddedAlloc (MemRefType shape elementType true) dynSymbols alignment,
              ops ++ [OpWithResult
                        (unpaddedAlloc (MemRefType shape elementType true)
                           dynSymbols alignment)]))
  /\ (Z.rem (productOf (staticExtents shape))
        (VectorBuilder.getMachineVectorLength elementType * simdUnroll) <> 0 ->
      exists size,
        MemRefBuilder.alignedAllocWithSimdPadding (MemRefType shape elementType true)
          dynSymbols simdUnroll alignment ops
        = Some (paddedView (MemRefType shape elementType true) dynSymbols size
                  alignment,
                ops ++ paddedAllocationOps (MemRefType shape elementType true)
                         dynSymbols size alignment)
        /\ (forall rho,
              ie_eval rho size
              = paddedByteSize (productOf (staticExtents shape))
                  (getIntOrFloatBitWidth elementType)
                  (productOf (rho <$> take (numDynamic shape) dynSymbols))
                  (simdPadding (bool_decide (length dynSymbols = 0%nat))
                     (productOf (staticExtents shape))
                     (VectorBuilder.getMachineVectorLength elementType * simdUnroll)))
        /\ (numDynamic shape = 0%nat ->
            size
            = LiteralIndexExpr
                (paddedByteSize (productOf (staticExtents shape))
                   (getIntOrFloatBitWidth elementType) 1
                   (simdPadding (bool_decide (length dynSymbols = 0%nat))
                      (productOf (staticExtents shape))
                      (VectorBuilder.getMachineVectorLength elementType
                       * simdUnroll))))
        /\ (numDynamic shape <> 0%nat -> isLiteral size = false)).
Proof.
  intros Hkind Hbw Hunroll Hshape Hsyms Hfit.
  set (S := productOf (staticExtents shape)) in *.
  set (VL := VectorBuilder.getMachineVectorLength elementType * simdUnroll) in *.
  set (bw := getIntOrFloatBitWidth elementType) in *.
  set (static := bool_decide (length dynSymbols = 0%nat)).
  set (symbols := take (numDynamic shape) dynSymbols).
  assert (HS : 0 <= S) by (apply productOf_staticExtents_nonneg; exact Hshape).
  assert (HVL : 1 <= VL).
  { unfold VL, VectorBuilder.getMachineVectorLength. nia. }
  assert (Hbound : S + VL <= (S + VL) * bw) by nia.
  assert (Hvec : isa_VectorType elementType = false)
    by (destruct elementType; try reflexivity; discriminate Hkind).
  assert (Hrem : 0 <= Z.rem S VL < VL) by (apply Z.rem_bound_pos; lia).
  assert (Hquot : Z.quot bw 8 = bw / 8) by (apply Z.quot_div_nonneg; lia).
  assert (Hbytes : 0 <= bw / 8 <= bw).
  { split; [apply Z.div_pos; lia |]. apply Z.div_le_upper_bound; lia. }
  assert (Hsizes :
    MemRefBuilder.getStaticAndDynamicMemSize (MemRefType shape elementType true)
      dynSymbols ops
    = Some ((static, S, symbolProduct symbols), ops)).
  { rewrite getStaticAndDynamicMemSize_run. cbn [getElementType getShape].
    rewrite Hvec, decide_True by lia.
    fold S. rewrite to_int64_small by (unfold int64_range; lia). reflexivity. }
  unfold MemRefBuilder.alignedAllocWithSimdPadding.
  cbn [hasNonIdentityLayout getElementType negb].
  rewrite assert_true by reflexivity.
  rewrite assert_true by (rewrite Hvec; reflexivity).
  rewrite assert_true by (apply Z.leb_le; exact Hunroll).
  rewrite (bind_Some _ _ _ _ _ Hsizes). fold VL.
  rewrite (to_int64_small VL) by (unfold int64_range; lia).
  split.
  - intros Hzero. rewrite Hzero. split; [reflexivity |].
    apply alignedAlloc_ops.
  - intros Hnz. rewrite (proj2 (Z.eqb_neq _ _) Hnz).
    rewrite assert_true by exact Hkind. fold bw. rewrite Hquot.
    set (padding := if static then to_int64 (VL - Z.rem S VL) else VL).
    assert (Hpadding : padding = simdPadding static S VL).
    { unfold padding, simdPadding. destruct static; [| reflexivity].
      apply to_int64_small. unfold int64_range. lia. }
    assert (Hpad : 0 <= padding <= VL).
    { rewrite Hpadding. unfold simdPadding. destruct static; lia. }
    rewrite (to_int64_small (S * (bw / 8))) by (unfold int64_range; nia).
    rewrite (to_int64_small (padding * (bw / 8))) by (unfold int64_range; nia).
    rewrite (to_int64_small (S * bw)) by (unfold int64_range; nia).
    rewrite (to_int64_small (padding * bw)) by (unfold int64_range; nia).
    set (size := if Z.rem bw 8 =? 0
                 then ie_add (ie_mul (LiteralIndexExpr (S * (bw / 8)))
                                (symbolProduct symbols))
                        (LiteralIndexExpr (padding * (bw / 8)))
                 else ie_ceilDiv
                        (ie_add (ie_mul (LiteralIndexExpr (S * bw))
                                   (symbolProduct symbols))
                           (LiteralIndexExpr (padding * bw)))
                        (LiteralIndexExpr 8)).
    assert (Hstatic : numDynamic shape = 0%nat ->
              size = LiteralIndexExpr (paddedByteSize S bw 1 (simdPadding static S VL))).
    { intros Hnd. unfold size, paddedByteSize, symbols.
      rewrite Hnd, take_0, isLiteral_symbolProduct_nil, Hpadding.
      destruct (Z.rem bw 8 =? 0); reflexivity. }
    exists size.
    assert (Hguard :
      (if static then assert (isLiteral size) else ret tt) ops = Some (tt, ops)).
    { unfold static. case_bool_decide as Hnone; [| reflexivity].
      rewrite (Hstatic ltac:(lia)). reflexivity. }
    rewrite (bind_Some _ _ _ _ _ Hguard).
    rewrite (bind_Some _ _ _ _ _ (byteBuffer_ops size alignment ops)).
    split; [| split; [| split; [exact Hstatic |]]].
    + unfold MemRefBuilder.view, MathBuilder.constantIndex, bind, create,
        paddedAllocationOps, paddedView.
      rewrite <- !app_assoc. reflexivity.
    + intros rho. rewrite <- Hpadding. unfold size, paddedByteSize.
      destruct (Z.rem bw 8 =? 0).
      * rewrite ie_eval_add, ie_eval_mul, ie_eval_symbolProduct. reflexivity.
      * rewrite ie_eval_ceilDiv, ie_eval_add, ie_eval_mul, ie_eval_symbolProduct.
        reflexivity.
    + intros Hnd. unfold size.
      assert (Hsym : isLiteral (symbolProduct symbols) = false).
      { apply symbolProductFrom_not_literal. right. unfold symbols.
        intros Hnil. apply (f_equal length) in Hnil.
        rewrite length_take in Hnil. cbn [length] in Hnil. lia. }
      destruct (symbolProduct symbols); [discriminate Hsym | | | |];
        destruct (Z.rem bw 8 =? 0); reflexivity.
Qed.

End SimdPadding.

(** ** Flattening the last dimension *)

Lemma materialisationOps_arithmetic (ie : IndexExpr) :
  Forall (fun op => isMemoryOperation op = false) (materialisationOps ie).
Proof.
  induction ie as [z | v | a IHa b IHb | a IHa b IHb | a IHa b IHb];
    cbn [materialisationOps]; repeat apply Forall_app_2;
    try assumption; repeat constructor.
Qed.

Lemma flatten_last_run (dims : list IndexExpr) (lastDim : IndexExpr)
    (ops : list Operation) :
  dims !! Z.to_nat (Z.of_nat (length dims) - 1) = Some lastDim ->
  for_loop (Datatypes.S (Z.to_nat 1)) (Z.of_nat (length dims) - 1)
    (fun d => d <? Z.of_nat (length dims)) Z.succ
    (fun d numOfFlattenedElements =>
       dim <- at_index dims d ;;
       ret (ie_mul numOfFlattenedElements (asSymbol dim)))
    (LiteralIndexExpr 1) ops
  = Some (ie_mul (LiteralIndexExpr 1) lastDim, ops).
Proof.
  intros Hdim. change (Z.to_nat 1) with 1%nat. cbn [for_loop].
  rewrite (proj2 (Z.ltb_lt _ _)) by lia.
  rewrite (proj2 (Z.ltb_ge _ _)) by lia.
  unfold bind. rewrite (at_index_run _ _ _ ops Hdim). reflexivity.
Qed.

Section Flatten.
Context `{VectorMachineSupport} `{AllocationDefaults}.

(** C9: for a buffer of rank [R >= 1] with the identity layout and [R]
    dimensions, [reshapeToFlat] with [dimsToFlatten = 1] returns the input
    value itself; what it creates are only the index operations that
    materialise the flattened size (no allocation, store or reshape); and the
    flattened size it returns is the value of [1 * dims[R-1]], which denotes
    the extent of the last dimension and is the index constant [n] when that
    extent is the literal [n]. *)
Theorem reshapeToFlat_one_dimension (valToReshape : Value) (shape : list Z)
    (elementType : Ty) (dims : list IndexExpr) (lastDim : IndexExpr)
    (ops : list Operation) :
  getType valToReshape = MemRefType shape elementType true ->
  length dims = length shape ->
  list.last dims = Some lastDim ->
  MemRefBuilder.reshapeToFlat valToReshape dims 1 ops
  = Some ((valToReshape, valueOf (ie_mul (LiteralIndexExpr 1) lastDim)),
          ops ++ materialisationOps (ie_mul (LiteralIndexExpr 1) lastDim))
  /\ Forall (fun op => isMemoryOperation op = false)
       (materialisationOps (ie_mul (LiteralIndexExpr 1) lastDim))
  /\ (forall rho,
        ie_eval rho (ie_mul (LiteralIndexExpr 1) lastDim) = ie_eval rho lastDim)
  /\ (forall n, lastDim = LiteralIndexExpr n ->
        valueOf (ie_mul (LiteralIndexExpr 1) lastDim)
        = ConstantOp (IntegerAttr IndexType (APInt 64 n))).
Proof.
  intros Hty Hlen Hlast.
  split; [| split; [apply materialisationOps_arithmetic | split]].
  - rewrite last_lookup in Hlast.
    assert (Hrank : (0 < length dims)%nat).
    { destruct dims; [discriminate Hlast | cbn; lia]. }
    unfold MemRefBuilder.reshapeToFlat. rewrite Hty.
    cbn [isa_MemRefType hasNonIdentityLayout negb getElementType].
    rewrite assert_true by reflexivity.
    unfold getRank. cbn [getShape]. rewrite <- Hlen.
    rewrite assert_true by (apply Z.eqb_refl).
    rewrite assert_true by reflexivity.
    change (1 =? -1) with false. cbv iota.
    rewrite assert_true by (apply andb_true_intro; split; [reflexivity | apply Z.leb_le; lia]).
    assert (Hdim : dims !! Z.to_nat (Z.of_nat (length dims) - 1) = Some lastDim).
    { rewrite <- Hlast. f_equal. lia. }
    rewrite (bind_Some _ _ _ _ _ (flatten_last_run dims lastDim ops Hdim)).
    rewrite (bind_Some _ _ _ _ _ (getValue_ops _ ops)).
    change (1 =? 1) with true. reflexivity.
  - intros rho. rewrite ie_eval_mul. cbn [ie_eval]. lia.
  - intros n ->. cbn [ie_mul valueOf]. do 3 f_equal. lia.
Qed.

End Flatten.

(** ** Concrete instances *)

(** [ui8] scalars holding 200 and 100: the sum wraps to 44, the product to
    32. *)
Lemma unsigned_add_mul_wraparound_witness :
  let lhs := BlockArgument 0 (IntegerType 8 Unsigned) in
  let rhs := BlockArgument 1 (IntegerType 8 Unsigned) in
  let env := argumentLanes [[200]; [100]] in
  (MathBuilder.add lhs rhs []
   = Some (unsignedEmulation AddUIExtendedOp_Sum lhs rhs 8,
           [] ++ unsignedEmulationOps AddUIExtendedOp_Sum lhs rhs 8)
   /\ @eval noFloats env (unsignedEmulation AddUIExtendedOp_Sum lhs rhs 8) = [44])
  /\ (MathBuilder.mul lhs rhs []
      = Some (unsignedEmulation MulUIExtendedOp_Low lhs rhs 8,
              [] ++ unsignedEmulationOps MulUIExtendedOp_Low lhs rhs 8)
      /\ @eval noFloats env (unsignedEmulation MulUIExtendedOp_Low lhs rhs 8) = [32]).
Proof.
  intros lhs rhs env.
  destruct (@unsigned_add_mul_wraparound noFloats env lhs rhs 8 [])
    as [(Hadd & _ & Haddv) (Hmul & _ & Hmulv)];
    [lia | reflexivity | reflexivity |].
  split; (split; [assumption |]).
  - rewrite Haddv. reflexivity.
  - rewrite Hmulv. reflexivity.
Defined.

(** A [si8] scalar holding -1 (bits 255): the two reinterpretations keep the
    bits and give a [ui8]. *)
Lemma castToUnsigned_castToSignless_bits_witness :
  let v := BlockArgument 0 (IntegerType 8 Signed) in
  signlessThenUnsigned v 8 []
  = Some (unsignedCast (signlessCast v 8) 8,
          [] ++ [OpWithResult (signlessCast v 8);
                 OpWithResult (unsignedCast (signlessCast v 8) 8)])
  /\ @eval noFloats (argumentLanes [[255]]) (unsignedCast (signlessCast v 8) 8) = [255]
  /\ getType (unsignedCast (signlessCast v 8) 8) = IntegerType 8 Unsigned.
Proof.
  intros v.
  destruct (@castToUnsigned_castToSignless_bits noFloats (argumentLanes [[255]])
              v 8 Signed []) as (Hrun & Hv & Hty);
    [reflexivity | discriminate |].
  split; [exact Hrun |]. split; [rewrite Hv; reflexivity | exact Hty].
Defined.

(** C6 as worded fails on a signless value: [castToSignless] asserts that
    its operand is not signless, so the composition on an [i8] is a fatal
    stop and returns no value at all. *)
Lemma castToSignless_signless_counterexample :
  elementTypeWithVector (getType (BlockArgument 0 (IntegerType 8 Signless)))
  = IntegerType 8 Signless
  /\ signlessThenUnsigned (BlockArgument 0 (IntegerType 8 Signless)) 8 [] = None
  /\ MathBuilder.castToSignless (BlockArgument 0 (IntegerType 8 Signless)) 8 [] = None.
Proof. vm_compute. repeat split; reflexivity. Qed.

(** [ui8] scalars: [sub] creates the one [arith.subi]. *)
Lemma sub_unsigned_plain_subi_witness :
  let lhs := BlockArgument 0 (IntegerType 8 Unsigned) in
  let rhs := BlockArgument 1 (IntegerType 8 Unsigned) in
  MathBuilder.sub lhs rhs []
  = Some (BinaryOp SubIOp (IntegerType 8 Unsigned) lhs rhs,
          [OpWithResult (BinaryOp SubIOp (IntegerType 8 Unsigned) lhs rhs)]).
Proof.
  intros lhs rhs.
  exact (proj1 (sub_unsigned_plain_subi lhs rhs 8 [] eq_refl eq_refl)).
Defined.

(** Four [vector<4xi32>] inputs on a machine of four lanes: the call creates
    the operations of the network and returns its one output, whose lane [j]
    is the sum of the lanes of input [j]. *)
Lemma multiReduction_butterfly_sums_witness :
  let e := IntegerType 32 Signless in
  let inputs := [BlockArgument 0 (VectorType [4] e); BlockArgument 1 (VectorType [4] e);
                 BlockArgument 2 (VectorType [4] e); BlockArgument 3 (VectorType [4] e)] in
  let env := argumentLanes [[1; 2; 3; 4]; [10; 20; 30; 40];
                            [100; 200; 300; 400]; [1000; 2000; 3000; 4000]] in
  @VectorBuilder.multiReduction fourLanes inputs []
  = Some (reductionOutputs e 2 inputs, reductionOps e 2 inputs)
  /\ Z.of_nat (length (reductionOutputs e 2 inputs)) = 1
  /\ exists out,
       reductionOutputs e 2 inputs !! 0%nat = Some out
       /\ lane (@eval noFloats env out) 0 = 10
       /\ lane (@eval noFloats env out) 1 = 100
       /\ lane (@eval noFloats env out) 2 = 1000
       /\ lane (@eval noFloats env out) 3 = 10000.
Proof.
  intros e inputs env.
  destruct (@multiReduction_butterfly_sums noFloats fourLanes env inputs 2 e
              ltac:(lia) eq_refl
              ltac:(repeat constructor) [] eq_refl ltac:(discriminate) eq_refl)
    as (Hrun & Hlen & Hlanes).
  split; [exact Hrun |]. split; [exact Hlen |].
  destruct (Hlanes 0 0 ltac:(vm_compute; split; [discriminate | reflexivity])
              ltac:(vm_compute; split; [discriminate | reflexivity]))
    as (out & Hout & H0 & _).
  destruct (Hlanes 0 1 ltac:(vm_compute; split; [discriminate | reflexivity])
              ltac:(vm_compute; split; [discriminate | reflexivity]))
    as (out1 & Hout1 & H1 & _).
  destruct (Hlanes 0 2 ltac:(vm_compute; split; [discriminate | reflexivity])
              ltac:(vm_compute; split; [discriminate | reflexivity]))
    as (out2 & Hout2 & H2 & _).
  destruct (Hlanes 0 3 ltac:(vm_compute; split; [discriminate | reflexivity])
              ltac:(vm_compute; split; [discriminate | reflexivity]))
    as (out3 & Hout3 & H3 & _).
  change (Z.to_nat 0) with 0%nat in *.
  assert (out1 = out) as -> by congruence.
  assert (out2 = out) as -> by congruence.
  assert (out3 = out) as -> by congruence.
  exists out. split; [exact Hout |].
  rewrite H0, H1, H2, H3. repeat split; reflexivity.
Defined.

(** C3 as worded fails on four [vector<4xi32>] inputs with the lanes
    [1 2 3 4], [10 20 30 40], [100 200 300 400] and [1000 2000 3000 4000] on a
    machine of four lanes: the elementwise sum of the group is
    [1111 2222 3333 4444], while the one output of [multiReduction] holds
    [10 100 1000 10000], the sums of the lanes of each input. *)
Lemma multiReduction_elementwise_counterexample :
  @VectorBuilder.multiReduction fourLanes
    [BlockArgument 0 (VectorType [4] (IntegerType 32 Signless));
     BlockArgument 1 (VectorType [4] (IntegerType 32 Signless));
     BlockArgument 2 (VectorType [4] (IntegerType 32 Signless));
     BlockArgument 3 (VectorType [4] (IntegerType 32 Signless))] []
  = Some (reductionOutputs (IntegerType 32 Signless) 2
            [BlockArgument 0 (VectorType [4] (IntegerType 32 Signless));
             BlockArgument 1 (VectorType [4] (IntegerType 32 Signless));
             BlockArgument 2 (VectorType [4] (IntegerType 32 Signless));
             BlockArgument 3 (VectorType [4] (IntegerType 32 Signless))],
          reductionOps (IntegerType 32 Signless) 2
            [BlockArgument 0 (VectorType [4] (IntegerType 32 Signless));
             BlockArgument 1 (VectorType [4] (IntegerType 32 Signless));
             BlockArgument 2 (VectorType [4] (IntegerType 32 Signless));
             BlockArgument 3 (VectorType [4] (IntegerType 32 Signless))])
  /\ @eval noFloats
       (argumentLanes [[1; 2; 3; 4]; [10; 20; 30; 40];
                       [100; 200; 300; 400]; [1000; 2000; 3000; 4000]])
       <$> reductionOutputs (IntegerType 32 Signless) 2
             [BlockArgument 0 (VectorType [4] (IntegerType 32 Signless));
              BlockArgument 1 (VectorType [4] (IntegerType 32 Signless));
              BlockArgument 2 (VectorType [4] (IntegerType 32 Signless));
              BlockArgument 3 (VectorType [4] (IntegerType 32 Signless))]
     = [[10; 100; 1000; 10000]]
  /\ elementwiseSum 4 [[1; 2; 3; 4]; [10; 20; 30; 40];
                       [100; 200; 300; 400]; [1000; 2000; 3000; 4000]]
     = [1111; 2222; 3333; 4444].
Proof. vm_compute. repeat split; reflexivity. Qed.

(** C8 as worded fails in both directions: with no dynamic extent and one
    surplus symbol the counts differ, yet the call returns (static size 6,
    the empty product, flag false); and with matching counts a vector element
    type is a fatal stop. *)
Lemma getStaticAndDynamicMemSize_counterexample :
  numDynamic [2; 3] = 0%nat
  /\ MemRefBuilder.getStaticAndDynamicMemSize
       (MemRefType [2; 3] (FloatType Float32Type) true)
       [BlockArgument 0 IndexType] []
     = Some ((false, 6, LiteralIndexExpr 1), [])
  /\ MemRefBuilder.getStaticAndDynamicMemSize
       (MemRefType [2; 3] (VectorType [4] (FloatType Float32Type)) true) [] []
     = None.
Proof. vm_compute. repeat split; reflexivity. Qed.

(** The scenario of 10 static [f32] elements, [simdUnroll = 1], four lanes
    and no dynamic symbol: 2 elements of padding; the call creates a buffer
    of 48 bytes, the zero offset and the view, and returns the view. *)
Lemma alignedAllocWithSimdPadding_size_witness :
  let type := MemRefType [10] (FloatType Float32Type) true in
  simdPadding true 10 4 = 2
  /\ @MemRefBuilder.alignedAllocWithSimdPadding fourLanes align16 type [] 1 16 []
     = Some (@paddedView align16 type [] (LiteralIndexExpr 48) 16,
             @paddedAllocationOps align16 type [] (LiteralIndexExpr 48) 16).
Proof.
  intros type. split; [reflexivity |].
  destruct (@alignedAllocWithSimdPadding_size fourLanes align16 [10]
              (FloatType Float32Type) [] 1 16 []
              eq_refl ltac:(reflexivity) ltac:(lia)
              ltac:(constructor; [right; lia | constructor])
              ltac:(vm_compute; lia) ltac:(reflexivity))
    as [_ Hpad].
  destruct (Hpad ltac:(discriminate)) as (size & Hrun & _ & Hliteral & _).
  rewrite (Hliteral eq_refl) in Hrun. exact Hrun.
Defined.

(** C2 as worded fails on a fully static layout that is given a dynamic
    symbol: the 10 static [f32] elements of the scenario, four lanes,
    [simdUnroll = 1], and one surplus symbol.  The layout has no dynamic
    extent, so the claim gives 2 elements of padding and 48 bytes; the code
    reads "a symbol was supplied", pads by [VL = 4] elements and allocates 56
    bytes. *)
Lemma alignedAllocWithSimdPadding_counterexample :
  numDynamic [10] = 0%nat
  /\ paddedByteSize 10 32 1 (simdPadding true 10 4) = 48
  /\ @MemRefBuilder.alignedAllocWithSimdPadding fourLanes align16
       (MemRefType [10] (FloatType Float32Type) true) [BlockArgument 0 IndexType] 1 16 []
     = Some (@paddedView align16 (MemRefType [10] (FloatType Float32Type) true)
               [BlockArgument 0 IndexType] (LiteralIndexExpr 56) 16,
             @paddedAllocationOps align16 (MemRefType [10] (FloatType Float32Type) true)
               [BlockArgument 0 IndexType] (LiteralIndexExpr 56) 16).
Proof. vm_compute. repeat split; reflexivity. Qed.

(** A 2 x 3 buffer of [f32]: flattening one dimension returns the buffer
    itself and the constant 3. *)
Lemma reshapeToFlat_one_dimension_witness :
  let v := BlockArgument 0 (MemRefType [2; 3] (FloatType Float32Type) true) in
  @MemRefBuilder.reshapeToFlat align16 v [LiteralIndexExpr 2; LiteralIndexExpr 3] 1 []
  = Some ((v, ConstantOp (IntegerAttr IndexType (APInt 64 3))),
          [OpWithResult (ConstantOp (IntegerAttr IndexType (APInt 64 3)))]).
Proof.
  intros v.
  exact (proj1 (@reshapeToFlat_one_dimension align16 v [2; 3] (FloatType Float32Type)
                  [LiteralIndexExpr 2; LiteralIndexExpr 3] (LiteralIndexExpr 3) []
                  eq_refl eq_refl eq_refl)).
Defined.


(** A [si8] scalar holding -1 (bits 255), cast to [si16]: the sign extension
    gives the bits 65535, which [si16] reads as -1. *)
Lemma cast_scalar_integer_witness :
  exists r ops',
    MathBuilder.cast (IntegerType 16 Signed) (BlockArgument 0 (IntegerType 8 Signed)) []
    = Some (r, ops')
    /\ @eval noFloats (argumentLanes [[255]]) r = [65535]
    /\ interpret (IntegerType 16 Signed) 65535 = -1.
Proof.
  destruct (@cast_scalar_integer noFloats (argumentLanes [[255]])
              (BlockArgument 0 (IntegerType 8 Signed)) 8 16 255 Signed Signed []
              eq_refl ltac:(lia) ltac:(lia) ltac:(discriminate)
              ltac:(intros (Hs & _); discriminate Hs) eq_refl ltac:(lia))
    as (r & ops' & Hrun & Hev & _).
  exists r, ops'. split; [exact Hrun |]. split; [exact Hev | reflexivity].
Defined.

(** ** Comparisons *)

Lemma createArithCmpI_run (lhs rhs : Value) (pred : CmpIPredicate)
    (ops : list Operation) :
  getType lhs = getType rhs ->
  isIntegerWithVector (getType lhs) = true ->
  MathBuilder.createArithCmpI lhs rhs pred ops
  = Some (BinaryOp (CmpIOp pred) (MathBuilder.cmpResultType (getType lhs)) lhs rhs,
          ops ++ [OpWithResult
                    (BinaryOp (CmpIOp pred) (MathBuilder.cmpResultType (getType lhs)) lhs rhs)]).
Proof.
  intros Hty Hint. unfold MathBuilder.createArithCmpI.
  rewrite assert_true by (apply bool_decide_eq_true; exact Hty).
  rewrite assert_true by exact Hint. reflexivity.
Qed.

Section ComparisonFacts.
Context `{FloatSemantics}.

Lemma eval_cmpi (env : nat -> list Z) (pred : CmpIPredicate) (t : Ty)
    (lhs rhs : Value) :
  eval env (BinaryOp (CmpIOp pred) t lhs rhs)
  = zip_with (fun a b =>
                boolZ (cmpi_lane pred
                         (laneWidth (elementTypeWithVector (getType lhs))) a b))
      (eval env lhs) (eval env rhs).
Proof. reflexivity. Qed.

(** X3: on operands of one type whose element type is an integer or an
    index, [gt], [ge], [lt] and [le] succeed, return a value of type [i1] in
    the shape of the operands, and each lane is 1 exactly when the relation
    holds between the operand lanes read in the signedness of the element
    type: unsigned for an unsigned integer, two's complement otherwise. *)
Theorem compare_reads_signedness (env : nat -> list Z) (lhs rhs : Value)
    (ops : list Operation) :
  getType lhs = getType rhs ->
  isIntegerWithVector (getType lhs) = true ->
  let read := comparedAs (elementTypeWithVector (getType lhs)) in
  comparesBy env (MathBuilderOps.gt lhs rhs) ops lhs rhs read Z.gtb
  /\ comparesBy env (MathBuilderOps.ge lhs rhs) ops lhs rhs read Z.geb
  /\ comparesBy env (MathBuilderOps.lt lhs rhs) ops lhs rhs read Z.ltb
  /\ comparesBy env (MathBuilderOps.le lhs rhs) ops lhs rhs read Z.leb.
Proof.
  intros Hty Hint read. unfold comparesBy.
  unfold MathBuilderOps.gt, MathBuilderOps.ge, MathBuilderOps.lt, MathBuilderOps.le,
    MathBuilderOps.ugt, MathBuilderOps.uge, MathBuilderOps.ult, MathBuilderOps.ule,
    MathBuilderOps.sgt, MathBuilderOps.sge, MathBuilderOps.slt, MathBuilderOps.sle.
  unfold read, comparedAs, isUnsignedIntegerWithVector.
  destruct (isUnsignedInteger (elementTypeWithVector (getType lhs))) eqn:Hu;
    rewrite !assert_true by (apply bool_decide_eq_true; exact Hty);
    rewrite ?Hint; unfold isUnsignedIntegerWithVector; rewrite ?Hu;
    rewrite !createArithCmpI_run by assumption;
    repeat split; eexists _, _; (split; [reflexivity |]); (split; [reflexivity |]);
    rewrite eval_cmpi; apply zip_with_ext; try reflexivity; intros a b;
    cbn [cmpi_lane]; f_equal;
    rewrite ?Z.gtb_ltb, ?Z.geb_leb; reflexivity.
Qed.

(** X4: the signed comparisons do not look at the signedness of the type: on
    operands of one unsigned integer type [sgt], [sge], [slt] and [sle] succeed
    and compare the lanes in two's complement, so a [ui8] holding 200 is
    below one holding 100; and on operands that are not unsigned [ugt], [uge],
    [ult] and [ule] are a fatal stop. *)
Theorem signed_comparisons_ignore_unsignedness (env : nat -> list Z)
    (lhs rhs : Value) (ops : list Operation) :
  getType lhs = getType rhs ->
  (forall w, elementTypeWithVector (getType lhs) = IntegerType w Unsigned ->
     comparesBy env (MathBuilderOps.sgt lhs rhs) ops lhs rhs (signed_value w) Z.gtb
     /\ comparesBy env (MathBuilderOps.sge lhs rhs) ops lhs rhs (signed_value w) Z.geb
     /\ comparesBy env (MathBuilderOps.slt lhs rhs) ops lhs rhs (signed_value w) Z.ltb
     /\ comparesBy env (MathBuilderOps.sle lhs rhs) ops lhs rhs (signed_value w) Z.leb)
  /\ (isUnsignedIntegerWithVector (getType lhs) = false ->
      MathBuilderOps.ugt lhs rhs ops = None
      /\ MathBuilderOps.uge lhs rhs ops = None
      /\ MathBuilderOps.ult lhs rhs ops = None
      /\ MathBuilderOps.ule lhs rhs ops = None).
Proof.
  intros Hty. split.
  - intros w He.
    assert (Hint : isIntegerWithVector (getType lhs) = true)
      by (unfold isIntegerWithVector; rewrite He; reflexivity).
    unfold comparesBy, MathBuilderOps.sgt, MathBuilderOps.sge, MathBuilderOps.slt,
      MathBuilderOps.sle.
    rewrite !assert_true by (apply bool_decide_eq_true; exact Hty).
    rewrite Hint. rewrite !createArithCmpI_run by assumption.
    repeat split; eexists _, _; (split; [reflexivity |]); (split; [reflexivity |]);
      rewrite eval_cmpi, He; apply zip_with_ext; try reflexivity; intros a b;
      cbn [cmpi_lane laneWidth]; f_equal;
      rewrite ?Z.gtb_ltb, ?Z.geb_leb; reflexivity.
  - intros Hu.
    unfold MathBuilderOps.ugt, MathBuilderOps.uge, MathBuilderOps.ult,
      MathBuilderOps.ule.
    rewrite !assert_true by (apply bool_decide_eq_true; exact Hty).
    rewrite Hu. repeat split; reflexivity.
Qed.

(** X5: on operands of one type whose element type is an integer or an
    index, [eq] and [neq] succeed and compare the bit patterns of the lanes,
    whatever the signedness: a lane of [eq] is 1 exactly when the operand
    lanes agree modulo [2 ^ width], and [neq] is its negation. *)
Theorem eq_neq_compare_bits (env : nat -> list Z) (lhs rhs : Value)
    (ops : list Operation) :
  getType lhs = getType rhs ->
  isIntegerWithVector (getType lhs) = true ->
  let w := laneWidth (elementTypeWithVector (getType lhs)) in
  comparesBy env (MathBuilderOps.eq lhs rhs) ops lhs rhs (unsigned_value w) Z.eqb
  /\ comparesBy env (MathBuilder.neq lhs rhs) ops lhs rhs (unsigned_value w)
       (fun a b => negb (a =? b)).
Proof.
  intros Hty Hint w. unfold comparesBy, MathBuilderOps.eq, MathBuilder.neq.
  rewrite !assert_true by (apply bool_decide_eq_true; exact Hty).
  rewrite Hint. rewrite !createArithCmpI_run by assumption.
  split; eexists _, _; (split; [reflexivity |]); (split; [reflexivity |]);
    rewrite eval_cmpi; reflexivity.
Qed.

End ComparisonFacts.

(** [ui8] scalars holding 200 and 100: [gt] says 200 > 100. *)
Lemma compare_reads_signedness_witness :
  let lhs := BlockArgument 0 (IntegerType 8 Unsigned) in
  let rhs := BlockArgument 1 (IntegerType 8 Unsigned) in
  exists r ops',
    MathBuilderOps.gt lhs rhs [] = Some (r, ops')
    /\ @eval noFloats (argumentLanes [[200]; [100]]) r = [1].
Proof.
  intros lhs rhs.
  destruct (@compare_reads_signedness noFloats (argumentLanes [[200]; [100]])
              lhs rhs [] eq_refl eq_refl) as ((r & ops' & Hrun & _ & Hev) & _).
  exists r, ops'. split; [exact Hrun | exact Hev].
Defined.

(** The same [ui8] scalars: [sgt] reads 200 as -56 and says it is not above
    100. *)
Lemma signed_comparisons_ignore_unsignedness_witness :
  let lhs := BlockArgument 0 (IntegerType 8 Unsigned) in
  let rhs := BlockArgument 1 (IntegerType 8 Unsigned) in
  exists r ops',
    MathBuilderOps.sgt lhs rhs [] = Some (r, ops')
    /\ @eval noFloats (argumentLanes [[200]; [100]]) r = [0].
Proof.
  intros lhs rhs.
  destruct (@signed_comparisons_ignore_unsignedness noFloats
              (argumentLanes [[200]; [100]]) lhs rhs [] eq_refl) as [Hs _].
  destruct (Hs 8 eq_refl) as ((r & ops' & Hrun & _ & Hev) & _).
  exists r, ops'. split; [exact Hrun | exact Hev].
Defined.

(** Two [si8] scalars holding -1 (bits 255): equal. *)
Lemma eq_neq_compare_bits_witness :
  let lhs := BlockArgument 0 (IntegerType 8 Signed) in
  let rhs := BlockArgument 1 (IntegerType 8 Signed) in
  exists r ops',
    MathBuilderOps.eq lhs rhs [] = Some (r, ops')
    /\ @eval noFloats (argumentLanes [[255]; [255]]) r = [1].
Proof.
  intros lhs rhs.
  destruct (@eq_neq_compare_bits noFloats (argumentLanes [[255]; [255]])
              lhs rhs [] eq_refl eq_refl) as ((r & ops' & Hrun & _ & Hev) & _).
  exists r, ops'. split; [exact Hrun | exact Hev].
Defined.

(** ** Unsigned division *)

Lemma zip_with_pointwise {A B C : Type} (P : A -> B -> Prop) (f g : A -> B -> C)
    (l : list A) (k : list B) :
  Forall2 P l k -> (forall a b, P a b -> f a b = g a b) ->
  zip_with f l k = zip_with g l k.
Proof.
  intros HP Hfg. induction HP as [| a b l k Hab _ IH]; [reflexivity |].
  cbn [zip_with]. rewrite IH, (Hfg a b Hab). reflexivity.
Qed.

Lemma zip_with_nested {A B C D E : Type} (f : C -> D -> E) (d : A -> B -> C)
    (r : A -> B -> D) (l : list A) (k : list B) :
  zip_with f (zip_with d l k) (zip_with r l k)
  = zip_with (fun a b => f (d a b) (r a b)) l k.
Proof.
  revert k. induction l as [| a l IH]; intros [| b k]; try reflexivity.
  cbn [zip_with]. rewrite IH. reflexivity.
Qed.

Lemma zip_with_left {A B C D : Type} (f : C -> B -> D) (d : A -> B -> C)
    (l : list A) (k : list B) :
  zip_with f (zip_with d l k) k = zip_with (fun a b => f (d a b) b) l k.
Proof.
  revert k. induction l as [| a l IH]; intros [| b k]; try reflexivity.
  cbn [zip_with]. rewrite IH. reflexivity.
Qed.

Lemma zip_with_fst_same_length {A B : Type} (l : list A) (k : list B) :
  length l = length k -> zip_with (fun a _ => a) l k = l.
Proof.
  revert k. induction l as [| a l IH]; intros [| b k] Hlen; try reflexivity;
    try discriminate Hlen.
  cbn [zip_with]. rewrite IH by (cbn in Hlen; lia). reflexivity.
Qed.

Lemma ceil_quotient (a b : Z) :
  0 <= a -> 0 < b ->
  - ((- a) / b) = a / b + boolZ (negb (a mod b =? 0))
  /\ - ((- a) / b) = (a + b - 1) / b.
Proof.
  intros Ha Hb.
  pose proof (Z.div_mod a b ltac:(lia)) as Hdm.
  pose proof (Z.mod_pos_bound a b Hb) as Hr.
  destruct (Z.eqb_spec (a mod b) 0) as [Hz | Hnz]; cbn [negb boolZ].
  - assert (Hq : (- a) / b = - (a / b))
      by (symmetry; apply (Z.div_unique (- a) b (- (a / b)) 0); lia).
    split; [lia |].
    rewrite Hq.
    replace (- - (a / b)) with (a / b) by lia.
    apply (Z.div_unique (a + b - 1) b (a / b) (b - 1)); lia.
  - assert (Hq : (- a) / b = - (a / b) - 1)
      by (symmetry;
          apply (Z.div_unique (- a) b (- (a / b) - 1) (b - a mod b)); lia).
    split; [lia |].
    rewrite Hq.
    replace (- (- (a / b) - 1)) with (a / b + 1) by lia.
    apply (Z.div_unique (a + b - 1) b (a / b + 1) (a mod b - 1)); lia.
Qed.

Lemma ceilDiv_unsigned_run (lhs rhs : Value) (width : Z) ops :
  getType lhs = getType rhs ->
  elementTypeWithVector (getType lhs) = IntegerType width Unsigned ->
  MathBuilderOps.ceilDiv lhs rhs ops
  = Some (BinaryOp CeilDivUIOp (getType lhs) lhs rhs,
          ops ++ [OpWithResult (BinaryOp CeilDivUIOp (getType lhs) lhs rhs)]).
Proof.
  intros Hty He. unfold MathBuilderOps.ceilDiv.
  rewrite assert_true by (apply bool_decide_eq_true; exact Hty).
  unfold isUnsignedIntegerWithVector. rewrite He. reflexivity.
Qed.

Section DivisionFacts.
Context `{FloatSemantics}.

(** X6: for unsigned operands of one type whose lanes are [w]-bit patterns,
    the divisor's not zero, [add(mul(div(a, b), b), rem(a, b))] succeeds and
    gives back [a], lane by lane: the unsigned quotient and remainder that
    [div] and [rem] create fit the wrap-around product and sum that [mul] and
    [add] emulate. *)
Theorem unsigned_division_round_trip (env : nat -> list Z) (a b : Value)
    (w : Z) (ops : list Operation) :
  0 < w ->
  getType a = getType b ->
  elementTypeWithVector (getType a) = IntegerType w Unsigned ->
  Forall2 (fun x y => 0 <= x < 2 ^ w /\ 0 < y < 2 ^ w) (eval env a) (eval env b) ->
  exists r ops',
    quotientTimesDivisorPlusRemainder a b ops = Some (r, ops')
    /\ getType r = getType a
    /\ eval env r = eval env a.
Proof.
  intros Hw Hty He Hlanes. unfold quotientTimesDivisorPlusRemainder.
  destruct (binary_unsigned_run a b w ops Hty He) as (_ & Hdiv & _).
  rewrite (bind_Some _ _ _ _ _ Hdiv).
  set (q := BinaryOp DivUIOp (getType a) a b).
  assert (Hqty : getType q = getType b) by exact Hty.
  assert (Hqe : elementTypeWithVector (getType q) = IntegerType w Unsigned) by exact He.
  rewrite (bind_Some _ _ _ _ _ (mul_unsigned_run q b w _ Hqty Hqe)).
  set (p := unsignedEmulation MulUIExtendedOp_Low q b w).
  destruct (binary_unsigned_run a b w
              ((ops ++ [OpWithResult q])
               ++ unsignedEmulationOps MulUIExtendedOp_Low q b w) Hty He)
    as (_ & _ & Hrem & _).
  rewrite (bind_Some _ _ _ _ _ Hrem).
  set (r := BinaryOp RemUIOp (getType a) a b).
  assert (Hpty : getType p = getType r)
    by (unfold p; rewrite unsignedEmulation_type by exact Hqe; reflexivity).
  assert (Hpe : elementTypeWithVector (getType p) = IntegerType w Unsigned)
    by (rewrite Hpty; exact He).
  rewrite (add_unsigned_run p r w _ Hpty Hpe).
  eexists _, _. split; [reflexivity |]. split.
  - rewrite unsignedEmulation_type by exact Hpe. exact Hpty.
  - rewrite eval_unsignedEmulation. unfold p. rewrite eval_unsignedEmulation.
    unfold q, r. cbn [eval]. rewrite He.
    rewrite zip_with_left, zip_with_nested.
    etransitivity;
      [| apply (zip_with_fst_same_length (eval env a) (eval env b));
         eapply Forall2_length; exact Hlanes].
    apply (zip_with_pointwise _ _ _ _ _ Hlanes).
    intros x y [Hx Hy]. cbn [binary_lane laneWidth getIntegerType].
    unfold unsigned_value. rewrite !land_ones_mod by lia.
    rewrite !(Z.mod_small x), !(Z.mod_small y) by lia.
    pose proof (Z.div_mod x y ltac:(lia)) as Hdm.
    pose proof (Z.mod_pos_bound x y ltac:(lia)) as Hr.
    repeat first [rewrite Zmult_mod_idemp_l | rewrite Zplus_mod_idemp_l
                 | rewrite Zplus_mod_idemp_r].
    replace (x / y * y + x mod y) with x by lia.
    apply Z.mod_small. lia.
Qed.

(** X7: for unsigned operands of one type whose lanes are [w]-bit patterns,
    the divisor's not zero, [ceilDiv] succeeds and rounds the quotient up:
    each lane is the lane of [div] plus one when the lane of [rem] is not
    zero, which is [(a + b - 1) / b]. *)
Theorem ceilDiv_unsigned_rounds_up (env : nat -> list Z) (a b : Value)
    (w : Z) (ops : list Operation) :
  0 < w ->
  getType a = getType b ->
  elementTypeWithVector (getType a) = IntegerType w Unsigned ->
  Forall2 (fun x y => 0 <= x < 2 ^ w /\ 0 < y < 2 ^ w) (eval env a) (eval env b) ->
  exists q r c ops',
    quotientRemainderCeiling a b ops = Some ((q, r, c), ops')
    /\ getType c = getType a
    /\ eval env c
       = zip_with (fun x y => x + boolZ (negb (y =? 0))) (eval env q) (eval env r)
    /\ eval env c = zip_with (fun x y => (x + y - 1) / y) (eval env a) (eval env b).
Proof.
  intros Hw Hty He Hlanes. unfold quotientRemainderCeiling.
  destruct (binary_unsigned_run a b w ops Hty He) as (_ & Hdiv & _).
  rewrite (bind_Some _ _ _ _ _ Hdiv).
  destruct (binary_unsigned_run a b w
              (ops ++ [OpWithResult (BinaryOp DivUIOp (getType a) a b)]) Hty He)
    as (_ & _ & Hrem & _).
  rewrite (bind_Some _ _ _ _ _ Hrem).
  rewrite (bind_Some _ _ _ _ _ (ceilDiv_unsigned_run a b w _ Hty He)).
  eexists _, _, _, _. split; [reflexivity |]. split; [reflexivity |].
  cbn [eval]. rewrite He, zip_with_nested.
  split; apply (zip_with_pointwise _ _ _ _ _ Hlanes); intros x y [Hx Hy];
    cbn [binary_lane laneWidth]; unfold unsigned_value;
    rewrite !(Z.mod_small x), !(Z.mod_small y) by lia;
    apply ceil_quotient; lia.
Qed.

End DivisionFacts.

(** [ui8] scalars holding 200 and 7: [200 / 7 * 7 + 200 % 7] is 200 again. *)
Lemma unsigned_division_round_trip_witness :
  let a := BlockArgument 0 (IntegerType 8 Unsigned) in
  let b := BlockArgument 1 (IntegerType 8 Unsigned) in
  exists r ops',
    quotientTimesDivisorPlusRemainder a b [] = Some (r, ops')
    /\ @eval noFloats (argumentLanes [[200]; [7]]) r = [200].
Proof.
  intros a b.
  destruct (@unsigned_division_round_trip noFloats (argumentLanes [[200]; [7]])
              a b 8 [] ltac:(lia) eq_refl eq_refl
              ltac:(repeat constructor; lia))
    as (r & ops' & Hrun & _ & Hev).
  exists r, ops'. split; [exact Hrun | exact Hev].
Defined.

(** [ui8] scalars holding 200 and 7: the quotient 28 is rounded up to 29. *)
Lemma ceilDiv_unsigned_rounds_up_witness :
  let a := BlockArgument 0 (IntegerType 8 Unsigned) in
  let b := BlockArgument 1 (IntegerType 8 Unsigned) in
  exists q r c ops',
    quotientRemainderCeiling a b [] = Some ((q, r, c), ops')
    /\ @eval noFloats (argumentLanes [[200]; [7]]) c = [29].
Proof.
  intros a b.
  destruct (@ceilDiv_unsigned_rounds_up noFloats (argumentLanes [[200]; [7]])
              a b 8 [] ltac:(lia) eq_refl eq_refl
              ltac:(repeat constructor; lia))
    as (q & r & c & ops' & Hrun & _ & _ & Hev).
  exists q, r, c, ops'. split; [exact Hrun | exact Hev].
Defined.

(** ** Constants *)

Lemma APInt_mod (w val : Z) : 0 <= w <= 64 -> APInt w val = val mod 2 ^ w.
Proof.
  intros Hw. unfold APInt.
  replace (2 ^ 64) with (2 ^ w * 2 ^ (64 - w))
    by (rewrite <- Z.pow_add_r by lia; f_equal; lia).
  assert (0 < 2 ^ w) by (apply Z.pow_pos_nonneg; lia).
  assert (0 < 2 ^ (64 - w)) by (apply Z.pow_pos_nonneg; lia).
  rewrite Z.rem_mul_r by lia.
  rewrite Z.mul_comm, Z.mod_add by lia. apply Z.mod_mod. lia.
Qed.

Section ConstantFacts.
Context `{FloatSemantics}.

Lemma constant_signless_run (env : nat -> list Z) (type : Ty) (w val : Z)
    (ops : list Operation) :
  elementTypeWithVector type = IntegerType w Signless ->
  1 < w <= 64 ->
  int64_range val ->
  exists r ops',
    MathBuilder.constant type val ops = Some (r, ops')
    /\ eval env r = replicate (Z.to_nat (numElements type)) (val mod 2 ^ w)
    /\ getType r = type.
Proof.
  intros He Hw Hval. apply eqb_to_int64 in Hval.
  destruct (elementType_cases type _ He eq_refl) as [-> | [shape ->]];
    unfold MathBuilder.constant;
    cbn [elementTypeWithVector dyn_cast_VectorType isa_VectorType numElements
         isUnsignedInteger];
    rewrite Hval;
    rewrite bool_decide_eq_false_2 by lia;
    eexists _, _; (split; [reflexivity |]);
    cbn [eval attrBits head default]; rewrite APInt_mod by lia;
    split; reflexivity.
Qed.

(** X8: for a type whose element type is an integer of width [w] between 1
    and 64 and a [val] in the range of [int64_t] (the assertion of the
    integer case), [constant(type, val)] succeeds and every lane of the
    result (one for a scalar, the number of elements for a vector, which is
    splatted) holds [val] modulo [2 ^ w], or, for a boolean, whether [val] is
    not zero.  The result has the requested type, except for a scalar [si1]
    or [ui1], which gets the signless [i1] of the boolean attribute. *)
Theorem constant_integer_lanes (env : nat -> list Z) (type : Ty) (w : Z)
    (s : SignednessSemantics) (val : Z) (ops : list Operation) :
  elementTypeWithVector type = IntegerType w s ->
  1 <= w <= 64 ->
  int64_range val ->
  exists r ops',
    MathBuilder.constant type val ops = Some (r, ops')
    /\ eval env r = replicate (Z.to_nat (numElements type)) (constantBits w val)
    /\ (w <> 1 \/ s = Signless \/ isa_VectorType type = true -> getType r = type)
    /\ (w = 1 -> isa_VectorType type = false -> getType r = IntegerType 1 Signless).
Proof.
  intros He Hw Hval. apply eqb_to_int64 in Hval.
  destruct (elementType_cases type _ He eq_refl) as [-> | [shape ->]];
    unfold MathBuilder.constant, constantBits;
    cbn [elementTypeWithVector dyn_cast_VectorType isa_VectorType numElements];
    rewrite Hval;
    case_bool_decide as Hw1.
  - eexists _, _. split; [reflexivity |]. split; [reflexivity |]. split.
    + intros [Hne | [-> | Hv]]; [lia | subst w; reflexivity | discriminate Hv].
    + reflexivity.
  - destruct s; cbn [isUnsignedInteger].
    + eexists _, _. split; [reflexivity |].
      cbn [eval attrBits]. rewrite APInt_mod by lia.
      split; [reflexivity |]. split; [reflexivity | lia].
    + eexists _, _. split; [reflexivity |].
      cbn [eval attrBits]. rewrite APInt_mod by lia.
      split; [reflexivity |]. split; [reflexivity | lia].
    + unfold MathBuilder.castToUnsigned, create, bind, assert, ret.
      cbn [getType attrType getIntegerType elementTypeWithVector dyn_cast_VectorType
           isa_IntegerType getTypeWithVector].
      eexists _, _. split; [reflexivity |].
      rewrite eval_reinterpret. cbn [eval attrBits]. rewrite APInt_mod by lia.
      split; [reflexivity |]. split; [reflexivity | lia].
  - eexists _, _. split; [reflexivity |]. cbn [eval attrBits head default].
    split; [reflexivity |]. split; [reflexivity | discriminate].
  - destruct s; cbn [isUnsignedInteger].
    + eexists _, _. split; [reflexivity |].
      cbn [eval attrBits head default]. rewrite APInt_mod by lia.
      split; [reflexivity |]. split; [reflexivity | discriminate].
    + eexists _, _. split; [reflexivity |].
      cbn [eval attrBits head default]. rewrite APInt_mod by lia.
      split; [reflexivity |]. split; [reflexivity | discriminate].
    + unfold MathBuilder.castToUnsigned, create, bind, assert, ret, splat.
      cbn [getType attrType getIntegerType elementTypeWithVector dyn_cast_VectorType
           isa_IntegerType getTypeWithVector].
      eexists _, _. split; [reflexivity |].
      cbn [eval attrBits head default unary_lane fmap list_fmap].
      rewrite APInt_mod by lia.
      split; [reflexivity |]. split; [reflexivity | discriminate].
Qed.


End ConstantFacts.



(** The [vector<4xui8>] constant 300: four lanes holding 44. *)
Lemma constant_integer_lanes_witness :
  exists r ops',
    MathBuilder.constant (VectorType [4] (IntegerType 8 Unsigned)) 300 [] = Some (r, ops')
    /\ @eval noFloats (argumentLanes []) r = [44; 44; 44; 44]
    /\ getType r = VectorType [4] (IntegerType 8 Unsigned).
Proof.
  destruct (@constant_integer_lanes noFloats (argumentLanes [])
              (VectorType [4] (IntegerType 8 Unsigned)) 8 Unsigned 300 []
              eq_refl ltac:(lia) ltac:(unfold int64_range; lia))
    as (r & ops' & Hrun & Hev & Hty & _).
  exists r, ops'. split; [exact Hrun |]. split; [exact Hev |].
  apply Hty. left. lia.
Defined.

(** ** Casts from and to booleans *)

Lemma cast_prelude (destType : Ty) (src : Value) (ops : list Operation)
    (k : Ty * Ty * Value -> Builder Value) :
  isa_VectorType (getType src) = isa_VectorType destType ->
  getType src <> destType ->
  isa_IndexType (elementTypeWithVector (getType src)) = false ->
  (assert ((non_null (dyn_cast_VectorType (getType src))
            && non_null (dyn_cast_VectorType destType))
           || (negb (non_null (dyn_cast_VectorType (getType src)))
               && negb (non_null (dyn_cast_VectorType destType)))) ;;;
   if bool_decide (getType src = destType) then ret src else
   st <- (if isa_IndexType (elementTypeWithVector (getType src)) then
            let srcElemType := getIntegerType 64 in
            let srcType :=
              getTypeWithVector (dyn_cast_VectorType (getType src)) srcElemType in
            src <- create (UnaryOp IndexCastOp srcType src) ;;
            ret (srcElemType, srcType, src)
          else ret (elementTypeWithVector (getType src), getType src, src)) ;;
   k st) ops
  = k (elementTypeWithVector (getType src), getType src, src) ops.
Proof.
  intros Hshape Hne Hidx.
  rewrite assert_true
    by (destruct (getType src), destType; try reflexivity; discriminate Hshape).
  rewrite bool_decide_eq_false_2 by exact Hne.
  rewrite Hidx. reflexivity.
Qed.

Section BooleanCastFacts.
Context `{FloatSemantics}.

(** X10: a value whose element type is a boolean (an integer of width 1, of
    any signedness) is cast to an integer type of a width above 1 or to
    [index], scalar to scalar or vector to vector, by zero extension, never
    by sign extension: the result has the destination type and each lane is
    the source lane modulo 2, so [true] becomes 1. *)
Theorem cast_boolean_zero_extends (env : nat -> list Z) (destType : Ty)
    (src : Value) (s : SignednessSemantics) (ops : list Operation) :
  elementTypeWithVector (getType src) = IntegerType 1 s ->
  (exists dw ds, elementTypeWithVector destType = IntegerType dw ds /\ 1 < dw)
  \/ elementTypeWithVector destType = IndexType ->
  isa_VectorType (getType src) = isa_VectorType destType ->
  exists r ops',
    MathBuilder.cast destType src ops = Some (r, ops')
    /\ getType r = destType
    /\ eval env r = (fun a => a mod 2) <$> eval env src.
Proof.
  intros He Hd Hshape.
  assert (Hne : getType src <> destType).
  { intros Heq. rewrite Heq in He.
    destruct Hd as [(dw & ds & Hd & Hdw) | Hd]; rewrite Hd in He;
      [injection He as ? ?; lia | discriminate He]. }
  unfold MathBuilder.cast.
  rewrite cast_prelude by (try assumption; rewrite He; reflexivity).
  rewrite He. cbn [isa_IntegerType isa_FloatType orb isInteger getIntOrFloatBitWidth].
  rewrite assert_true by reflexivity.
  rewrite bool_decide_eq_true_2 by reflexivity.
  destruct Hd as [(dw & ds & Hd & Hdw) | Hd]; rewrite Hd;
    cbn [isa_IndexType isa_IntegerType isa_FloatType orb];
    rewrite assert_true by reflexivity.
  - eexists _, _. split; [reflexivity |]. split; [reflexivity |].
    cbn [eval]. rewrite He. reflexivity.
  - eexists _, _. split; [reflexivity |]. split; [reflexivity |].
    cbn [eval getType]. rewrite He.
    rewrite elementType_getTypeWithVector by reflexivity.
    rewrite Hd. rewrite <- list_fmap_compose. apply list_fmap_ext.
    intros i a _. cbn [compose unary_lane laneWidth getIntegerType unsigned_value].
    unfold unsigned_value, signed_value. change (2 ^ 1) with 2.
    pose proof (Z.mod_pos_bound a 2 ltac:(lia)) as Ha.
    rewrite (Z.mod_small (a mod 2) (2 ^ 64)) by lia.
    rewrite (proj2 (Z.ltb_lt _ _)) by lia.
    apply Z.mod_small. lia.
Qed.

(** X11: a value whose element type is an integer of a width [sw] between 2
    and 64, of any signedness, is cast to a boolean type, scalar to scalar or
    vector to vector, by comparing it with the zero constant of its signless
    type: each lane of the result is 1 exactly when the source lane is not
    zero modulo [2 ^ sw].  The result is the signless [i1] in the shape of
    the source, whatever the signedness and the shape of the destination. *)
Theorem cast_to_boolean_tests_nonzero (env : nat -> list Z) (destType : Ty)
    (src : Value) (sw : Z) (ss ds : SignednessSemantics) (ops : list Operation) :
  elementTypeWithVector (getType src) = IntegerType sw ss ->
  1 < sw <= 64 ->
  elementTypeWithVector destType = IntegerType 1 ds ->
  isa_VectorType (getType src) = isa_VectorType destType ->
  length (eval env src) = Z.to_nat (numElements (getType src)) ->
  exists r ops',
    MathBuilder.cast destType src ops = Some (r, ops')
    /\ getType r
       = getTypeWithVector (dyn_cast_VectorType (getType src)) (IntegerType 1 Signless)
    /\ eval env r = (fun a => boolZ (negb (a mod 2 ^ sw =? 0))) <$> eval env src.
Proof.
  intros He Hsw Hd Hshape Hlen.
  assert (Hne : getType src <> destType).
  { intros Heq. rewrite Heq in He. rewrite Hd in He. injection He as ? ?. lia. }
  unfold MathBuilder.cast.
  rewrite cast_prelude by (try assumption; rewrite He; reflexivity).
  rewrite He, Hd.
  cbn [isa_IndexType isa_IntegerType isa_FloatType orb andb isInteger
       getIntOrFloatBitWidth getWidth].
  rewrite !assert_true by reflexivity.
  rewrite bool_decide_eq_false_2 by lia.
  rewrite bool_decide_eq_true_2 by reflexivity.
  set (constantType :=
         getTypeWithVector (dyn_cast_VectorType (getType src)) (getIntegerType sw)).
  assert (Hce : elementTypeWithVector constantType = IntegerType sw Signless)
    by (apply elementType_getTypeWithVector; reflexivity).
  assert (Hcn : numElements constantType = numElements (getType src))
    by (unfold constantType; destruct (getType src); reflexivity).
  assert (Hrun : exists src' ops1,
            (if negb (isSignlessInteger (IntegerType sw ss))
             then
               src0 <- MathBuilder.castToSignless src sw ;;
               ret (constantType, src0)
             else ret (getType src, src)) ops = Some ((constantType, src'), ops1)
            /\ getType src' = constantType
            /\ eval env src' = eval env src).
  { destruct ss; cbn [isSignlessInteger negb].
    - exists src, ops. split; [| split; [| reflexivity]].
      + unfold ret. do 2 f_equal. f_equal. symmetry.
        apply getTypeWithVector_same; [exact He | reflexivity].
      + symmetry. apply getTypeWithVector_same; [exact He | reflexivity].
    - rewrite (bind_Some _ _ _ _ _ (castToSignless_run src sw ops
                 ltac:(rewrite He; reflexivity) ltac:(rewrite He; reflexivity))).
      eexists _, _. split; [reflexivity |]. split; [reflexivity |].
      apply eval_reinterpret.
    - rewrite (bind_Some _ _ _ _ _ (castToSignless_run src sw ops
                 ltac:(rewrite He; reflexivity) ltac:(rewrite He; reflexivity))).
      eexists _, _. split; [reflexivity |]. split; [reflexivity |].
      apply eval_reinterpret. }
  destruct Hrun as (src' & ops1 & Hrun & Hty' & Hev').
  rewrite (bind_Some _ _ _ _ _ Hrun).
  destruct (constant_signless_run env constantType sw 0 ops1 Hce ltac:(lia)
              ltac:(unfold int64_range; lia))
    as (zero & ops2 & Hzero & Hzev & Hzty).
  rewrite (bind_Some _ _ _ _ _ Hzero).
  unfold MathBuilder.neq.
  rewrite assert_true by (apply bool_decide_eq_true; congruence).
  assert (Hint : isIntegerWithVector (getType src') = true)
    by (unfold isIntegerWithVector; rewrite Hty', Hce; reflexivity).
  rewrite Hint.
  rewrite createArithCmpI_run by (try assumption; congruence).
  eexists _, _. split; [reflexivity |]. split.
  - cbn [getType]. unfold MathBuilder.cmpResultType. rewrite Hty'.
    unfold constantType.
    destruct (getTypeWithVector_twice (getType src) (getIntegerType sw)
                (IntegerType 1 Signless)) as [-> | Hv]; [reflexivity | discriminate Hv].
  - rewrite eval_cmpi, Hzev, Hev', Hty', Hce, Hcn.
    rewrite zip_with_replicate_r_eq by exact Hlen.
    apply list_fmap_ext. intros i a _.
    unfold flip. cbn [cmpi_lane laneWidth]. unfold unsigned_value.
    rewrite (Z.mod_0_l (2 ^ sw)) by (apply Z.pow_nonzero; lia).
    rewrite (Z.mod_0_l (2 ^ sw)) by (apply Z.pow_nonzero; lia).
    reflexivity.
Qed.

End BooleanCastFacts.

(** The boolean [true] cast to [i32] is 1. *)
Lemma cast_boolean_zero_extends_witness :
  exists r ops',
    MathBuilder.cast (IntegerType 32 Signless)
      (BlockArgument 0 (IntegerType 1 Signless)) [] = Some (r, ops')
    /\ getType r = IntegerType 32 Signless
    /\ @eval noFloats (argumentLanes [[1]]) r = [1].
Proof.
  destruct (@cast_boolean_zero_extends noFloats (argumentLanes [[1]])
              (IntegerType 32 Signless) (BlockArgument 0 (IntegerType 1 Signless))
              Signless [] eq_refl
              ltac:(left; exists 32, Signless; split; [reflexivity | lia]) eq_refl)
    as (r & ops' & Hrun & Hty & Hev).
  exists r, ops'. split; [exact Hrun |]. split; [exact Hty | exact Hev].
Defined.

(** A [vector<4xsi8>] cast to [vector<4xi1>]: the lanes that are not zero
    become 1. *)
Lemma cast_to_boolean_tests_nonzero_witness :
  exists r ops',
    MathBuilder.cast (VectorType [4] (IntegerType 1 Signless))
      (BlockArgument 0 (VectorType [4] (IntegerType 8 Signed))) [] = Some (r, ops')
    /\ getType r = VectorType [4] (IntegerType 1 Signless)
    /\ @eval noFloats (argumentLanes [[0; 1; 255; 0]]) r = [0; 1; 1; 0].
Proof.
  destruct (@cast_to_boolean_tests_nonzero noFloats (argumentLanes [[0; 1; 255; 0]])
              (VectorType [4] (IntegerType 1 Signless))
              (BlockArgument 0 (VectorType [4] (IntegerType 8 Signed)))
              8 Signed Signless [] eq_refl ltac:(lia) eq_refl eq_refl eq_refl)
    as (r & ops' & Hrun & Hty & Hev).
  exists r, ops'. split; [exact Hrun |]. split; [exact Hty | exact Hev].
Defined.

(** ** Casts to the index type, and the casts that stop *)

Section IndexCastFacts.
Context `{FloatSemantics}.

(** X12: [castToIndex] of a scalar integer of a width between 2 and 64 whose
    lane is a [sw]-bit pattern gives the number the source type reads in it,
    as a 64-bit pattern: a signed or signless source is sign-extended (or
    taken as it is at 64 bits) and cast to [index]; an unsigned source is
    reinterpreted and zero-extended, and the result is then returned as the
    signless [i64], not as an [index]: the unsigned branch of the integer
    conversion has no index cast. *)
Theorem castToIndex_scalar_integer (env : nat -> list Z) (src : Value) (sw a : Z)
    (ss : SignednessSemantics) (ops : list Operation) :
  getType src = IntegerType sw ss ->
  1 < sw <= 64 ->
  eval env src = [a] ->
  0 <= a < 2 ^ sw ->
  exists r ops',
    MathBuilder.castToIndex src ops = Some (r, ops')
    /\ eval env r = [interpret (IntegerType sw ss) a mod 2 ^ 64]
    /\ getType r = (if bool_decide (ss = Unsigned) then IntegerType 64 Signless
                    else IndexType).
Proof.
  intros Hty Hsw Hev Ha.
  unfold MathBuilder.castToIndex, MathBuilder.cast. rewrite Hty.
  cbn [dyn_cast_VectorType non_null elementTypeWithVector andb orb negb].
  rewrite assert_true by reflexivity.
  rewrite bool_decide_eq_false_2 by discriminate.
  cbn [isa_IndexType].
  rewrite bind_Some with (a := (IntegerType sw ss, IntegerType sw ss, src)) (ops' := ops)
    by reflexivity.
  cbn [isa_IntegerType isa_FloatType orb andb isInteger getIntOrFloatBitWidth
       getIntegerType getTypeWithVector].
  rewrite !assert_true by reflexivity.
  rewrite (bool_decide_eq_false_2 (sw = 1)) by lia.
  rewrite (bool_decide_eq_false_2 (64 = 1)) by lia.
  unfold MathBuilder.castToSignless, MathBuilder.castToUnsigned.
  rewrite Hty.
  destruct (Z.ltb_spec sw 64), (Z.ltb_spec 64 sw); try lia;
    case_bool_decide; try lia;
    destruct ss;
    cbn -[Z.pow Z.modulo];
    (eexists; eexists; split; [reflexivity |]);
    cbn -[Z.pow Z.modulo]; rewrite ?Hty; cbn -[Z.pow Z.modulo]; rewrite ?Hev;
    cbn -[Z.pow Z.modulo].
  all: repeat case_bool_decide; try lia; try congruence.
  all: unfold unary_lane, unsigned_value; cbn [laneWidth getIntegerType].
  all: (split; [f_equal | auto]).
  all: rewrite ?signed_value_trunc, ?mod_pow2_mod_pow2 by lia.
  all: rewrite ?signed_value_mod by lia.
  all: rewrite ?(Z.mod_small a (2 ^ sw)) by lia.
  all: rewrite ?(mod_small_wider a sw 64) by lia.
  all: try reflexivity.
  subst sw. reflexivity.
Qed.

End IndexCastFacts.
(** X13: the casts that stop the compiler although source and destination
    differ: a scalar to a vector or back; a float type to another float type
    of the same width ([f16] and [bf16], or the same element type in another
    vector shape), which is neither an extension nor a truncation; a scalar
    unsigned integer to the signed integer of the same width, for the same
    reason, although the signed to unsigned cast and the unsigned to signless
    cast are reinterpretations; and a source whose element type is neither an
    integer, a float nor an index. *)
Theorem cast_fatal_cases (destType : Ty) (src : Value) (ops : list Operation) :
  getType src <> destType ->
  (isa_VectorType (getType src) <> isa_VectorType destType ->
   MathBuilder.cast destType src ops = None)
  /\ (forall k1 k2,
        isa_VectorType (getType src) = isa_VectorType destType ->
        elementTypeWithVector (getType src) = FloatType k1 ->
        elementTypeWithVector destType = FloatType k2 ->
        floatWidth k1 = floatWidth k2 ->
        MathBuilder.cast destType src ops = None)
  /\ (forall w,
        w <> 1 ->
        getType src = IntegerType w Unsigned ->
        destType = IntegerType w Signed ->
        MathBuilder.cast destType src ops = None)
  /\ (isa_VectorType (getType src) = isa_VectorType destType ->
      isa_IntegerType (elementTypeWithVector (getType src))
      || isa_FloatType (elementTypeWithVector (getType src))
      || isa_IndexType (elementTypeWithVector (getType src)) = false ->
      MathBuilder.cast destType src ops = None).
Proof.
  intros Hne. split; [| split; [| split]].
  - intros Hshape. unfold MathBuilder.cast.
    rewrite assert_false; [reflexivity |].
    destruct (getType src), destType; try reflexivity;
      exfalso; apply Hshape; reflexivity.
  - intros k1 k2 Hshape He Hd Hw. unfold MathBuilder.cast.
    rewrite cast_prelude by (try assumption; rewrite He; reflexivity).
    rewrite He, Hd.
    cbn [isa_IndexType isa_IntegerType isa_FloatType orb andb isInteger
         getIntOrFloatBitWidth].
    rewrite !assert_true by reflexivity.
    rewrite Hw, Z.ltb_irrefl. reflexivity.
  - intros w Hw Hty ->. unfold MathBuilder.cast. rewrite Hty.
    cbn [dyn_cast_VectorType non_null elementTypeWithVector andb orb negb].
    rewrite assert_true by reflexivity.
    rewrite bool_decide_eq_false_2 by discriminate.
    cbn [isa_IndexType].
    rewrite bind_Some
      with (a := (IntegerType w Unsigned, IntegerType w Unsigned, src)) (ops' := ops)
      by reflexivity.
    cbn [isa_IntegerType isa_FloatType orb andb isInteger getIntOrFloatBitWidth
         isUnsignedInteger isSignlessInteger].
    rewrite !assert_true by reflexivity.
    rewrite !(bool_decide_eq_false_2 (w = 1)) by exact Hw.
    rewrite Z.ltb_irrefl, andb_false_r. reflexivity.
  - intros Hshape Hkind. apply orb_false_elim in Hkind as [Hkind Hidx].
    unfold MathBuilder.cast.
    rewrite cast_prelude by assumption.
    rewrite assert_false by exact Hkind. reflexivity.
Qed.

(** A [ui8] cannot be cast to [si8]. *)
Lemma cast_fatal_cases_witness :
  MathBuilder.cast (IntegerType 8 Signed) (BlockArgument 0 (IntegerType 8 Unsigned)) []
  = None.
Proof.
  exact (proj1 (proj2 (proj2
           (cast_fatal_cases (IntegerType 8 Signed)
              (BlockArgument 0 (IntegerType 8 Unsigned)) []
              ltac:(discriminate)))) 8 ltac:(lia) eq_refl eq_refl).
Defined.

(** A [ui32] holding [2^32 - 1] cast to index: the value, as an [i64]. *)
Lemma castToIndex_scalar_integer_witness :
  exists r ops',
    MathBuilder.castToIndex (BlockArgument 0 (IntegerType 32 Unsigned)) []
    = Some (r, ops')
    /\ @eval noFloats (argumentLanes [[4294967295]]) r = [4294967295]
    /\ getType r = IntegerType 64 Signless.
Proof.
  destruct (@castToIndex_scalar_integer noFloats (argumentLanes [[4294967295]])
              (BlockArgument 0 (IntegerType 32 Unsigned)) 32 4294967295 Unsigned []
              eq_refl ltac:(lia) eq_refl ltac:(lia))
    as (r & ops' & Hrun & Hev & Hty).
  exists r, ops'. split; [exact Hrun |]. split; [exact Hev | exact Hty].
Defined.
(** ** Casts between floats and unsigned integers *)

(** X14: the float to integer conversion asks the destination type, not its
    element type, whether it is unsigned.  A scalar float cast to the unsigned
    integer of width [w] is converted by [arith.fptoui] to the signless
    integer and reinterpreted as unsigned; a vector of floats cast to a vector
    of the same unsigned integers takes the signed branch instead: one
    [arith.fptosi] whose result type is the unsigned vector type.  The other
    direction asks the element type: an unsigned source, scalar or vector, is
    reinterpreted as signless and converted by [arith.uitofp]. *)
Theorem cast_float_unsigned_conversions (src : Value) (k : FloatKind) (w : Z)
    (ops : list Operation) :
  w <> 1 ->
  (getType src = FloatType k ->
   MathBuilder.cast (IntegerType w Unsigned) src ops
   = Some (unsignedCast (UnaryOp FPToUIOp (getIntegerType w) src) w,
           ops ++ [OpWithResult (UnaryOp FPToUIOp (getIntegerType w) src);
                   OpWithResult
                     (unsignedCast (UnaryOp FPToUIOp (getIntegerType w) src) w)]))
  /\ (forall shape shape',
        getType src = VectorType shape (FloatType k) ->
        MathBuilder.cast (VectorType shape' (IntegerType w Unsigned)) src ops
        = Some (UnaryOp FPToSIOp (VectorType shape' (IntegerType w Unsigned)) src,
                ops ++ [OpWithResult
                          (UnaryOp FPToSIOp
                             (VectorType shape' (IntegerType w Unsigned)) src)]))
  /\ (forall destType,
        elementTypeWithVector (getType src) = IntegerType w Unsigned ->
        elementTypeWithVector destType = FloatType k ->
        isa_VectorType (getType src) = isa_VectorType destType ->
        MathBuilder.cast destType src ops
        = Some (UnaryOp UIToFPOp destType (signlessCast src w),
                ops ++ [OpWithResult (signlessCast src w);
                        OpWithResult (UnaryOp UIToFPOp destType (signlessCast src w))])).
Proof.
  intros Hw. split; [| split].
  - intros Hty. unfold MathBuilder.cast.
    rewrite cast_prelude by (rewrite Hty; try reflexivity; discriminate).
    rewrite Hty.
    cbn [elementTypeWithVector dyn_cast_VectorType isa_IndexType isa_IntegerType
         isa_FloatType orb andb isInteger getIntOrFloatBitWidth isUnsignedInteger].
    rewrite !assert_true by reflexivity.
    rewrite bool_decide_eq_false_2 by exact Hw.
    rewrite (bind_Some _ _ _ _ _ (eq_refl : create _ ops = Some (_, _))).
    rewrite castToUnsigned_run by reflexivity.
    rewrite <- app_assoc. reflexivity.
  - intros shape shape' Hty. unfold MathBuilder.cast.
    rewrite cast_prelude by (rewrite Hty; try reflexivity; discriminate).
    rewrite Hty.
    cbn [elementTypeWithVector dyn_cast_VectorType isa_IndexType isa_IntegerType
         isa_FloatType orb andb isInteger getIntOrFloatBitWidth isUnsignedInteger].
    rewrite !assert_true by reflexivity.
    rewrite bool_decide_eq_false_2 by exact Hw.
    reflexivity.
  - intros destType He Hd Hshape. unfold MathBuilder.cast.
    rewrite cast_prelude;
      [| exact Hshape
       | intros Heq; rewrite Heq, Hd in He; discriminate He
       | rewrite He; reflexivity].
    rewrite He, Hd.
    cbn [isa_IndexType isa_IntegerType isa_FloatType orb andb isInteger
         getIntOrFloatBitWidth isUnsignedInteger].
    rewrite !assert_true by reflexivity.
    rewrite bool_decide_eq_false_2 by exact Hw.
    rewrite (bind_Some _ _ _ _ _ (castToSignless_run src w ops
               ltac:(rewrite He; reflexivity) ltac:(rewrite He; reflexivity))).
    unfold create. rewrite <- app_assoc. reflexivity.
Qed.

(** A [vector<4xf32>] cast to [vector<4xui8>]: one [arith.fptosi]. *)
Lemma cast_float_unsigned_conversions_witness :
  MathBuilder.cast (VectorType [4] (IntegerType 8 Unsigned))
    (BlockArgument 0 (VectorType [4] (FloatType Float32Type))) []
  = Some (UnaryOp FPToSIOp (VectorType [4] (IntegerType 8 Unsigned))
            (BlockArgument 0 (VectorType [4] (FloatType Float32Type))),
          [OpWithResult
             (UnaryOp FPToSIOp (VectorType [4] (IntegerType 8 Unsigned))
                (BlockArgument 0 (VectorType [4] (FloatType Float32Type))))]).
Proof.
  exact (proj1 (proj2
           (cast_float_unsigned_conversions
              (BlockArgument 0 (VectorType [4] (FloatType Float32Type)))
              Float32Type 8 [] ltac:(lia))) [4] [4] eq_refl).
Defined.

(** ** Offsets added to the least significant indices *)

Lemma add_index_run (lhs rhs : Value) (ops : list Operation) :
  getType lhs = IndexType -> getType rhs = IndexType ->
  MathBuilder.add lhs rhs ops
  = Some (BinaryOp AddIOp IndexType lhs rhs,
          ops ++ [OpWithResult (BinaryOp AddIOp IndexType lhs rhs)]).
Proof.
  intros Hl Hr. unfold MathBuilder.add.
  rewrite assert_true by (apply bool_decide_eq_true; congruence).
  rewrite Hl. reflexivity.
Qed.

Lemma length_offsetIndices (indices offsets : list Value) :
  (length offsets <= length indices)%nat ->
  length (offsetIndices indices offsets) = length indices.
Proof.
  intros Hle. unfold offsetIndices.
  rewrite length_app, length_take, length_zip_with, length_drop. lia.
Qed.

Lemma offsetIndices_leading (indices offsets : list Value) (i : nat) :
  (i < length indices - length offsets)%nat ->
  offsetIndices indices offsets !! i = indices !! i.
Proof.
  intros Hi. unfold offsetIndices.
  rewrite lookup_app_l by (rewrite length_take; lia).
  apply lookup_take_lt. lia.
Qed.

Lemma offsetIndices_trailing (indices offsets : list Value) (i : nat)
    (offset index : Value) :
  (length offsets <= length indices)%nat ->
  (length indices - length offsets <= i)%nat ->
  offsets !! (i - (length indices - length offsets))%nat = Some offset ->
  indices !! i = Some index ->
  offsetIndices indices offsets !! i = Some (BinaryOp AddIOp IndexType offset index).
Proof.
  intros Hle Hi Ho Hx. unfold offsetIndices.
  rewrite lookup_app_r by (rewrite length_take; lia).
  rewrite length_take, Nat.min_l by lia.
  rewrite lookup_zip_with, Ho. cbn [mbind option_bind].
  rewrite lookup_drop.
  replace (length indices - length offsets
           + (i - (length indices - length offsets)))%nat with i by lia.
  rewrite Hx. reflexivity.
Qed.

Section OffsetFacts.
Context `{FloatSemantics}.

(** X15: for index-typed indices and offsets, [addOffsetToLeastSignificant]
    succeeds exactly when there are no more offsets than indices.  It then
    returns as many values as there are indices: the leading ones are the
    indices themselves, and each of the last [offsets.size()] is the one
    [arith.addi] of its offset and the index, the only operations created,
    whose lanes are the sums modulo [2 ^ 64].  More offsets than indices is a
    fatal stop. *)
Theorem addOffsetToLeastSignificant_indices (env : nat -> list Z)
    (indices offsets : list Value) (ops : list Operation) :
  Forall (fun v => getType v = IndexType) indices ->
  Forall (fun v => getType v = IndexType) offsets ->
  ((length offsets <= length indices)%nat ->
   MathBuilderOps.addOffsetToLeastSignificant indices offsets ops
   = Some (offsetIndices indices offsets,
           ops ++ (OpWithResult
                     <$> drop (length indices - length offsets)
                           (offsetIndices indices offsets)))
   /\ length (offsetIndices indices offsets) = length indices
   /\ take (length indices - length offsets) (offsetIndices indices offsets)
      = take (length indices - length offsets) indices
   /\ (forall j offset index,
         offsets !! j = Some offset ->
         indices !! (length indices - length offsets + j)%nat = Some index ->
         exists sum,
           offsetIndices indices offsets !! (length indices - length offsets + j)%nat
           = Some sum
           /\ eval env sum
              = zip_with (fun a b => (a + b) mod 2 ^ 64)
                  (eval env offset) (eval env index)))
  /\ ((length indices < length offsets)%nat ->
      MathBuilderOps.addOffsetToLeastSignificant indices offsets ops = None).
Proof.
  intros Hindices Hoffsets. split.
  - intros Hle.
    set (fo := (length indices - length offsets)%nat).
    set (X := offsetIndices indices offsets).
    assert (HX : length X = length indices) by (apply length_offsetIndices; exact Hle).
    split; [| split; [exact HX | split]].
    + unfold MathBuilderOps.addOffsetToLeastSignificant.
      rewrite assert_true by (apply Z.leb_le; lia).
      destruct (for_loop_invariant
        (fun i (s : list Value) ops' =>
           s = take (Z.to_nat i) X
           /\ ops' = ops ++ (OpWithResult <$> drop fo (take (Z.to_nat i) X)))
        0 (Z.of_nat (length indices))
        (fun i computedIndices =>
           index <- at_index indices i ;;
           if i <? Z.of_nat (length indices) - Z.of_nat (length offsets)
           then ret (computedIndices ++ [index])
           else
             offset <- at_index offsets
                         (i - (Z.of_nat (length indices) - Z.of_nat (length offsets))) ;;
             sum <- MathBuilder.add offset index ;;
             ret (computedIndices ++ [sum]))
        (Datatypes.S (Z.to_nat (Z.of_nat (length indices)))) [] ops)
        as (s' & ops' & Hrun & Hs & Hops).
      * lia.
      * lia.
      * split; [reflexivity |]. change (Z.to_nat 0) with 0%nat.
        rewrite take_0, drop_nil. cbn [fmap list_fmap]. rewrite app_nil_r.
        reflexivity.
      * intros i s ops0 Hi [-> ->].
        destruct (lookup_lt_is_Some_2 indices (Z.to_nat i) ltac:(lia)) as [index Hx].
        rewrite (bind_Some _ _ _ _ _ (at_index_run _ _ _ _ Hx)).
        replace (Z.to_nat (i + 1)) with (Datatypes.S (Z.to_nat i)) by lia.
        destruct (Z.ltb_spec i (Z.of_nat (length indices) - Z.of_nat (length offsets)))
          as [Hlead | Htrail].
        -- eexists _, _. split; [reflexivity |].
           assert (HXi : X !! Z.to_nat i = Some index)
             by (unfold X; rewrite offsetIndices_leading by (unfold fo; lia);
                 exact Hx).
           rewrite (take_S_r X (Z.to_nat i) index HXi).
           split; [reflexivity |].
           rewrite !drop_ge by (rewrite ?length_app, length_take; cbn; unfold fo; lia).
           reflexivity.
        -- destruct (lookup_lt_is_Some_2 offsets
                       (Z.to_nat (i - (Z.of_nat (length indices)
                                       - Z.of_nat (length offsets)))) ltac:(lia))
             as [offset Ho].
           rewrite (bind_Some _ _ _ _ _ (at_index_run _ _ _ _ Ho)).
           rewrite (bind_Some _ _ _ _ _
                      (add_index_run offset index _
                         (proj1 (Forall_lookup _ _) Hoffsets _ _ Ho)
                         (proj1 (Forall_lookup _ _) Hindices _ _ Hx))).
           eexists _, _. split; [reflexivity |].
           assert (HXi : X !! Z.to_nat i
                         = Some (BinaryOp AddIOp IndexType offset index)).
           { unfold X. apply offsetIndices_trailing; try assumption; try lia.
             rewrite <- Ho. f_equal. lia. }
           rewrite (take_S_r X (Z.to_nat i) _ HXi).
           split; [reflexivity |].
           rewrite drop_app_le by (rewrite length_take; unfold fo; lia).
           rewrite fmap_app, app_assoc. reflexivity.
      * rewrite Hrun. rewrite Nat2Z.id in Hs, Hops.
        rewrite take_ge in Hs, Hops by lia. subst s' ops'. reflexivity.
    + unfold X, offsetIndices. fold fo.
      rewrite take_app_le by (rewrite length_take; lia).
      rewrite take_take. f_equal. lia.
    + intros j offset index Ho Hx.
      eexists. split.
      * apply offsetIndices_trailing; try eassumption; try lia.
        rewrite <- Ho. f_equal. lia.
      * cbn [eval].
        rewrite (proj1 (Forall_lookup _ _) Hoffsets _ _ Ho).
        reflexivity.
  - intros Hgt. unfold MathBuilderOps.addOffsetToLeastSignificant.
    rewrite assert_false by (apply Z.leb_gt; lia). reflexivity.
Qed.

End OffsetFacts.

(** Indices [(i, j, k)] and the offset [(K)]: the result is [(i, j, K + k)]. *)
Lemma addOffsetToLeastSignificant_indices_witness :
  let i := BlockArgument 0 IndexType in
  let j := BlockArgument 1 IndexType in
  let k := BlockArgument 2 IndexType in
  let K := BlockArgument 3 IndexType in
  MathBuilderOps.addOffsetToLeastSignificant [i; j; k] [K] []
  = Some ([i; j; BinaryOp AddIOp IndexType K k],
          [OpWithResult (BinaryOp AddIOp IndexType K k)]).
Proof.
  intros i j k K.
  exact (proj1 (proj1 (@addOffsetToLeastSignificant_indices noFloats
                         (argumentLanes []) [i; j; k] [K] []
                         ltac:(repeat constructor) ltac:(repeat constructor))
                  ltac:(cbn; lia))).
Defined.

(** ** Merging two vectors *)

(** X16: [isPowerOf2], as the bit test [(num & (num - 1)) == 0] on a
    [uint64_t], holds exactly for 0 and for the powers of two: a vector
    length of 0 passes the assertion of [mergeHigh] and [mergeLow]. *)
Theorem isPowerOf2_iff (num : Z) :
  0 <= num < 2 ^ 64 ->
  VectorBuilder.isPowerOf2 num = true
  <-> num = 0 \/ exists k, 0 <= k < 64 /\ num = 2 ^ k.
Proof.
  intros Hnum. split.
  - intros Hp. destruct (Z.eq_dec num 0) as [-> | Hnz]; [left; reflexivity |].
    right. unfold VectorBuilder.isPowerOf2 in Hp.
    apply Z.eqb_eq in Hp. rewrite Z.mod_small in Hp by lia.
    pose proof (Z.log2_spec num ltac:(lia)) as [Hlo Hhi].
    pose proof (Z.log2_nonneg num) as Hk.
    assert (Hk64 : Z.log2 num < 64).
    { apply Z.log2_lt_pow2; lia. }
    exists (Z.log2 num). split; [lia |].
    destruct (Z.eq_dec num (2 ^ Z.log2 num)) as [Heq | Hne]; [exact Heq |].
    exfalso.
    assert (Hlog : Z.log2 (num - 1) = Z.log2 num)
      by (apply Z.log2_unique; lia).
    assert (Hbit1 : Z.testbit num (Z.log2 num) = true)
      by (apply Z.bit_log2; lia).
    assert (Hbit2 : Z.testbit (num - 1) (Z.log2 num) = true)
      by (rewrite <- Hlog; apply Z.bit_log2; lia).
    assert (Hbit : Z.testbit (Z.land num (num - 1)) (Z.log2 num) = true)
      by (rewrite Z.land_spec, Hbit1, Hbit2; reflexivity).
    rewrite Hp, Z.bits_0 in Hbit. discriminate Hbit.
  - intros [-> | (k & Hk & ->)]; [reflexivity |].
    apply isPowerOf2_pow2. exact Hk.
Qed.

(** 8 is a power of two. *)
Lemma isPowerOf2_iff_witness :
  VectorBuilder.isPowerOf2 8 = true <-> 8 = 0 \/ exists k, 0 <= k < 64 /\ 8 = 2 ^ k.
Proof. apply isPowerOf2_iff. lia. Defined.

Section MergeFacts.
Context `{FloatSemantics} `{VectorMachineSupport}.

(** X17: for two vectors of [VL] lanes of one type, [VL] a multiple of
    [2 * step], [mergeHigh] and [mergeLow] succeed with vectors of the same
    type that alternate [step] lanes of [lhs] and [step] lanes of [rhs]:
    [mergeHigh] walks the first halves of the operands, [mergeLow] the second
    halves.  Piece [q] of the result, sub-piece [h] (0 for [lhs], 1 for
    [rhs]), lane [j], holds lane [q * step + j] of that operand for
    [mergeHigh] and lane [VL / 2 + q * step + j] for [mergeLow]. *)
Theorem merge_alternates_operands (env : nat -> list Z) (lhs rhs : Value)
    (VL step pairs : Z) (e : Ty) (ops : list Operation) :
  getType lhs = VectorType [VL] e ->
  getType rhs = VectorType [VL] e ->
  VectorBuilder.isPowerOf2 VL = true ->
  0 < step -> 0 <= pairs ->
  VL = pairs * (2 * step) ->
  length (eval env lhs) = Z.to_nat VL ->
  exists high low opsH opsL,
    VectorBuilder.mergeHigh lhs rhs step ops = Some (high, opsH)
    /\ VectorBuilder.mergeLow lhs rhs step ops = Some (low, opsL)
    /\ getType high = VectorType [VL] e
    /\ getType low = VectorType [VL] e
    /\ forall q h j,
         0 <= q < pairs -> 0 <= h < 2 -> 0 <= j < step ->
         lane (eval env high) (q * (2 * step) + h * step + j)
         = lane (eval env (if h =? 0 then lhs else rhs)) (q * step + j)
         /\ lane (eval env low) (q * (2 * step) + h * step + j)
            = lane (eval env (if h =? 0 then lhs else rhs)) (VL / 2 + q * step + j).
Proof.
  intros Hl Hr Hpow Hstep Hpairs HVL Hlen.
  assert (HVL0 : 0 <= VL) by nia.
  destruct (merge_run lhs rhs VL step e ops Hl Hr Hpow HVL0 Hstep)
    as [(opsH & HH) (opsL & HL)].
  assert (Hhalf : VL / 2 = pairs * step).
  { subst VL. replace (pairs * (2 * step)) with (pairs * step * 2) by lia.
    apply Z.div_mul. lia. }
  eexists _, _, opsH, opsL. split; [exact HH |]. split; [exact HL |].
  split; [reflexivity |]. split; [reflexivity |].
  intros q h j Hq Hh Hj. split.
  - rewrite (lane_shuffle env _ lhs rhs VL step 0 pairs q h j) by (try assumption; nia).
    f_equal.
  - rewrite (lane_shuffle env _ lhs rhs VL step (VL / 2) pairs q h j)
      by (try assumption; nia).
    reflexivity.
Qed.

(** X18: neither merge checks [step]: when [2 * step] exceeds the vector
    length there is no pair to take, the mask keeps its initial zeros, and
    both [mergeHigh] and [mergeLow] return the shuffle that broadcasts lane 0
    of [lhs] to every lane. *)
Theorem merge_step_beyond_length (env : nat -> list Z) (lhs rhs : Value)
    (VL step : Z) (e : Ty) (ops : list Operation) :
  getType lhs = VectorType [VL] e ->
  getType rhs = VectorType [VL] e ->
  VectorBuilder.isPowerOf2 VL = true ->
  0 < VL < 2 * step ->
  length (eval env lhs) = Z.to_nat VL ->
  exists opsH opsL,
    VectorBuilder.mergeHigh lhs rhs step ops
    = Some (ShuffleOp (VectorType [VL] e) lhs rhs (replicate (Z.to_nat VL) 0), opsH)
    /\ VectorBuilder.mergeLow lhs rhs step ops
       = Some (ShuffleOp (VectorType [VL] e) lhs rhs (replicate (Z.to_nat VL) 0), opsL)
    /\ eval env (ShuffleOp (VectorType [VL] e) lhs rhs (replicate (Z.to_nat VL) 0))
       = replicate (Z.to_nat VL) (lane (eval env lhs) 0).
Proof.
  intros Hl Hr Hpow HVL Hlen.
  destruct (merge_run lhs rhs VL step e ops Hl Hr Hpow ltac:(lia) ltac:(lia))
    as [(opsH & HH) (opsL & HL)].
  assert (Hmask : forall half, mergeMaskOf VL step half = replicate (Z.to_nat VL) 0).
  { intros half. unfold mergeMaskOf.
    rewrite (Z.div_small VL (2 * step)) by lia.
    replace (VL - 0 * (2 * step)) with VL by lia. reflexivity. }
  rewrite Hmask in HH, HL.
  exists opsH, opsL. split; [exact HH |]. split; [exact HL |].
  cbn [eval]. rewrite fmap_replicate. f_equal.
  unfold lane. change (Z.to_nat 0) with 0%nat.
  destruct (eval env lhs) as [| a l]; [cbn in Hlen; lia | reflexivity].
Qed.

End MergeFacts.

(** Two [vector<4xi32>], step 1: [mergeHigh] gives [l0, r0, l1, r1] and
    [mergeLow] gives [l2, r2, l3, r3]. *)
Lemma merge_alternates_operands_witness :
  let lhs := BlockArgument 0 (VectorType [4] (IntegerType 32 Signless)) in
  let rhs := BlockArgument 1 (VectorType [4] (IntegerType 32 Signless)) in
  let env := argumentLanes [[10; 11; 12; 13]; [20; 21; 22; 23]] in
  exists high low opsH opsL,
    VectorBuilder.mergeHigh lhs rhs 1 [] = Some (high, opsH)
    /\ VectorBuilder.mergeLow lhs rhs 1 [] = Some (low, opsL)
    /\ lane (@eval noFloats env high) 1 = 20
    /\ lane (@eval noFloats env low) 2 = 13.
Proof.
  intros lhs rhs env.
  destruct (@merge_alternates_operands noFloats fourLanes env lhs rhs 4 1 2
              (IntegerType 32 Signless) [] eq_refl eq_refl eq_refl
              ltac:(lia) ltac:(lia) eq_refl eq_refl)
    as (high & low & opsH & opsL & HH & HL & _ & _ & Hlanes).
  exists high, low, opsH, opsL. split; [exact HH |]. split; [exact HL |].
  split.
  - exact (proj1 (Hlanes 0 1 0 ltac:(lia) ltac:(lia) ltac:(lia))).
  - exact (proj2 (Hlanes 1 0 0 ltac:(lia) ltac:(lia) ltac:(lia))).
Defined.

(** Two [vector<4xi32>], step 4: every lane is [l0]. *)
Lemma merge_step_beyond_length_witness :
  let lhs := BlockArgument 0 (VectorType [4] (IntegerType 32 Signless)) in
  let rhs := BlockArgument 1 (VectorType [4] (IntegerType 32 Signless)) in
  let env := argumentLanes [[10; 11; 12; 13]; [20; 21; 22; 23]] in
  exists opsH,
    VectorBuilder.mergeHigh lhs rhs 4 []
    = Some (ShuffleOp (VectorType [4] (IntegerType 32 Signless)) lhs rhs [0; 0; 0; 0],
            opsH)
    /\ @eval noFloats env
         (ShuffleOp (VectorType [4] (IntegerType 32 Signless)) lhs rhs [0; 0; 0; 0])
       = [10; 10; 10; 10].
Proof.
  intros lhs rhs env.
  destruct (@merge_step_beyond_length noFloats fourLanes env lhs rhs 4 4
              (IntegerType 32 Signless) [] eq_refl eq_refl eq_refl
              ltac:(lia) eq_refl)
    as (opsH & opsL & HH & _ & Hev).
  exists opsH. split; [exact HH | exact Hev].
Defined.

(** ** Dynamic symbols computed from the dimensions *)

Lemma dynamicDims_cons (a : Z) (shape : list Z) (d : IndexExpr) (dims : list IndexExpr) :
  dynamicDims (a :: shape) (d :: dims)
  = (if bool_decide (a = kDynamic) then [d] else []) ++ dynamicDims shape dims.
Proof.
  unfold dynamicDims. cbn [zip zip_with].
  case_bool_decide as Ha.
  - rewrite filter_cons_True by exact Ha. reflexivity.
  - rewrite filter_cons_False by exact Ha. reflexivity.
Qed.

Lemma dynamicDims_snoc (shape : list Z) (dims : list IndexExpr) (i : nat)
    (extent : Z) (dim : IndexExpr) :
  shape !! i = Some extent -> dims !! i = Some dim ->
  dynamicDims (take (Datatypes.S i) shape) dims
  = dynamicDims (take i shape) dims
    ++ (if bool_decide (extent = kDynamic) then [dim] else []).
Proof.
  revert dims i. induction shape as [| a shape IH]; intros [| d dims] [| i] Hs Hd;
    try discriminate Hs; try discriminate Hd.
  - cbn in Hs, Hd. injection Hs as ->. injection Hd as ->.
    cbn [take]. rewrite dynamicDims_cons. unfold dynamicDims at 1 2. cbn.
    rewrite app_nil_r. reflexivity.
  - cbn in Hs, Hd. cbn [take]. rewrite !dynamicDims_cons.
    rewrite (IH dims i Hs Hd). rewrite app_assoc. reflexivity.
Qed.

Lemma length_dynamicDims (shape : list Z) (dims : list IndexExpr) :
  (length shape <= length dims)%nat ->
  length (dynamicDims shape dims) = numDynamic shape.
Proof.
  revert dims. induction shape as [| a shape IH]; intros [| d dims] Hlen;
    try reflexivity; try (cbn in Hlen; lia).
  rewrite dynamicDims_cons, numDynamic_cons, length_app, IH by (cbn in Hlen; lia).
  case_bool_decide; reflexivity.
Qed.

Lemma computeDynSymbols_run (type : Ty) (dims : list IndexExpr) (ops : list Operation) :
  (length (getShape type) <= length dims)%nat ->
  MemRefBuilderOps.computeDynSymbols type dims ops
  = Some (valueOf <$> dynamicDims (getShape type) dims,
          ops ++ concat (materialisationOps <$> dynamicDims (getShape type) dims)).
Proof.
  intros Hlen. unfold MemRefBuilderOps.computeDynSymbols, getRank.
  set (shape := getShape type) in *.
  destruct (for_loop_invariant
    (fun i (s : list Value) ops' =>
       s = valueOf <$> dynamicDims (take (Z.to_nat i) shape) dims
       /\ ops' = ops ++ concat (materialisationOps
                                  <$> dynamicDims (take (Z.to_nat i) shape) dims))
    0 (Z.of_nat (length shape))
    (fun i dynSymbols =>
       extent <- at_index shape i ;;
       if bool_decide (extent = kDynamic) then
         dim <- at_index dims i ;;
         symbol <- getValue dim ;;
         ret (dynSymbols ++ [symbol])
       else ret dynSymbols)
    (Datatypes.S (Z.to_nat (Z.of_nat (length shape)))) [] ops)
    as (s' & ops' & Hrun & Hs & Hops).
  - lia.
  - lia.
  - change (Z.to_nat 0) with 0%nat. rewrite take_0. cbn. rewrite app_nil_r. auto.
  - intros i s ops0 Hi [-> ->].
    destruct (lookup_lt_is_Some_2 shape (Z.to_nat i) ltac:(lia)) as [extent Hx].
    destruct (lookup_lt_is_Some_2 dims (Z.to_nat i) ltac:(lia)) as [dim Hd].
    rewrite (bind_Some _ _ _ _ _ (at_index_run _ _ _ _ Hx)).
    replace (Z.to_nat (i + 1)) with (Datatypes.S (Z.to_nat i)) by lia.
    rewrite (dynamicDims_snoc shape dims _ extent dim Hx Hd).
    case_bool_decide as Hdyn.
    + rewrite (bind_Some _ _ _ _ _ (at_index_run _ _ _ _ Hd)).
      rewrite (bind_Some _ _ _ _ _ (getValue_ops dim _)).
      eexists _, _. split; [reflexivity |].
      rewrite !fmap_app, concat_app. cbn [fmap list_fmap concat].
      rewrite app_nil_r, app_assoc. auto.
    + eexists _, _. split; [reflexivity |]. rewrite !app_nil_r. auto.
  - rewrite Hrun. rewrite Nat2Z.id in Hs, Hops.
    rewrite take_ge in Hs, Hops by lia. subst s' ops'. reflexivity.
Qed.

(** X19: given a dimension for every extent of the layout,
    [computeDynSymbols] succeeds and returns the values of the dimensions of
    the dynamic extents, in order: exactly as many symbols as the layout has
    dynamic extents.  The only operations created are the index arithmetic
    that materialises these dimensions. *)
Theorem computeDynSymbols_one_per_dynamic_extent (type : Ty)
    (dims : list IndexExpr) (ops : list Operation) :
  (length (getShape type) <= length dims)%nat ->
  MemRefBuilderOps.computeDynSymbols type dims ops
  = Some (valueOf <$> dynamicDims (getShape type) dims,
          ops ++ concat (materialisationOps <$> dynamicDims (getShape type) dims))
  /\ length (valueOf <$> dynamicDims (getShape type) dims)
     = numDynamic (getShape type)
  /\ Forall (fun op => isMemoryOperation op = false)
       (concat (materialisationOps <$> dynamicDims (getShape type) dims)).
Proof.
  intros Hlen. split; [apply computeDynSymbols_run; exact Hlen |]. split.
  - rewrite length_fmap. apply length_dynamicDims. exact Hlen.
  - apply Forall_concat, Forall_fmap, Forall_forall. intros ie _.
    apply materialisationOps_arithmetic.
Qed.

(** X20: with the symbols computed from the dimensions, the size computation
    cannot miscount: for a layout whose element type is not a vector and a
    dimension for every extent, [getStaticAndDynamicMemSize] on the dimensions
    succeeds; the static size is the product of the static extents as an
    [int64_t], the dynamic size multiplies the values of the dimensions of the
    dynamic extents, and the returned flag is true exactly when the shape has
    no dynamic extent. *)
Theorem getStaticAndDynamicMemSize_of_dims (type : Ty) (dims : list IndexExpr)
    (ops : list Operation) :
  isa_VectorType (getElementType type) = false ->
  (length (getShape type) <= length dims)%nat ->
  MemRefBuilderOps.getStaticAndDynamicMemSizeOfDims type dims ops
  = Some ((bool_decide (numDynamic (getShape type) = 0%nat),
           to_int64 (productOf (staticExtents (getShape type))),
           symbolProduct (valueOf <$> dynamicDims (getShape type) dims)),
          ops ++ concat (materialisationOps <$> dynamicDims (getShape type) dims))
  /\ (bool_decide (numDynamic (getShape type) = 0%nat) = true
      <-> Forall (fun d => d <> kDynamic) (getShape type))
  /\ (forall rho,
        ie_eval rho (symbolProduct (valueOf <$> dynamicDims (getShape type) dims))
        = productOf (rho <$> (valueOf <$> dynamicDims (getShape type) dims))).
Proof.
  intros Hvec Hlen. split; [| split].
  - unfold MemRefBuilderOps.getStaticAndDynamicMemSizeOfDims.
    rewrite (bind_Some _ _ _ _ _ (computeDynSymbols_run type dims ops Hlen)).
    rewrite getStaticAndDynamicMemSize_run, Hvec.
    assert (Hn : length (valueOf <$> dynamicDims (getShape type) dims)
                 = numDynamic (getShape type))
      by (rewrite length_fmap; apply length_dynamicDims; exact Hlen).
    rewrite decide_True by lia.
    rewrite take_ge by lia. rewrite Hn. reflexivity.
  - rewrite bool_decide_eq_true. apply numDynamic_zero.
  - intros rho. apply ie_eval_symbolProduct.
Qed.

(** A [memref<2x?x3xf32>] with dimensions [2, n, 3]: one symbol, [n]. *)
Lemma computeDynSymbols_one_per_dynamic_extent_witness :
  let n := BlockArgument 0 IndexType in
  MemRefBuilderOps.computeDynSymbols
    (MemRefType [2; kDynamic; 3] (FloatType Float32Type) true)
    [LiteralIndexExpr 2; SymbolIndexExpr n; LiteralIndexExpr 3] []
  = Some ([n], []).
Proof.
  intros n.
  exact (proj1 (computeDynSymbols_one_per_dynamic_extent
                  (MemRefType [2; kDynamic; 3] (FloatType Float32Type) true)
                  [LiteralIndexExpr 2; SymbolIndexExpr n; LiteralIndexExpr 3] []
                  ltac:(cbn; lia))).
Defined.

(** The same buffer: static size 6, dynamic size [1 * n], not fully static. *)
Lemma getStaticAndDynamicMemSize_of_dims_witness :
  let n := BlockArgument 0 IndexType in
  MemRefBuilderOps.getStaticAndDynamicMemSizeOfDims
    (MemRefType [2; kDynamic; 3] (FloatType Float32Type) true)
    [LiteralIndexExpr 2; SymbolIndexExpr n; LiteralIndexExpr 3] []
  = Some ((false, 6, MulIndexExpr (LiteralIndexExpr 1) (SymbolIndexExpr n)), []).
Proof.
  intros n.
  exact (proj1 (getStaticAndDynamicMemSize_of_dims
                  (MemRefType [2; kDynamic; 3] (FloatType Float32Type) true)
                  [LiteralIndexExpr 2; SymbolIndexExpr n; LiteralIndexExpr 3] []
                  eq_refl ltac:(cbn; lia))).
Defined.

(** ** Flattening and unflattening *)

Lemma ie_eval_flattenedProduct_from (rho : Value -> Z) (dims : list IndexExpr) :
  forall start,
  ie_eval rho (foldl (fun acc dim => ie_mul acc (asSymbol dim)) start dims)
  = ie_eval rho start * productOf (ie_eval rho <$> dims).
Proof.
  induction dims as [| d dims IH]; intros start; cbn [foldl fmap list_fmap].
  - cbn. lia.
  - rewrite IH, ie_eval_mul. unfold asSymbol. cbn [productOf foldr].
    fold (productOf (ie_eval rho <$> dims)). lia.
Qed.

Lemma shapeStoreOps_snoc (shapeInMem : Value) (extents : list IndexExpr)
    (extent : IndexExpr) :
  shapeStoreOps shapeInMem (extents ++ [extent])
  = shapeStoreOps shapeInMem extents
    ++ [OpWithResult
          (ConstantOp (IntegerAttr IndexType (APInt 64 (Z.of_nat (length extents)))))]
    ++ materialisationOps extent
    ++ [AffineStoreOp (valueOf extent) shapeInMem
          [ConstantOp (IntegerAttr IndexType (APInt 64 (Z.of_nat (length extents))))]].
Proof.
  unfold shapeStoreOps. rewrite imap_app, concat_app. cbn [imap concat].
  rewrite Nat.add_0_r, app_nil_r. reflexivity.
Qed.

(** A counting loop whose body stops at iteration [m] stops. *)
Lemma for_loop_stops {S : Type} (P : Z -> S -> list Operation -> Prop)
    (lo m hi : Z) (body : Z -> S -> Builder S) (fuel : nat) (s : S)
    (ops : list Operation) :
  lo <= m < hi ->
  P lo s ops ->
  (forall i s ops, lo <= i < m -> P i s ops ->
     exists s' ops', body i s ops = Some (s', ops') /\ P (i + 1) s' ops') ->
  (forall s ops, P m s ops -> body m s ops = None) ->
  for_loop fuel lo (fun i => i <? hi) Z.succ body s ops = None.
Proof.
  intros Hm HP Hbody Hstop.
  remember (Z.to_nat (m - lo)) as n eqn:Hn.
  revert lo s ops fuel Hm HP Hbody Hn.
  induction n as [| n IH]; intros lo s ops fuel Hm HP Hbody Hn.
  - assert (lo = m) as -> by lia.
    destruct fuel as [| fuel]; [reflexivity |]. cbn [for_loop].
    rewrite (proj2 (Z.ltb_lt m hi)) by lia.
    rewrite bind_None by (apply Hstop; exact HP). reflexivity.
  - destruct fuel as [| fuel]; [reflexivity |]. cbn [for_loop].
    rewrite (proj2 (Z.ltb_lt lo hi)) by lia.
    destruct (Hbody lo s ops ltac:(lia) HP) as (s1 & ops1 & Hrun & HP1).
    rewrite (bind_Some _ _ _ _ _ Hrun).
    replace (Z.succ lo) with (lo + 1) by lia.
    apply IH; try lia; [exact HP1 |].
    intros i s2 ops2 Hi. apply Hbody. lia.
Qed.

Section ReshapeFacts.
Context `{VectorMachineSupport} `{AllocationDefaults}.

(** The loop that stores a shape: [extentAt i] is the extent written at
    position [i]. *)
Lemma store_shape_run (shapeInMem : Value) (extents : list IndexExpr) (n : Z)
    (pick : Z -> Builder IndexExpr) (ops : list Operation) :
  n = Z.of_nat (length extents) ->
  (forall i extent ops, extents !! Z.to_nat i = Some extent -> 0 <= i ->
     pick i ops = Some (extent, ops)) ->
  for_loop (Datatypes.S (Z.to_nat n)) 0 (fun d => d <? n) Z.succ
    (fun d outputShape =>
       dd <- MathBuilder.constantIndex d ;;
       shapeIE <- pick d ;;
       shapeValue <- getValue shapeIE ;;
       createStore shapeValue shapeInMem [dd] ;;;
       ret (outputShape ++ [getShapeOfIndexExpr shapeIE]))
    [] ops
  = Some (getShapeOfIndexExpr <$> extents, ops ++ shapeStoreOps shapeInMem extents).
Proof.
  intros -> Hpick.
  destruct (for_loop_invariant
    (fun i (s : list Z) ops' =>
       s = getShapeOfIndexExpr <$> take (Z.to_nat i) extents
       /\ ops' = ops ++ shapeStoreOps shapeInMem (take (Z.to_nat i) extents))
    0 (Z.of_nat (length extents))
    (fun d outputShape =>
       dd <- MathBuilder.constantIndex d ;;
       shapeIE <- pick d ;;
       shapeValue <- getValue shapeIE ;;
       createStore shapeValue shapeInMem [dd] ;;;
       ret (outputShape ++ [getShapeOfIndexExpr shapeIE]))
    (Datatypes.S (Z.to_nat (Z.of_nat (length extents)))) [] ops)
    as (s' & ops' & Hrun & Hs & Hops).
  - lia.
  - lia.
  - change (Z.to_nat 0) with 0%nat. rewrite take_0. cbn. rewrite app_nil_r. auto.
  - intros i s ops0 Hi [-> ->].
    destruct (lookup_lt_is_Some_2 extents (Z.to_nat i) ltac:(lia)) as [extent Hx].
    unfold MathBuilder.constantIndex at 1.
    rewrite (bind_Some _ _ _ _ _ (eq_refl : create _ _ = Some (_, _))).
    rewrite (bind_Some _ _ _ _ _ (Hpick i extent _ Hx ltac:(lia))).
    rewrite (bind_Some _ _ _ _ _ (getValue_ops extent _)).
    unfold createStore, bind, ret.
    eexists _, _. split; [reflexivity |].
    replace (Z.to_nat (i + 1)) with (Datatypes.S (Z.to_nat i)) by lia.
    rewrite (take_S_r extents (Z.to_nat i) extent Hx).
    rewrite fmap_app. split; [reflexivity |].
    rewrite shapeStoreOps_snoc, length_take, Nat.min_l
      by (apply Nat.lt_le_incl, (lookup_lt_Some _ _ _ Hx)).
    rewrite Z2Nat.id by lia. rewrite <- !app_assoc. reflexivity.
  - rewrite Hrun. rewrite Nat2Z.id in Hs, Hops.
    rewrite take_ge in Hs, Hops by lia. subst s' ops'. reflexivity.
Qed.

Lemma flatten_product_run (dims : list IndexExpr) (k : Z) (ops : list Operation) :
  0 <= k <= Z.of_nat (length dims) ->
  for_loop (Datatypes.S (Z.to_nat k)) (Z.of_nat (length dims) - k)
    (fun d => d <? Z.of_nat (length dims)) Z.succ
    (fun d numOfFlattenedElements =>
       dim <- at_index dims d ;;
       ret (ie_mul numOfFlattenedElements (asSymbol dim)))
    (LiteralIndexExpr 1) ops
  = Some (flattenedProduct (drop (Z.to_nat (Z.of_nat (length dims) - k)) dims), ops).
Proof.
  intros Hk.
  set (lo := Z.of_nat (length dims) - k).
  set (tail := drop (Z.to_nat lo) dims).
  destruct (for_loop_invariant
    (fun d (s : IndexExpr) ops' =>
       s = flattenedProduct (take (Z.to_nat (d - lo)) tail) /\ ops' = ops)
    lo (Z.of_nat (length dims))
    (fun d numOfFlattenedElements =>
       dim <- at_index dims d ;;
       ret (ie_mul numOfFlattenedElements (asSymbol dim)))
    (Datatypes.S (Z.to_nat k)) (LiteralIndexExpr 1) ops)
    as (s' & ops' & Hrun & Hs & Hops).
  - unfold lo. lia.
  - unfold lo. lia.
  - rewrite Z.sub_diag. split; reflexivity.
  - intros d s ops0 Hd [-> ->].
    destruct (lookup_lt_is_Some_2 dims (Z.to_nat d) ltac:(lia)) as [dim Hx].
    rewrite (bind_Some _ _ _ _ _ (at_index_run _ _ _ _ Hx)).
    eexists _, _. split; [reflexivity |]. split; [| reflexivity].
    replace (Z.to_nat (d + 1 - lo)) with (Datatypes.S (Z.to_nat (d - lo)))
      by (unfold lo in *; lia).
    assert (Ht : tail !! Z.to_nat (d - lo) = Some dim).
    { unfold tail. rewrite lookup_drop. rewrite <- Hx. f_equal.
      unfold lo in *. lia. }
    rewrite (take_S_r tail _ dim Ht). unfold flattenedProduct.
    rewrite foldl_app. reflexivity.
  - rewrite Hrun. subst s' ops'. f_equal. f_equal. f_equal.
    apply take_ge. unfold tail. rewrite length_drop. unfold lo. lia.
Qed.

(** X21: flattening the last [k] of [R] dimensions, [1 < k <= R]
    ([dimsToFlatten = -1] standing for [k = R]), of an identity-layout buffer
    returns the reshape of the input to rank [R - k + 1]: the leading [R - k]
    extents are those of the dimensions, the last one is that of the product
    of the flattened dimensions, static only when they all are, and the
    element type is kept.  The returned size is the value of that product,
    which denotes the product of the flattened extents.  The shape is passed
    in a freshly allocated buffer of [R - k + 1] indices, written extent by
    extent. *)
Theorem reshapeToFlat_flattens (valToReshape : Value) (shape : list Z)
    (elementType : Ty) (dims : list IndexExpr) (dimsToFlatten k : Z)
    (ops : list Operation) :
  getType valToReshape = MemRefType shape elementType true ->
  length dims = length shape ->
  k = (if dimsToFlatten =? -1 then Z.of_nat (length dims) else dimsToFlatten) ->
  1 < k <= Z.of_nat (length dims) ->
  let kept := take (Z.to_nat (Z.of_nat (length dims) - k)) dims in
  let flat := flattenedProduct (drop (Z.to_nat (Z.of_nat (length dims) - k)) dims) in
  let outputRank := Z.of_nat (length dims) - k + 1 in
  let reshaped :=
    ReshapeOp (MemRefType ((getShapeOfIndexExpr <$> kept) ++ [getShapeOfIndexExpr flat])
                 elementType true)
      valToReshape (shapeBuffer outputRank) in
  MemRefBuilder.reshapeToFlat valToReshape dims dimsToFlatten ops
  = Some ((reshaped, valueOf flat),
          ops ++ materialisationOps flat
          ++ [OpWithResult (shapeBuffer outputRank)]
          ++ shapeStoreOps (shapeBuffer outputRank) (kept ++ [flat])
          ++ [OpWithResult reshaped])
  /\ Z.of_nat (length (getShape (getType reshaped))) = outputRank
  /\ (forall rho,
        ie_eval rho flat
        = productOf (ie_eval rho
                       <$> drop (Z.to_nat (Z.of_nat (length dims) - k)) dims)).
Proof.
  intros Hty Hlen Hk Hrange kept flat outputRank reshaped.
  assert (Hkept : length kept = Z.to_nat (Z.of_nat (length dims) - k))
    by (unfold kept; rewrite length_take; lia).
  assert (Hpick : forall i extent ops,
            (kept ++ [flat]) !! Z.to_nat i = Some extent -> 0 <= i ->
            (if i =? outputRank - 1 then ret flat else at_index dims i) ops
            = Some (extent, ops)).
  { intros i extent ops0 Hx Hi.
    destruct (Z.eqb_spec i (outputRank - 1)) as [-> | Hne].
    - rewrite lookup_app_r in Hx by (unfold outputRank; lia).
      replace (Z.to_nat (outputRank - 1) - length kept)%nat with 0%nat in Hx
        by (unfold outputRank; lia).
      cbn in Hx. injection Hx as <-. reflexivity.
    - assert (Hi' : (Z.to_nat i < length kept)%nat).
      { apply lookup_lt_Some in Hx. rewrite length_app in Hx. cbn [length] in Hx.
        unfold outputRank in Hne. lia. }
      rewrite lookup_app_l in Hx by exact Hi'.
      unfold kept in Hx. rewrite lookup_take_lt in Hx by lia.
      apply at_index_run. exact Hx. }
  split; [| split].
  - unfold MemRefBuilder.reshapeToFlat. rewrite Hty.
    cbn [isa_MemRefType hasNonIdentityLayout negb getElementType].
    rewrite assert_true by reflexivity.
    rewrite assert_true by (unfold getRank; cbn [getShape]; rewrite <- Hlen; apply Z.eqb_refl).
    rewrite assert_true by reflexivity.
    unfold getRank. cbn [getShape]. rewrite <- Hlen, <- Hk.
    rewrite assert_true
      by (apply andb_true_iff; split; [apply Z.ltb_lt | apply Z.leb_le]; lia).
    rewrite (bind_Some _ _ _ _ _ (flatten_product_run dims k ops ltac:(lia))).
    fold flat.
    rewrite (bind_Some _ _ _ _ _ (getValue_ops flat ops)).
    rewrite (proj2 (Z.eqb_neq k 1)) by lia.
    fold outputRank.
    rewrite (bind_Some _ _ _ _ _
               (alignedAlloc_ranked (MemRefType [outputRank] IndexType true) []
                  MemRefBuilder.defaultAlign _ ltac:(discriminate))).
    fold (shapeBuffer outputRank).
    assert (HoutputRank : outputRank = Z.of_nat (length (kept ++ [flat])))
      by (rewrite length_app, Hkept; cbn [length]; unfold outputRank; lia).
    rewrite (bind_Some _ _ _ _ _
               (store_shape_run (shapeBuffer outputRank) (kept ++ [flat]) outputRank
                  (fun d => if d =? outputRank - 1 then ret flat else at_index dims d)
                  _ HoutputRank Hpick)).
    rewrite fmap_app. cbn [fmap list_fmap].
    unfold MemRefBuilder.reshape, create, bind, ret. fold reshaped.
    rewrite <- !app_assoc. reflexivity.
  - unfold reshaped. cbn [getType getShape]. rewrite length_app, length_fmap, Hkept.
    cbn [length]. unfold outputRank. lia.
  - intros rho. unfold flat, flattenedProduct.
    rewrite ie_eval_flattenedProduct_from. cbn [ie_eval]. lia.
Qed.

(** X22: [reshapeFromFlat] to an identity-layout type of rank [R], given at
    least [R] dimensions, allocates a buffer of [R] indices, stores the value
    of dimension [i] at index [i] for each [i < R], and returns the reshape of
    the input to the output type; dimensions beyond the rank are ignored and
    none is compared with the extents of the type.  With fewer than [R]
    dimensions, or a type that has not the identity layout, it is a fatal
    stop. *)
Theorem reshapeFromFlat_stores_dims (valToReshape : Value) (dims : list IndexExpr)
    (outputType : Ty) (ops : list Operation) :
  let rank := getRank outputType in
  let reshaped := ReshapeOp outputType valToReshape (shapeBuffer rank) in
  (hasNonIdentityLayout outputType = false ->
   (Z.to_nat rank <= length dims)%nat ->
   MemRefBuilderOps.reshapeFromFlat valToReshape dims outputType ops
   = Some (reshaped,
           ops ++ [OpWithResult (shapeBuffer rank)]
           ++ shapeStoreOps (shapeBuffer rank) (take (Z.to_nat rank) dims)
           ++ [OpWithResult reshaped]))
  /\ ((length dims < Z.to_nat rank)%nat ->
      MemRefBuilderOps.reshapeFromFlat valToReshape dims outputType ops = None)
  /\ (hasNonIdentityLayout outputType = true ->
      MemRefBuilderOps.reshapeFromFlat valToReshape dims outputType ops = None).
Proof.
  intros rank reshaped.
  assert (Hrank : 0 <= rank) by (unfold rank, getRank; lia).
  set (body := fun (i : Z) (_ : unit) =>
         index <- MathBuilder.constantIndex i ;;
         dim <- at_index dims i ;;
         dimValue <- getValue dim ;;
         createStore dimValue (shapeBuffer rank) [index]).
  assert (Hstep : forall i (u : unit) ops0, 0 <= i -> (Z.to_nat i < length dims)%nat ->
            exists ops',
              body i u ops0 = Some (tt, ops')
              /\ (ops0 = ops ++ [OpWithResult (shapeBuffer rank)]
                         ++ shapeStoreOps (shapeBuffer rank) (take (Z.to_nat i) dims) ->
                  ops' = ops ++ [OpWithResult (shapeBuffer rank)]
                         ++ shapeStoreOps (shapeBuffer rank)
                              (take (Z.to_nat (i + 1)) dims))).
  { intros i u ops0 Hi Hlt.
    destruct (lookup_lt_is_Some_2 dims (Z.to_nat i) Hlt) as [dim Hx].
    unfold body, MathBuilder.constantIndex.
    rewrite (bind_Some _ _ _ _ _ (eq_refl : create _ _ = Some (_, _))).
    rewrite (bind_Some _ _ _ _ _ (at_index_run _ _ _ _ Hx)).
    rewrite (bind_Some _ _ _ _ _ (getValue_ops dim _)).
    unfold createStore. eexists. split; [reflexivity |]. intros ->.
    replace (Z.to_nat (i + 1)) with (Datatypes.S (Z.to_nat i)) by lia.
    rewrite (take_S_r dims (Z.to_nat i) dim Hx).
    rewrite shapeStoreOps_snoc, length_take, Nat.min_l by lia.
    rewrite Z2Nat.id by lia. rewrite <- !app_assoc. reflexivity. }
  split; [| split].
  - intros Hlayout Hdims. unfold MemRefBuilderOps.reshapeFromFlat.
    rewrite assert_true by (rewrite Hlayout; reflexivity).
    fold rank.
    rewrite (bind_Some _ _ _ _ _
               (alignedAlloc_ranked (MemRefType [rank] IndexType true) []
                  MemRefBuilder.defaultAlign _ ltac:(discriminate))).
    fold (shapeBuffer rank). fold body.
    destruct (for_loop_invariant
      (fun i (_ : unit) ops' =>
         ops' = ops ++ [OpWithResult (shapeBuffer rank)]
                ++ shapeStoreOps (shapeBuffer rank) (take (Z.to_nat i) dims))
      0 rank body (Datatypes.S (Z.to_nat rank)) tt
      (ops ++ [OpWithResult (shapeBuffer rank)]))
      as ([] & ops' & Hrun & Hops).
    + lia.
    + lia.
    + change (Z.to_nat 0) with 0%nat. rewrite take_0.
      reflexivity.
    + intros i u ops0 Hi Hinv.
      destruct (Hstep i u ops0 ltac:(lia) ltac:(lia)) as (ops1 & Hrun & Hnext).
      destruct u. exists tt, ops1. split; [exact Hrun | exact (Hnext Hinv)].
    + rewrite (bind_Some _ _ _ _ _ Hrun). subst ops'.
      unfold MemRefBuilder.reshape, create. fold reshaped.
      rewrite <- !app_assoc. reflexivity.
  - intros Hshort. unfold MemRefBuilderOps.reshapeFromFlat.
    destruct (negb (hasNonIdentityLayout outputType)) eqn:Hlayout;
      [| rewrite assert_false by reflexivity; reflexivity].
    rewrite assert_true by reflexivity.
    fold rank.
    rewrite (bind_Some _ _ _ _ _
               (alignedAlloc_ranked (MemRefType [rank] IndexType true) []
                  MemRefBuilder.defaultAlign _ ltac:(discriminate))).
    fold (shapeBuffer rank). fold body.
    rewrite bind_None; [reflexivity |].
    apply (for_loop_stops (fun _ _ _ => True) 0 (Z.of_nat (length dims)) rank).
    + lia.
    + exact I.
    + intros i u ops0 Hi _.
      destruct (Hstep i u ops0 ltac:(lia) ltac:(lia)) as (ops1 & Hrun & _).
      exists tt, ops1. split; [exact Hrun | exact I].
    + intros u ops0 _. unfold body, MathBuilder.constantIndex.
      rewrite (bind_Some _ _ _ _ _ (eq_refl : create _ _ = Some (_, _))).
      rewrite bind_None; [reflexivity |].
      unfold at_index. rewrite Nat2Z.id.
      rewrite (lookup_ge_None_2 dims (length dims)) by lia. reflexivity.
  - intros Hlayout. unfold MemRefBuilderOps.reshapeFromFlat.
    rewrite assert_false by (rewrite Hlayout; reflexivity). reflexivity.
Qed.

End ReshapeFacts.

(** A [memref<2x3x4xf32>] with dimensions [2, 3, n]: flattening two
    dimensions gives a [memref<2x?xf32>] and the size [3 * n]. *)
Lemma reshapeToFlat_flattens_witness :
  let n := BlockArgument 1 IndexType in
  let v := BlockArgument 0 (MemRefType [2; 3; kDynamic] (FloatType Float32Type) true) in
  exists shapeInMem ops',
    @MemRefBuilder.reshapeToFlat align16 v
      [LiteralIndexExpr 2; LiteralIndexExpr 3; SymbolIndexExpr n] 2 []
    = Some ((ReshapeOp (MemRefType [2; kDynamic] (FloatType Float32Type) true) v
               shapeInMem,
             BinaryOp MulIOp IndexType
               (ConstantOp (IntegerAttr IndexType (APInt 64 3))) n), ops').
Proof.
  intros n v.
  destruct (@reshapeToFlat_flattens align16 v [2; 3; kDynamic]
              (FloatType Float32Type)
              [LiteralIndexExpr 2; LiteralIndexExpr 3; SymbolIndexExpr n] 2 2 []
              eq_refl eq_refl eq_refl ltac:(cbn; lia)) as (Hrun & _).
  eexists _, _. exact Hrun.
Defined.

(** A flat buffer reshaped to [memref<2x3xf32>] with dimensions [2, 3]. *)
Lemma reshapeFromFlat_stores_dims_witness :
  let v := BlockArgument 0 (MemRefType [6] (FloatType Float32Type) true) in
  let outputType := MemRefType [2; 3] (FloatType Float32Type) true in
  exists ops',
    @MemRefBuilderOps.reshapeFromFlat align16 v
      [LiteralIndexExpr 2; LiteralIndexExpr 3] outputType []
    = Some (ReshapeOp outputType v (@shapeBuffer align16 2), ops')
    /\ length ops' = 8%nat.
Proof.
  intros v outputType.
  pose proof (proj1 (@reshapeFromFlat_stores_dims align16 v
                       [LiteralIndexExpr 2; LiteralIndexExpr 3] outputType [])
                eq_refl ltac:(vm_compute; lia)) as Hrun.
  eexists. split; [exact Hrun | reflexivity].
Defined.

(** ** The reduction on a machine without vectors *)

(** A loop that counts by one, with any spelling of the increment. *)
Lemma for_loop_invariant_next {S : Type} (P : Z -> S -> list Operation -> Prop)
    (lo hi : Z) (next : Z -> Z) (body : Z -> S -> Builder S) (fuel : nat) (s : S)
    (ops : list Operation) :
  (forall i, next i = i + 1) ->
  lo <= hi ->
  (Z.to_nat (hi - lo) < fuel)%nat ->
  P lo s ops ->
  (forall i s ops, lo <= i < hi -> P i s ops ->
     exists s' ops', body i s ops = Some (s', ops') /\ P (i + 1) s' ops') ->
  exists s' ops',
    for_loop fuel lo (fun i => i <? hi) next body s ops = Some (s', ops')
    /\ P hi s' ops'.
Proof.
  intros Hnext Hle Hfuel HP Hbody.
  remember (Z.to_nat (hi - lo)) as n eqn:Hn.
  revert lo s ops fuel Hle Hfuel HP Hbody Hn.
  induction n as [| n IH]; intros lo s ops fuel Hle Hfuel HP Hbody Hn.
  - assert (lo = hi) as -> by lia.
    destruct fuel as [| fuel]; [lia |]. cbn [for_loop].
    rewrite Z.ltb_irrefl. eauto.
  - destruct fuel as [| fuel]; [lia |]. cbn [for_loop].
    assert (Hlt : lo < hi) by lia.
    rewrite (proj2 (Z.ltb_lt lo hi) Hlt).
    destruct (Hbody lo s ops ltac:(lia) HP) as (s1 & ops1 & Hrun & HP1).
    rewrite (bind_Some _ _ _ _ _ Hrun). rewrite Hnext.
    apply IH; try lia; [exact HP1 |].
    intros i s2 ops2 Hi. apply Hbody. lia.
Qed.

Section ReductionEdgeFacts.
Context `{VectorMachineSupport}.

(** X23: on a machine with no vector of the element type (a vector length of
    at most 1, which [getMachineVectorLength] raises to 1), [multiReduction]
    of one-lane vectors is the identity: it returns the input vectors
    themselves, in order, and creates no operation.  An empty input is a
    fatal stop. *)
Theorem multiReduction_one_lane_identity (inputs : list Value) (e : Ty)
    (ops : list Operation) :
  getVectorLength e <= 1 ->
  Forall (fun v => getType v = VectorType [1] e) inputs ->
  (inputs <> [] -> VectorBuilder.multiReduction inputs ops = Some (inputs, ops))
  /\ (inputs = [] -> VectorBuilder.multiReduction inputs ops = None).
Proof.
  intros Hvl Hinputs. split; [| intros ->; reflexivity].
  intros Hne.
  destruct inputs as [| first rest] eqn:Hin; [contradiction |].
  rewrite <- Hin in *. clear Hne.
  assert (Hfirst : inputs !! Z.to_nat 0 = Some first) by (rewrite Hin; reflexivity).
  assert (Hfty : getType first = VectorType [1] e)
    by (apply (proj1 (Forall_lookup _ _) Hinputs _ _ Hfirst)).
  assert (HN : 0 < Z.of_nat (length inputs)) by (rewrite Hin; cbn [length]; lia).
  unfold VectorBuilder.multiReduction.
  rewrite assert_true by (apply Z.ltb_lt; exact HN).
  rewrite (bind_Some _ _ _ _ _ (at_index_run _ _ _ _ Hfirst)).
  rewrite (bind_Some _ _ _ _ _ (getLengthOf1DVector_run first 1 e ops Hfty)).
  assert (Hmvl : VectorBuilder.getMachineVectorLengthOfValue first ops = Some (1, ops)).
  { unfold VectorBuilder.getMachineVectorLengthOfValue. rewrite Hfty.
    cbn [dyn_cast_VectorType getElementType]. unfold ret.
    unfold VectorBuilder.getMachineVectorLength. rewrite Z.max_l by lia.
    reflexivity. }
  rewrite (bind_Some _ _ _ _ _ Hmvl).
  rewrite assert_true by reflexivity.
  rewrite assert_true by (rewrite Z.mod_1_r; reflexivity).
  destruct (for_loop_invariant
    (fun i (tmpArray : list Value) ops' =>
       tmpArray = take (Z.to_nat i) inputs /\ ops' = ops)
    0 (Z.of_nat (length inputs))
    (fun i tmpArray =>
       input <- at_index inputs i ;;
       len <- VectorBuilder.getLengthOf1DVector input ;;
       assert (len =? 1) ;;;
       ret (tmpArray ++ [input]))
    (Datatypes.S (Z.to_nat (Z.of_nat (length inputs)))) [] ops)
    as (tmp & ops1 & Hcopy & Htmp & Hops1).
  { lia. }
  { lia. }
  { split; reflexivity. }
  { intros i s ops0 Hi [-> ->].
    destruct (lookup_lt_is_Some_2 inputs (Z.to_nat i) ltac:(lia)) as [input Hx].
    rewrite (bind_Some _ _ _ _ _ (at_index_run _ _ _ _ Hx)).
    rewrite (bind_Some _ _ _ _ _
               (getLengthOf1DVector_run input 1 e ops
                  (proj1 (Forall_lookup _ _) Hinputs _ _ Hx))).
    rewrite assert_true by reflexivity.
    eexists _, _. split; [reflexivity |]. split; [| reflexivity].
    replace (Z.to_nat (i + 1)) with (Datatypes.S (Z.to_nat i)) by lia.
    symmetry. apply take_S_r. exact Hx. }
  rewrite (bind_Some _ _ _ _ _ Hcopy).
  rewrite Nat2Z.id, take_ge in Htmp by lia. subst tmp ops1.
  match goal with
  | |- bind (for_loop ?fuel 0 ?cond ?next ?body ?s) ?k ops = _ =>
      destruct (for_loop_invariant_next
        (fun r (st : list Value * list Value) ops' =>
           st = (inputs, take (Z.to_nat r) inputs) /\ ops' = ops)
        0 (Z.of_nat (length inputs)) next body fuel s ops)
        as ([tmp out] & ops2 & Hred & Hst & Hops2)
  end.
  { intros i. reflexivity. }
  { lia. }
  { lia. }
  { split; reflexivity. }
  { intros r st ops0 Hr [-> ->].
    destruct (lookup_lt_is_Some_2 inputs (Z.to_nat r) ltac:(lia)) as [input Hx].
    change (Z.to_nat 1) with 1%nat. cbn [for_loop]. change (1 <? 1) with false.
    cbv iota.
    rewrite (bind_Some _ _ _ _ _ (eq_refl : ret _ _ = Some (_, _))).
    cbn [fst].
    rewrite (bind_Some _ _ _ _ _ (at_index_run _ _ _ _ Hx)).
    eexists _, _. split; [reflexivity |]. split; [| reflexivity].
    replace (Z.to_nat (r + 1)) with (Datatypes.S (Z.to_nat r)) by lia.
    rewrite (take_S_r inputs (Z.to_nat r) input Hx). reflexivity. }
  rewrite (bind_Some _ _ _ _ _ Hred).
  injection Hst as -> ->. subst ops2.
  rewrite Nat2Z.id, take_ge by lia. reflexivity.
Qed.

End ReductionEdgeFacts.

(** Two one-lane vectors on a target without vectors: returned as they are. *)
Lemma multiReduction_one_lane_identity_witness :
  let a := BlockArgument 0 (VectorType [1] (FloatType Float32Type)) in
  let b := BlockArgument 1 (VectorType [1] (FloatType Float32Type)) in
  @VectorBuilder.multiReduction {| getVectorLength := fun _ => 0 |} [a; b] []
  = Some ([a; b], []).
Proof.
  intros a b.
  exact (proj1 (@multiReduction_one_lane_identity {| getVectorLength := fun _ => 0 |}
                  [a; b] (FloatType Float32Type) []
                  ltac:(cbn; lia) ltac:(repeat constructor))
           ltac:(discriminate)).
Defined.

(** ** What [reshapeToFlat] rejects *)

(** X24: [reshapeToFlat] is a fatal stop when the number of dimensions to
    flatten is 0, below -1 or above the rank, and, the rank-0 buffer having
    no dimension to flatten, on every rank-0 buffer, -1 included; so it is
    when the value is no memref, when the number of dimensions given differs
    from the rank, and when the layout is not the identity. *)
Theorem reshapeToFlat_rejects `{AllocationDefaults} (valToReshape : Value)
    (dims : list IndexExpr) (dimsToFlatten : Z) (ops : list Operation) :
  dimsToFlatten = 0 \/ dimsToFlatten < -1
  \/ getRank (getType valToReshape) < dimsToFlatten
  \/ getRank (getType valToReshape) = 0
  \/ isa_MemRefType (getType valToReshape) = false
  \/ getRank (getType valToReshape) <> Z.of_nat (length dims)
  \/ hasNonIdentityLayout (getType valToReshape) = true ->
  MemRefBuilder.reshapeToFlat valToReshape dims dimsToFlatten ops = None.
Proof.
  intros Hbad. unfold MemRefBuilder.reshapeToFlat.
  destruct (isa_MemRefType (getType valToReshape)) eqn:Hmem;
    [rewrite assert_true by reflexivity | reflexivity].
  destruct (Z.eqb_spec (getRank (getType valToReshape)) (Z.of_nat (length dims)))
    as [Hrank | Hrank]; [rewrite assert_true by reflexivity | reflexivity].
  destruct (hasNonIdentityLayout (getType valToReshape)) eqn:Hlayout;
    [reflexivity | rewrite assert_true by reflexivity].
  assert (Hpos : 0 <= getRank (getType valToReshape)) by (unfold getRank; lia).
  rewrite assert_false; [reflexivity |].
  apply andb_false_iff.
  destruct (Z.eqb_spec dimsToFlatten (-1)) as [-> | Hne].
  - left. apply Z.ltb_ge.
    destruct Hbad as [? | [? | [? | [? | [? | [? | ?]]]]]];
      try lia; try discriminate; try contradiction.
  - destruct Hbad as [? | [? | [? | [? | [? | [? | ?]]]]]];
      try discriminate; try contradiction;
      try (left; apply Z.ltb_ge; lia); try (right; apply Z.leb_gt; lia).
    destruct (Z.le_gt_cases dimsToFlatten 0);
      [left; apply Z.ltb_ge; lia | right; apply Z.leb_gt; lia].
Qed.

(** Three dimensions cannot be flattened in a buffer of rank 2. *)
Lemma reshapeToFlat_rejects_witness :
  @MemRefBuilder.reshapeToFlat align16
    (BlockArgument 0 (MemRefType [2; 3] (FloatType Float32Type) true))
    [LiteralIndexExpr 2; LiteralIndexExpr 3] 3 []
  = None.
Proof.
  apply (@reshapeToFlat_rejects align16). right. right. left. vm_compute. reflexivity.
Defined.

(** ** Collapsing dimensions *)

Lemma collapseGroup_run (inputShape : list Z) (indices : list Z) (ops : list Operation) :
  Forall (fun ii => 0 <= ii < Z.of_nat (length inputShape)) indices ->
  forall currShape,
  collapseGroup inputShape (Z.of_nat (length inputShape)) indices currShape ops
  = Some (let extents := (fun ii => default 0 (inputShape !! Z.to_nat ii)) <$> indices in
          if bool_decide (kDynamic ∈ extents) then kDynamic
          else foldl (fun acc d => to_int64 (acc * d)) currShape extents, ops).
Proof.
  induction 1 as [| ii rest Hii Hrest IH]; intros currShape; cbn [collapseGroup].
  - reflexivity.
  - rewrite assert_true
      by (apply andb_true_iff; split; [apply Z.leb_le | apply Z.ltb_lt]; lia).
    destruct (lookup_lt_is_Some_2 inputShape (Z.to_nat ii) ltac:(lia)) as [ss Hss].
    rewrite (bind_Some _ _ _ _ _ (at_index_run _ _ _ _ Hss)).
    cbn [fmap list_fmap]. rewrite Hss. cbn [default].
    case_bool_decide as Hdyn.
    + subst ss. rewrite bool_decide_eq_true_2 by (apply elem_of_cons; auto).
      reflexivity.
    + rewrite IH. cbv zeta. f_equal. f_equal.
      destruct (bool_decide_reflect
                  (kDynamic ∈ (fun ii => default 0 (inputShape !! Z.to_nat ii)) <$> rest))
        as [Hin | Hnin].
      * rewrite bool_decide_eq_true_2 by (apply elem_of_cons; auto). reflexivity.
      * rewrite bool_decide_eq_false_2; [reflexivity |].
        intros [Heq | Hin]%elem_of_cons;
          [apply Hdyn; symmetry; exact Heq | contradiction].
Qed.

(** X25: for an identity-layout buffer and reassociation groups that are not
    empty and hold valid dimension numbers, [collapseShape] computes an
    identity-layout type of the same element type with one extent per group:
    dynamic when one of the collapsed extents is, their product as an
    [int64_t] otherwise.  A dynamic extent ends the scan of its group, so a
    dimension number that follows it is not checked: a group that starts with
    a dynamic dimension gives a dynamic extent whatever follows. *)
Theorem collapseShape_extents (input : Value) (shape : list Z) (elementType : Ty)
    (reassociation : list (list Z)) (ops : list Operation) :
  getType input = MemRefType shape elementType true ->
  (Forall (fun indices =>
             indices <> []
             /\ Forall (fun ii => 0 <= ii < Z.of_nat (length shape)) indices)
     reassociation ->
   collapseShape input reassociation ops
   = Some (MemRefType (collapsedExtent shape <$> reassociation) elementType true, ops))
  /\ (forall ii rest,
        shape !! Z.to_nat ii = Some kDynamic -> 0 <= ii ->
        collapseShape input [ii :: rest] ops
        = Some (MemRefType [kDynamic] elementType true, ops)).
Proof.
  intros Hty.
  split.
  - intros Hgroups. unfold collapseShape.
    rewrite !assert_true by (rewrite Hty; reflexivity).
    rewrite Hty. cbn [getShape getElementType]. unfold getRank. cbn [getShape].
    destruct (for_loop_invariant
      (fun r (s : list Z) ops' =>
         s = collapsedExtent shape <$> take (Z.to_nat r) reassociation /\ ops' = ops)
      0 (Z.of_nat (length reassociation))
      (fun r outputShape =>
         indices <- at_index reassociation r ;;
         assert (0 <? Z.of_nat (length indices)) ;;;
         currShape <- collapseGroup shape (Z.of_nat (length shape)) indices 1 ;;
         ret (outputShape ++ [currShape]))
      (Datatypes.S (Z.to_nat (Z.of_nat (length reassociation)))) [] ops)
      as (s' & ops' & Hrun & Hs & Hops).
    + lia.
    + lia.
    + split; reflexivity.
    + intros r s ops0 Hr [-> ->].
      destruct (lookup_lt_is_Some_2 reassociation (Z.to_nat r) ltac:(lia))
        as [indices Hx].
      destruct (proj1 (Forall_lookup _ _) Hgroups _ _ Hx) as [Hne Hvalid].
      rewrite (bind_Some _ _ _ _ _ (at_index_run _ _ _ _ Hx)).
      rewrite assert_true
        by (apply Z.ltb_lt; destruct indices; [contradiction | cbn [length]; lia]).
      rewrite (bind_Some _ _ _ _ _ (collapseGroup_run shape indices ops Hvalid 1)).
      eexists _, _. split; [reflexivity |]. split; [| reflexivity].
      replace (Z.to_nat (r + 1)) with (Datatypes.S (Z.to_nat r)) by lia.
      rewrite (take_S_r reassociation (Z.to_nat r) indices Hx), fmap_app.
      cbn [fmap list_fmap]. unfold collapsedExtent at 3. cbv zeta.
      rewrite foldl_to_int64_product. reflexivity.
    + rewrite (bind_Some _ _ _ _ _ Hrun).
      rewrite Nat2Z.id, take_ge in Hs by lia. subst s' ops'. reflexivity.
  - intros ii rest Hdyn Hii. unfold collapseShape.
    rewrite !assert_true by (rewrite Hty; reflexivity).
    rewrite Hty. cbn [getShape getElementType]. unfold getRank. cbn [getShape].
    assert (Hgroup : collapseGroup shape (Z.of_nat (length shape)) (ii :: rest) 1 ops
                     = Some (kDynamic, ops)).
    { cbn [collapseGroup].
      rewrite assert_true
        by (apply andb_true_iff; split; [apply Z.leb_le; lia | apply Z.ltb_lt];
            apply lookup_lt_Some in Hdyn; lia).
      rewrite (bind_Some _ _ _ _ _ (at_index_run _ _ _ _ Hdyn)).
      rewrite bool_decide_eq_true_2 by reflexivity. reflexivity. }
    destruct (for_loop_invariant
      (fun r (s : list Z) ops' => s = take (Z.to_nat r) [kDynamic] /\ ops' = ops)
      0 (Z.of_nat (length [ii :: rest]))
      (fun r outputShape =>
         indices <- at_index [ii :: rest] r ;;
         assert (0 <? Z.of_nat (length indices)) ;;;
         currShape <- collapseGroup shape (Z.of_nat (length shape)) indices 1 ;;
         ret (outputShape ++ [currShape]))
      (Datatypes.S (Z.to_nat (Z.of_nat (length [ii :: rest])))) [] ops)
      as (s' & ops' & Hrun & Hs & Hops).
    + cbn [length]. lia.
    + lia.
    + split; reflexivity.
    + intros r s ops0 Hr [-> ->]. cbn [length] in Hr.
      assert (r = 0) as -> by lia.
      rewrite (bind_Some _ _ _ _ _
                 (at_index_run [ii :: rest] 0 (ii :: rest) ops eq_refl)).
      rewrite assert_true by reflexivity.
      rewrite (bind_Some _ _ _ _ _ Hgroup).
      eexists _, _. split; [reflexivity |]. split; reflexivity.
    + rewrite (bind_Some _ _ _ _ _ Hrun). subst s' ops'. reflexivity.
Qed.

(** A [memref<2x3x?x5xf32>] collapsed by [[0, 1], [2, 3]]: a
    [memref<6x?xf32>]. *)
Lemma collapseShape_extents_witness :
  collapseShape
    (BlockArgument 0 (MemRefType [2; 3; kDynamic; 5] (FloatType Float32Type) true))
    [[0; 1]; [2; 3]] []
  = Some (MemRefType [6; kDynamic] (FloatType Float32Type) true, []).
Proof.
  exact (proj1 (collapseShape_extents
                  (BlockArgument 0
                     (MemRefType [2; 3; kDynamic; 5] (FloatType Float32Type) true))
                  [2; 3; kDynamic; 5] (FloatType Float32Type) [[0; 1]; [2; 3]] []
                  eq_refl)
           ltac:(repeat constructor; try discriminate; cbn; lia)).
Defined.

(** ** Wrap-around arithmetic without emulation *)

Section PlainArithmeticFacts.
Context `{FloatSemantics}.

(** X26: on unsigned operands of one type, the plain [arith.subi] that [sub]
    creates needs no emulation: every lane of the result is the difference of
    the operands' unsigned values modulo [2 ^ width], and the result has the
    unsigned type of the operands. *)
Theorem unsigned_sub_wraparound (env : nat -> list Z) (lhs rhs : Value)
    (width : Z) (ops : list Operation) :
  0 < width ->
  getType lhs = getType rhs ->
  elementTypeWithVector (getType lhs) = IntegerType width Unsigned ->
  exists r ops',
    MathBuilder.sub lhs rhs ops = Some (r, ops')
    /\ getType r = getType lhs
    /\ eval env r
       = zip_with (fun a b => (unsigned_value width a - unsigned_value width b)
                              mod 2 ^ width)
           (eval env lhs) (eval env rhs).
Proof.
  intros Hw Hty He.
  destruct (binary_unsigned_run lhs rhs width ops Hty He) as (Hsub & _).
  eexists _, _. split; [exact Hsub |]. split; [reflexivity |].
  cbn [eval]. rewrite He. apply zip_with_ext; try reflexivity.
  intros a b. cbn [binary_lane laneWidth]. unfold unsigned_value.
  apply Zminus_mod.
Qed.

(** X27: on operands of one type whose element type is a signed or signless
    integer, [add], [sub] and [mul] each create the one signless operation
    ([arith.addi], [arith.subi], [arith.muli]) on the operands as they are;
    the result has the type of the operands and every lane is the sum, the
    difference or the product of the operands' two's complement values,
    wrapped to [width] bits. *)
Theorem signed_arithmetic_wraparound (env : nat -> list Z) (lhs rhs : Value)
    (width : Z) (s : SignednessSemantics) (ops : list Operation) :
  0 < width ->
  s <> Unsigned ->
  getType lhs = getType rhs ->
  elementTypeWithVector (getType lhs) = IntegerType width s ->
  (MathBuilder.add lhs rhs ops
   = Some (BinaryOp AddIOp (getType lhs) lhs rhs,
           ops ++ [OpWithResult (BinaryOp AddIOp (getType lhs) lhs rhs)])
   /\ eval env (BinaryOp AddIOp (getType lhs) lhs rhs)
      = zip_with (fun a b => (signed_value width a + signed_value width b) mod 2 ^ width)
          (eval env lhs) (eval env rhs))
  /\ (MathBuilder.sub lhs rhs ops
      = Some (BinaryOp SubIOp (getType lhs) lhs rhs,
              ops ++ [OpWithResult (BinaryOp SubIOp (getType lhs) lhs rhs)])
      /\ eval env (BinaryOp SubIOp (getType lhs) lhs rhs)
         = zip_with (fun a b => (signed_value width a - signed_value width b)
                                mod 2 ^ width)
             (eval env lhs) (eval env rhs))
  /\ (MathBuilder.mul lhs rhs ops
      = Some (BinaryOp MulIOp (getType lhs) lhs rhs,
              ops ++ [OpWithResult (BinaryOp MulIOp (getType lhs) lhs rhs)])
      /\ eval env (BinaryOp MulIOp (getType lhs) lhs rhs)
         = zip_with (fun a b => (signed_value width a * signed_value width b)
                                mod 2 ^ width)
             (eval env lhs) (eval env rhs)).
Proof.
  intros Hw Hs Hty He.
  assert (Hint : isIntegerWithVector (getType lhs) = true)
    by (unfold isIntegerWithVector; rewrite He; reflexivity).
  assert (Hu : isUnsignedInteger (elementTypeWithVector (getType lhs)) = false)
    by (rewrite He; destruct s; [reflexivity | reflexivity | contradiction]).
  unfold MathBuilder.add, MathBuilder.sub, MathBuilder.mul.
  rewrite !assert_true by (apply bool_decide_eq_true; exact Hty).
  rewrite Hint. cbv zeta. rewrite Hu.
  repeat split; try reflexivity;
    cbn [eval]; rewrite He; apply zip_with_ext; try reflexivity;
    intros a b; cbn [binary_lane laneWidth].
  - rewrite Zplus_mod, <- (signed_value_mod width a), <- (signed_value_mod width b)
      by exact Hw.
    rewrite <- Zplus_mod. reflexivity.
  - rewrite Zminus_mod, <- (signed_value_mod width a), <- (signed_value_mod width b)
      by exact Hw.
    rewrite <- Zminus_mod. reflexivity.
  - rewrite Zmult_mod, <- (signed_value_mod width a), <- (signed_value_mod width b)
      by exact Hw.
    rewrite <- Zmult_mod. reflexivity.
Qed.

End PlainArithmeticFacts.

(** [ui8] scalars holding 100 and 200: the difference wraps to 156. *)
Lemma unsigned_sub_wraparound_witness :
  let lhs := BlockArgument 0 (IntegerType 8 Unsigned) in
  let rhs := BlockArgument 1 (IntegerType 8 Unsigned) in
  exists r ops',
    MathBuilder.sub lhs rhs [] = Some (r, ops')
    /\ @eval noFloats (argumentLanes [[100]; [200]]) r = [156].
Proof.
  intros lhs rhs.
  destruct (@unsigned_sub_wraparound noFloats (argumentLanes [[100]; [200]])
              lhs rhs 8 [] ltac:(lia) eq_refl eq_refl)
    as (r & ops' & Hrun & _ & Hev).
  exists r, ops'. split; [exact Hrun | exact Hev].
Defined.

(** [i8] scalars holding 100 and 100: the sum 200 wraps to the bits of -56. *)
Lemma signed_arithmetic_wraparound_witness :
  let lhs := BlockArgument 0 (IntegerType 8 Signless) in
  let rhs := BlockArgument 1 (IntegerType 8 Signless) in
  @eval noFloats (argumentLanes [[100]; [100]])
    (BinaryOp AddIOp (IntegerType 8 Signless) lhs rhs) = [200]
  /\ interpret (IntegerType 8 Signless) 200 = -56.
Proof.
  intros lhs rhs. split; [| reflexivity].
  exact (proj2 (proj1 (@signed_arithmetic_wraparound noFloats
                         (argumentLanes [[100]; [100]]) lhs rhs 8 Signless []
                         ltac:(lia) ltac:(discriminate) eq_refl eq_refl))).
Defined.

(** ** Allocations from the dimensions *)

Section AllocationFacts.
Context `{VectorMachineSupport} `{AllocationDefaults}.

(** X28: given a dimension for every extent of the layout, [alloc] and
    [alignedAlloc] on the dimensions create, after the index arithmetic of
    the dynamic dimensions, one [memref.alloc] of the requested type whose
    operands are the values of the dimensions of the dynamic extents, one per
    dynamic extent.  [alloc] sets no alignment; [alignedAlloc] sets none on a
    rank-0 buffer and otherwise the larger of the requested alignment and the
    default one. *)
Theorem alloc_of_dims_one_symbol_per_dynamic_extent (type : Ty)
    (dims : list IndexExpr) (alignment : Z) (ops : list Operation) :
  (length (getShape type) <= length dims)%nat ->
  let symbols := valueOf <$> dynamicDims (getShape type) dims in
  let created := concat (materialisationOps <$> dynamicDims (getShape type) dims) in
  let aligned :=
    AllocOp type symbols
      (if bool_decide (getShape type = []) then None
       else Some (Z.max alignment gDefaultAllocAlign)) in
  MemRefBuilderOps.allocOfDims type dims ops
  = Some (AllocOp type symbols None,
          ops ++ created ++ [OpWithResult (AllocOp type symbols None)])
  /\ MemRefBuilderOps.alignedAllocOfDims type dims alignment ops
     = Some (aligned, ops ++ created ++ [OpWithResult aligned])
  /\ length symbols = numDynamic (getShape type).
Proof.
  intros Hlen symbols created aligned.
  assert (Hrun := computeDynSymbols_run type dims ops Hlen).
  fold symbols created in Hrun.
  split; [| split].
  - unfold MemRefBuilderOps.allocOfDims.
    rewrite (bind_Some _ _ _ _ _ Hrun). unfold MemRefBuilder.alloc.
    case_bool_decide as Hn.
    + apply nil_length_inv in Hn. rewrite Hn. unfold create.
      rewrite <- app_assoc. reflexivity.
    + unfold create. rewrite <- app_assoc. reflexivity.
  - unfold MemRefBuilderOps.alignedAllocOfDims.
    rewrite (bind_Some _ _ _ _ _ Hrun). unfold aligned.
    case_bool_decide as Hshape.
    + unfold MemRefBuilder.alignedAlloc.
      rewrite bool_decide_eq_true_2 by (rewrite Hshape; reflexivity).
      unfold MemRefBuilder.alloc.
      case_bool_decide as Hn.
      * apply nil_length_inv in Hn. rewrite Hn. unfold create.
        rewrite <- app_assoc. reflexivity.
      * unfold create. rewrite <- app_assoc. reflexivity.
    + rewrite alignedAlloc_ranked by exact Hshape.
      unfold MemRefBuilder.computeAlignment.
      replace (if gDefaultAllocAlign <? alignment then alignment
               else gDefaultAllocAlign)
        with (Z.max alignment gDefaultAllocAlign)
        by (destruct (Z.ltb_spec gDefaultAllocAlign alignment); lia).
      rewrite <- app_assoc. reflexivity.
  - unfold symbols. rewrite length_fmap. apply length_dynamicDims. exact Hlen.
Qed.

End AllocationFacts.

(** A [memref<2x?xf32>] with dimensions [2, n], alignment 4 requested on a
    target whose default is 16: one allocation with the operand [n], aligned
    to 16. *)
Lemma alloc_of_dims_one_symbol_per_dynamic_extent_witness :
  let n := BlockArgument 0 IndexType in
  let type := MemRefType [2; kDynamic] (FloatType Float32Type) true in
  @MemRefBuilderOps.alignedAllocOfDims align16 type
    [LiteralIndexExpr 2; SymbolIndexExpr n] 4 []
  = Some (AllocOp type [n] (Some 16), [OpWithResult (AllocOp type [n] (Some 16))]).
Proof.
  intros n type.
  exact (proj1 (proj2 (@alloc_of_dims_one_symbol_per_dynamic_extent align16 type
                         [LiteralIndexExpr 2; SymbolIndexExpr n] 4 []
                         ltac:(vm_compute; lia)))).
Defined.
